(** * Verification of the codex-mcp-server indexing and retrieval engine

    A shallow embedding of the TypeScript sources

      - [src/database/DatabaseManager.ts]   (module [DatabaseManager])
      - [src/parsers/LanguageParser.ts]     (module [LanguageParser])
      - [src/embeddings/EmbeddingGenerator.ts] (module [EmbeddingGenerator])
      - [src/indexer/CodeIndexer.ts]        (module [CodeIndexer])
      - [src/search/SearchEngine.ts]        (module [SearchEngine])

    followed by the theorems that settle the properties stated about them.

    Conventions.  JavaScript strings are modelled by [string] (sequences of
    8-bit characters: the text handled here is ASCII source code), JavaScript
    numbers used as counters, line numbers and row ids by [nat] or [Z],
    IEEE-754 doubles by the kernel's primitive [float], [undefined]/[null] by
    [None], and a thrown exception by the [Throw] constructor of [result]. *)

From Stdlib Require Import List Bool Arith ZArith Lia String Ascii Sorted Permutation.
From Stdlib Require Import Uint63 PrimFloat SpecFloat FloatOps FloatAxioms.
Import ListNotations.
Local Open Scope string_scope.
Local Open Scope list_scope.
Local Open Scope nat_scope.

Set Implicit Arguments.

(* ================================================================== *)
(** ** JavaScript strings *)
(* ================================================================== *)

Module JsString.

Definition code (c : ascii) : nat := nat_of_ascii c.

Definition inRange (lo hi : ascii) (c : ascii) : bool :=
  (code lo <=? code c) && (code c <=? code hi).

(** White space in the sense of [\s] and [String.prototype.trim]
    (tab, line feed, vertical tab, form feed, carriage return, space). *)
Definition isSpace (c : ascii) : bool :=
  match code c with
  | 9 | 10 | 11 | 12 | 13 | 32 => true
  | _ => false
  end.

Definition isLower (c : ascii) : bool := inRange "a" "z" c.
Definition isUpper (c : ascii) : bool := inRange "A" "Z" c.
Definition isDigit (c : ascii) : bool := inRange "0" "9" c.

(** [\w] *)
Definition isWord (c : ascii) : bool :=
  isLower c || isUpper c || isDigit c || Ascii.eqb c "_".

(** [.] without the [s] flag: anything but a line terminator. *)
Definition isDot (c : ascii) : bool :=
  negb (Ascii.eqb c "010" || Ascii.eqb c "013").

Fixpoint oneOf (set : string) (c : ascii) : bool :=
  match set with
  | EmptyString => false
  | String d set' => Ascii.eqb c d || oneOf set' c
  end.

Fixpoint rev_onto (s acc : string) : string :=
  match s with
  | EmptyString => acc
  | String c s' => rev_onto s' (String c acc)
  end.

Definition rev (s : string) : string := rev_onto s EmptyString.

Fixpoint trimStart (s : string) : string :=
  match s with
  | EmptyString => EmptyString
  | String c s' => if isSpace c then trimStart s' else s
  end.

Definition trimEnd (s : string) : string := rev (trimStart (rev s)).

Definition trim (s : string) : string := trimEnd (trimStart s).

(** [s.split(sep)] for a one-character separator: never the empty list. *)
Fixpoint split (sep : ascii) (s : string) : list string :=
  match s with
  | EmptyString => [EmptyString]
  | String c s' =>
      if Ascii.eqb c sep then EmptyString :: split sep s'
      else match split sep s' with
           | [] => [String c EmptyString]
           | h :: t => String c h :: t
           end
  end.

Definition lines (s : string) : list string := split "010" s.

(** [parts.join(sep)] *)
Fixpoint join (sep : string) (parts : list string) : string :=
  match parts with
  | [] => EmptyString
  | [p] => p
  | p :: rest => String.append p (String.append sep (join sep rest))
  end.

Fixpoint startsWith (p s : string) : bool :=
  match p, s with
  | EmptyString, _ => true
  | String a p', String b s' => Ascii.eqb a b && startsWith p' s'
  | String _ _, EmptyString => false
  end.

Definition endsWith (p s : string) : bool := startsWith (rev p) (rev s).

(** [s.indexOf(p)]: [None] stands for [-1]. *)
Fixpoint indexOfFrom (p s : string) (i : nat) : option nat :=
  if startsWith p s then Some i
  else match s with
       | EmptyString => None
       | String _ s' => indexOfFrom p s' (S i)
       end.

Definition indexOf (p s : string) : option nat := indexOfFrom p s 0.

Definition includes (p s : string) : bool :=
  match indexOf p s with Some _ => true | None => false end.

(** [s.indexOf(p) + 1], the column arithmetic of the parsers ([-1 + 1 = 0]). *)
Definition indexOfPlus1 (p s : string) : nat :=
  match indexOf p s with Some i => S i | None => 0 end.

(** [s.substring(a, b)] for [a <= b]. *)
Definition substring (a b : nat) (s : string) : string :=
  String.substring a (b - a) s.

(** [s.split(sep)[0]] for a non-empty separator string. *)
Definition beforeFirst (sep s : string) : string :=
  match indexOf sep s with
  | Some i => String.substring 0 i s
  | None => s
  end.

(** [s.split(sep).pop()] for a one-character separator. *)
Definition afterLast (sep : ascii) (s : string) : string :=
  last (split sep s) EmptyString.

Definition toLowerChar (c : ascii) : ascii :=
  if isUpper c then ascii_of_nat (code c + 32) else c.

(** [s.toLowerCase()] on a string of ASCII characters, where it maps each
    character on its own and keeps the length.  (On other text it need
    not: it turns U+0130 into two code units.  A property that rests on
    the length assumes ASCII text.) *)
Fixpoint toLowerCase (s : string) : string :=
  match s with
  | EmptyString => EmptyString
  | String c s' => String (toLowerChar c) (toLowerCase s')
  end.

Fixpoint mapChars (f : ascii -> ascii) (s : string) : string :=
  match s with
  | EmptyString => EmptyString
  | String c s' => String (f c) (mapChars f s')
  end.

Definition isEmpty (s : string) : bool :=
  match s with EmptyString => true | _ => false end.

End JsString.

(* ================================================================== *)
(** ** Regular expressions

    The parsers are driven by [RegExp] literals.  They are transcribed as
    values of [regex] and run by a backtracking matcher with the priorities
    of ECMAScript: alternatives left to right, greedy quantifiers longest
    first, lazy ones shortest first, an iteration that consumes nothing is
    rejected, and [String.prototype.match] without the [g] flag returns the
    match at the leftmost start position. *)
(* ================================================================== *)

Module Regex.
Import JsString.

Inductive regex : Type :=
| RChar (p : ascii -> bool)          (* a character or character class *)
| REmpty                             (* the empty pattern *)
| RSeq (r1 r2 : regex)
| RAlt (r1 r2 : regex)               (* r1|r2 *)
| RStar (greedy : bool) (r : regex)  (* r* and r*? *)
| RGroup (n : nat) (r : regex)       (* capture group number n *)
| RBol (multiline : bool)            (* ^ *)
| RWordB.                            (* \b *)

Record mstate : Type := MState {
  prev : option ascii;               (* the character before the position *)
  rest : string;                     (* the input from the position on *)
  pos  : nat;
  caps : list (nat * string)         (* captures, the latest first *)
}.

Definition atBol (multiline : bool) (st : mstate) : bool :=
  match prev st with
  | None => true
  | Some c => multiline && (Ascii.eqb c "010" || Ascii.eqb c "013")
  end.

Definition wordBefore (st : mstate) : bool :=
  match prev st with Some c => isWord c | None => false end.

Definition wordAfter (st : mstate) : bool :=
  match rest st with String c _ => isWord c | EmptyString => false end.

Definition atWordBoundary (st : mstate) : bool :=
  xorb (wordBefore st) (wordAfter st).

Fixpoint run (r : regex) (st : mstate) (k : mstate -> option mstate)
  {struct r} : option mstate :=
  match r with
  | RChar p =>
      match rest st with
      | String c s' =>
          if p c then k (MState (Some c) s' (S (pos st)) (caps st)) else None
      | EmptyString => None
      end
  | REmpty => k st
  | RSeq r1 r2 => run r1 st (fun st1 => run r2 st1 k)
  | RAlt r1 r2 =>
      match run r1 st k with
      | Some out => Some out
      | None => run r2 st k
      end
  | RStar greedy r1 =>
      (fix iterate (n : nat) (st0 : mstate) {struct n} : option mstate :=
         match n with
         | O => k st0
         | S n' =>
             if greedy then
               match run r1 st0 (fun st1 =>
                       if pos st0 <? pos st1 then iterate n' st1 else None) with
               | Some out => Some out
               | None => k st0
               end
             else
               match k st0 with
               | Some out => Some out
               | None => run r1 st0 (fun st1 =>
                       if pos st0 <? pos st1 then iterate n' st1 else None)
               end
         end) (S (String.length (rest st))) st
  | RGroup n r1 =>
      run r1 st (fun st1 =>
        k (MState (prev st1) (rest st1) (pos st1)
             ((n, String.substring 0 (pos st1 - pos st) (rest st)) :: caps st1)))
  | RBol m => if atBol m st then k st else None
  | RWordB => if atWordBoundary st then k st else None
  end.

(** The result of a successful match: where it starts, where it ends and
    what the groups captured. *)
Record found : Type := Found {
  index : nat;
  stop : nat;
  groups : list (nat * string)
}.

Fixpoint searchFrom (r : regex) (before : option ascii) (s : string) (i : nat)
  : option found :=
  match run r (MState before s i []) Some with
  | Some st => Some (Found i (pos st) (caps st))
  | None =>
      match s with
      | EmptyString => None
      | String c s' => searchFrom r (Some c) s' (S i)
      end
  end.

(** [s.match(r)] for a regular expression without the [g] flag. *)
Definition jsMatch (r : regex) (s : string) : option found :=
  searchFrom r None s 0.

Fixpoint execFrom (r : regex) (before : option ascii) (s : string)
  (i lastIndex : nat) : option found :=
  match lastIndex with
  | 0 => searchFrom r before s i
  | S lastIndex' =>
      match s with
      | EmptyString => None
      | String c s' => execFrom r (Some c) s' (S i) lastIndex'
      end
  end.

(** [r.exec(s)] for a regular expression with the [g] flag whose
    [lastIndex] is [lastIndex]: the match found from there on and the new
    [lastIndex], the end of the match; [None] for [null] (and [lastIndex]
    back to 0). *)
Definition exec (r : regex) (s : string) (lastIndex : nat) : option (nat * nat) :=
  match execFrom r None s 0 lastIndex with
  | Some m => Some (index m, stop m)
  | None => None
  end.

(** [r.test(s)] *)
Definition test (r : regex) (s : string) : bool :=
  match jsMatch r s with Some _ => true | None => false end.

(** [m[n]]: [None] when the group did not take part in the match. *)
Fixpoint lookup (n : nat) (cs : list (nat * string)) : option string :=
  match cs with
  | [] => None
  | (m, s) :: cs' => if Nat.eqb n m then Some s else lookup n cs'
  end.

Definition group (n : nat) (m : found) : option string := lookup n (groups m).

(** A group that the shape of the pattern forces to take part. *)
Definition group' (n : nat) (m : found) : string :=
  match group n m with Some s => s | None => EmptyString end.

(** *** Pattern combinators *)

Definition chr (c : ascii) : regex := RChar (Ascii.eqb c).

Fixpoint lit (s : string) : regex :=
  match s with
  | EmptyString => REmpty
  | String c EmptyString => chr c
  | String c s' => RSeq (chr c) (lit s')
  end.

Fixpoint seqs (rs : list regex) : regex :=
  match rs with
  | [] => REmpty
  | [r] => r
  | r :: rs' => RSeq r (seqs rs')
  end.

Fixpoint alts (rs : list regex) : regex :=
  match rs with
  | [] => RChar (fun _ => false)
  | [r] => r
  | r :: rs' => RAlt r (alts rs')
  end.

Definition star (r : regex) : regex := RStar true r.            (* r*  *)
Definition plus (r : regex) : regex := RSeq r (RStar true r).   (* r+  *)
Definition opt (r : regex) : regex := RAlt r REmpty.            (* r?  *)
Definition lazyStar (r : regex) : regex := RStar false r.       (* r*? *)
Definition lazyPlus (r : regex) : regex := RSeq r (RStar false r). (* r+? *)

Definition cls (p : ascii -> bool) : regex := RChar p.
Definition notCls (p : ascii -> bool) : regex := RChar (fun c => negb (p c)).

Definition ws : regex := cls isSpace.                           (* \s *)
Definition dot : regex := cls isDot.                            (* .  *)
Definition isQuote (c : ascii) : bool :=
  Ascii.eqb c "'" || Ascii.eqb c (ascii_of_nat 34).
Definition quote : regex := cls isQuote.

End Regex.


(* ================================================================== *)
(** ** Results of operations that may throw *)
(* ================================================================== *)

Inductive error : Type :=
| TypeError          (* a property read on null or undefined *)
| SyntaxError        (* an invalid regular expression *)
| StoreError         (* an error reported by the database *)
| IoError.           (* a file that cannot be read *)

Inductive result (A : Type) : Type :=
| Ok (a : A)
| Throw (e : error).

Arguments Ok {A} a.
Arguments Throw {A} e.

Definition bind {A B : Type} (r : result A) (f : A -> result B) : result B :=
  match r with
  | Ok a => f a
  | Throw e => Throw e
  end.

Notation "x <- r ;; k" := (bind r (fun x => k))
  (at level 61, r at next level, right associativity).

(** The elements of a list with their indices, as a [for (let i = 0; ...)]
    loop over an array sees them. *)
Definition indexed {A : Type} (l : list A) : list (nat * A) :=
  combine (seq 0 (List.length l)) l.

(** A stable sort: [before x y] says that [x] must come strictly before [y].
    It gives the order of [Array.prototype.sort] with a consistent comparator
    ([before x y] when [compare(x, y) < 0]) and of an [ORDER BY] clause whose
    ties keep the insertion order of the rows. *)
Section StableSort.
Variable A : Type.
Variable before : A -> A -> bool.

Fixpoint insertSorted (x : A) (l : list A) : list A :=
  match l with
  | [] => [x]
  | y :: l' => if before x y then x :: y :: l' else y :: insertSorted x l'
  end.

Definition stableSort (l : list A) : list A :=
  fold_left (fun sorted x => insertSorted x sorted) l [].
End StableSort.

(* ================================================================== *)
(** ** src/parsers/LanguageParser.ts *)
(* ================================================================== *)

Module LanguageParser.
Import JsString Regex.

Inductive SymbolType : Type :=
| TFunction | TClass | TVariable | TInterface | TType | TMethod | TProperty.

Record ParsedSymbol : Type := {
  name : string;
  type : SymbolType;
  startLine : nat;
  endLine : nat;
  startColumn : nat;
  endColumn : nat;
  definition : string;
  docstring : option string;
  modifiers : list string
}.

Inductive ImportType : Type := ByImport | ByRequire | ByInclude.

Record ParsedDependency : Type := {
  importPath : string;
  importType : ImportType;
  isExternal : bool;
  symbols : list string
}.

Definition supportedLanguages : list string :=
  ["javascript"; "typescript"; "python"; "java"; "cpp"; "c"; "csharp";
   "php"; "ruby"; "go"; "rust"; "swift"; "kotlin"; "scala"; "clojure"].

Definition isSupported (language : string) : bool :=
  existsb (String.eqb language) supportedLanguages.

(** [content.split('\n')] on a receiver that may be [null]. *)
Definition splitLines (content : option string) : result (list string) :=
  match content with
  | Some text => Ok (lines text)
  | None => Throw TypeError
  end.

(** *** Helper methods *)

Definition getDefinition (lines : list string) (startIndex : nat) : string :=
  let maxLines := 5 in
  trim (join (String "010" EmptyString) (firstn maxLines (skipn startIndex lines))).

(** One line of the brace scan of [findEndLine]: [None] when the scan
    returns inside this line, otherwise the depth and flag after it. *)
Fixpoint scanBraces (openChar closeChar : ascii) (line : string)
  (depth : Z) (found : bool) : option (Z * bool) :=
  match line with
  | EmptyString => Some (depth, found)
  | String char line' =>
      if Ascii.eqb char openChar then
        scanBraces openChar closeChar line' (depth + 1)%Z true
      else if Ascii.eqb char closeChar then
        if found && (depth - 1 =? 0)%Z then None
        else scanBraces openChar closeChar line' (depth - 1)%Z found
      else scanBraces openChar closeChar line' depth found
  end.

Fixpoint findEndFrom (openChar closeChar : ascii) (rest : list string)
  (i : nat) (depth : Z) (found : bool) : option nat :=
  match rest with
  | [] => None
  | line :: rest' =>
      match scanBraces openChar closeChar line depth found with
      | None => Some (i + 1)
      | Some (depth', found') =>
          findEndFrom openChar closeChar rest' (S i) depth' found'
      end
  end.

Definition findEndLine (lines : list string) (startIndex : nat)
  (openChar closeChar : ascii) : nat :=
  match findEndFrom openChar closeChar (skipn startIndex lines) startIndex 0%Z false with
  | Some n => n
  | None => startIndex + 1
  end.

Definition indentOf (line : string) : nat :=
  String.length line - String.length (trimStart line).

Fixpoint pythonBlockEndFrom (rest : list string) (i : nat) (baseIndent : nat)
  : option nat :=
  match rest with
  | [] => None
  | line :: rest' =>
      if isEmpty (trim line) then pythonBlockEndFrom rest' (S i) baseIndent
      else if (indentOf line <=? baseIndent) && negb (isEmpty (trim line))
           then Some i
           else pythonBlockEndFrom rest' (S i) baseIndent
  end.

Definition findPythonBlockEnd (lines : list string) (startIndex baseIndent : nat)
  : nat :=
  match pythonBlockEndFrom (skipn (startIndex + 1) lines) (startIndex + 1) baseIndent with
  | Some n => n
  | None => List.length lines
  end.

Definition extractModifiers (line : string) : list string :=
  let modifierKeywords :=
    ["export"; "default"; "async"; "static"; "const"; "let"; "var"] in
  filter (fun keyword => includes keyword line) modifierKeywords.

(** [new RegExp(`\\b${modifier}\\b`)] for a keyword. *)
Definition wholeWord (word : string) : regex :=
  seqs [RWordB; lit word; RWordB].

Definition extractJavaModifiers (line : string) : list string :=
  let javaModifiers :=
    ["public"; "private"; "protected"; "static"; "final"; "abstract";
     "synchronized"] in
  filter (fun modifier => test (wholeWord modifier) line) javaModifiers.

Definition extractCppModifiers (line : string) : list string :=
  let cppModifiers :=
    ["static"; "extern"; "inline"; "const"; "virtual"; "override"] in
  filter (fun modifier => test (wholeWord modifier) line) cppModifiers.

(** The lines above the definition, the nearest first. *)
Fixpoint decoratorsAbove (above : list string) (decorators : list string)
  : list string :=
  match above with
  | [] => decorators
  | l :: above' =>
      let line := trim l in
      if startsWith "@" line then decoratorsAbove above' (line :: decorators)
      else if negb (isEmpty line) then decorators
      else decoratorsAbove above' decorators
  end.

Definition extractPythonDecorators (lines : list string) (functionIndex : nat)
  : list string :=
  decoratorsAbove (List.rev (firstn functionIndex lines)) [].

Definition dq : ascii := ascii_of_nat 34.
Definition tripleDouble : string := String dq (String dq (String dq EmptyString)).
Definition tripleSingle : string := "'''".

Fixpoint docstringBody (quote : string) (rest : list string) (docstring : string)
  : string :=
  match rest with
  | [] => docstring
  | nextLine :: rest' =>
      match indexOf quote nextLine with
      | Some at_ =>
          String.append docstring
            (String "010" (substring 0 at_ nextLine))
      | None =>
          docstringBody quote rest' (String.append docstring (String "010" nextLine))
      end
  end.

Definition extractPythonDocstring (lines : list string) (startIndex : nat)
  : option string :=
  match nth_error lines startIndex with
  | None => None
  | Some l =>
      let line := trim l in
      if startsWith tripleDouble line || startsWith tripleSingle line then
        let quote := substring 0 3 line in
        let docstring := substring 3 (String.length line) line in
        if endsWith quote line && (6 <? String.length line) then
          Some (substring 0 (String.length docstring - 3) docstring)
        else
          Some (trim (docstringBody quote (skipn (startIndex + 1) lines) docstring))
      else None
  end.

(** The lines above the current one, the nearest first. *)
Fixpoint insideClassAbove (above : list string) : bool :=
  match above with
  | [] => false
  | l :: above' =>
      let line := trim l in
      if startsWith "class " line && includes "{" line then true
      else if String.eqb line "}" || startsWith "function " line then false
      else insideClassAbove above'
  end.

Definition isInsideClass (lines : list string) (currentIndex : nat) : bool :=
  insideClassAbove (List.rev (firstn currentIndex lines)).

(** *** The patterns of the symbol extractors

    Shared pieces: identifiers with and without [$], the optional
    keyword prefixes, and [const|let|var]. *)

Definition idStart (c : ascii) : bool := isLower c || isUpper c || Ascii.eqb c "_".
Definition jsIdStart (c : ascii) : bool := idStart c || Ascii.eqb c "$".
Definition jsIdChar (c : ascii) : bool := isWord c || Ascii.eqb c "$".

Definition jsIdent : regex := RSeq (cls jsIdStart) (star (cls jsIdChar)).
Definition cIdent : regex := RSeq (cls idStart) (star (cls isWord)).

(** [(?:word\s+)?] *)
Definition kw (word : string) : regex := opt (seqs [lit word; plus ws]).

Definition declKeyword : regex := alts [lit "const"; lit "let"; lit "var"].

(** A parenthesised parameter list without a closing parenthesis inside. *)
Definition parens : regex :=
  seqs [chr "("; star (notCls (Ascii.eqb ")")); chr ")"].

Definition jsFunctionRe : regex :=
  seqs [kw "export"; kw "async"; lit "function"; plus ws; RGroup 1 jsIdent;
        star ws; chr "("].

Definition jsArrowRe : regex :=
  seqs [kw "export"; declKeyword; plus ws; RGroup 1 jsIdent; star ws; chr "=";
        star ws; opt (seqs [lit "async"; star ws]); parens; star ws; lit "=>"].

Definition jsClassRe : regex :=
  seqs [kw "export"; lit "class"; plus ws; RGroup 1 jsIdent].

Definition jsInterfaceRe : regex :=
  seqs [kw "export"; lit "interface"; plus ws; RGroup 1 jsIdent].

Definition jsTypeRe : regex :=
  seqs [kw "export"; lit "type"; plus ws; RGroup 1 jsIdent; star ws; chr "="].

Definition jsVarRe : regex :=
  seqs [kw "export"; declKeyword; plus ws; RGroup 1 jsIdent].

Definition jsMethodRe : regex :=
  seqs [RBol false; star ws; kw "async"; RGroup 1 jsIdent; star ws; parens;
        star ws; cls (oneOf ":{")].

Definition pyFunctionRe : regex :=
  seqs [RBol false; RGroup 1 (star ws); lit "def"; plus ws; RGroup 2 cIdent;
        star ws; chr "("].

Definition pyClassRe : regex :=
  seqs [RBol false; RGroup 1 (star ws); lit "class"; plus ws; RGroup 2 cIdent].

Definition pyVarRe : regex :=
  seqs [RBol false; RGroup 1 cIdent; star ws; chr "="].

Definition javaVisibility : regex :=
  opt (alts [seqs [lit "public"; plus ws]; seqs [lit "private"; plus ws];
             seqs [lit "protected"; plus ws]]).

Definition javaTypeChar (c : ascii) : bool :=
  isLower c || isUpper c || oneOf "_$<>[]" c.

Definition javaClassRe : regex :=
  seqs [javaVisibility; kw "static"; kw "final"; lit "class"; plus ws;
        RGroup 1 jsIdent].

Definition javaMethodRe : regex :=
  seqs [javaVisibility; kw "static"; kw "final"; kw "synchronized";
        plus (cls javaTypeChar); plus ws; RGroup 1 jsIdent; star ws; chr "("].

Definition javaInterfaceRe : regex :=
  seqs [kw "public"; lit "interface"; plus ws; RGroup 1 jsIdent].

Definition cppTypeChar (c : ascii) : bool :=
  isLower c || isUpper c || oneOf "_*&:<>[]" c || isSpace c.

Definition cppStorage : regex :=
  opt (alts [seqs [lit "inline"; plus ws]; seqs [lit "static"; plus ws];
             seqs [lit "extern"; plus ws]]).

Definition cppFunctionRe : regex :=
  seqs [RBol false; cppStorage; kw "const"; plus (cls cppTypeChar); plus ws;
        RGroup 1 cIdent; star ws; parens].

Definition cppTemplate : regex :=
  opt (seqs [lit "template"; star ws; chr "<"; star (notCls (Ascii.eqb ">"));
             chr ">"; star ws]).

Definition cppClassRe : regex :=
  seqs [cppTemplate; lit "class"; plus ws; RGroup 1 cIdent].

Definition cppStructRe : regex :=
  seqs [cppTemplate; lit "struct"; plus ws; RGroup 1 cIdent].

(** *** Symbol extraction *)

(** [if (m) { symbols.push(f(m)) }] *)
Definition pushIf {A : Type} (m : option found) (cond : bool) (f : found -> A)
  : list A :=
  match m with
  | Some mm => if cond then [f mm] else []
  | None => []
  end.

Definition isSome {A : Type} (o : option A) : bool :=
  match o with Some _ => true | None => false end.

(** [n || fallback] on numbers. *)
Definition orElse (n fallback : nat) : nat := if n =? 0 then fallback else n.

(** The body of the loop of [parseJavaScriptSymbols] at index [i]. *)
Definition javaScriptSymbolsAt (lines : list string) (i : nat) (line : string)
  : list ParsedSymbol :=
  let lineNumber := i + 1 in
  let functionMatch := jsMatch jsFunctionRe line in
  let arrowMatch := jsMatch jsArrowRe line in
  let classMatch := jsMatch jsClassRe line in
  let interfaceMatch := jsMatch jsInterfaceRe line in
  let typeMatch := jsMatch jsTypeRe line in
  let varMatch := jsMatch jsVarRe line in
  let methodMatch := jsMatch jsMethodRe line in
  pushIf functionMatch true (fun m =>
    {| name := group' 1 m; type := TFunction;
       startLine := lineNumber;
       endLine := findEndLine lines i "{" "}";
       startColumn := indexOfPlus1 "function" line;
       endColumn := String.length line + 1;
       definition := getDefinition lines i;
       docstring := None;
       modifiers := extractModifiers line |})
  ++ pushIf arrowMatch true (fun m =>
    {| name := group' 1 m; type := TFunction;
       startLine := lineNumber;
       endLine := orElse (findEndLine lines i "{" "}") lineNumber;
       startColumn := indexOfPlus1 (group' 1 m) line;
       endColumn := String.length line + 1;
       definition := getDefinition lines i;
       docstring := None;
       modifiers := extractModifiers line |})
  ++ pushIf classMatch true (fun m =>
    {| name := group' 1 m; type := TClass;
       startLine := lineNumber;
       endLine := findEndLine lines i "{" "}";
       startColumn := indexOfPlus1 "class" line;
       endColumn := String.length line + 1;
       definition := getDefinition lines i;
       docstring := None;
       modifiers := extractModifiers line |})
  ++ pushIf interfaceMatch true (fun m =>
    {| name := group' 1 m; type := TInterface;
       startLine := lineNumber;
       endLine := findEndLine lines i "{" "}";
       startColumn := indexOfPlus1 "interface" line;
       endColumn := String.length line + 1;
       definition := getDefinition lines i;
       docstring := None;
       modifiers := extractModifiers line |})
  ++ pushIf typeMatch true (fun m =>
    {| name := group' 1 m; type := TType;
       startLine := lineNumber;
       endLine := lineNumber;
       startColumn := indexOfPlus1 "type" line;
       endColumn := String.length line + 1;
       definition := trim line;
       docstring := None;
       modifiers := extractModifiers line |})
  ++ pushIf varMatch (negb (isSome arrowMatch)) (fun m =>
    {| name := group' 1 m; type := TVariable;
       startLine := lineNumber;
       endLine := lineNumber;
       startColumn := indexOfPlus1 (group' 1 m) line;
       endColumn := String.length line + 1;
       definition := trim line;
       docstring := None;
       modifiers := extractModifiers line |})
  ++ pushIf methodMatch (isInsideClass lines i) (fun m =>
    {| name := group' 1 m; type := TMethod;
       startLine := lineNumber;
       endLine := findEndLine lines i "{" "}";
       startColumn := indexOfPlus1 (group' 1 m) line;
       endColumn := String.length line + 1;
       definition := getDefinition lines i;
       docstring := None;
       modifiers := extractModifiers line |}).

(** [for (let i = 0; i < lines.length; i++) { ... symbols.push(...) ... }] *)
Definition eachLine {A : Type} (body : list string -> nat -> string -> list A)
  (lines : list string) : list A :=
  flat_map (fun il => body lines (fst il) (snd il)) (indexed lines).

Definition parseJavaScriptSymbols (content : option string)
  : result (list ParsedSymbol) :=
  lines <- splitLines content ;;
  Ok (eachLine javaScriptSymbolsAt lines).

(** The body of the loop of [parsePythonSymbols] at index [i]. *)
Definition pythonSymbolsAt (lines : list string) (i : nat) (line : string)
  : list ParsedSymbol :=
  let lineNumber := i + 1 in
  let functionMatch := jsMatch pyFunctionRe line in
  let classMatch := jsMatch pyClassRe line in
  let varMatch := jsMatch pyVarRe line in
  pushIf functionMatch true (fun m =>
    let indent := String.length (group' 1 m) in
    {| name := group' 2 m; type := TFunction;
       startLine := lineNumber;
       endLine := findPythonBlockEnd lines i indent;
       startColumn := indexOfPlus1 "def" line;
       endColumn := String.length line + 1;
       definition := getDefinition lines i;
       docstring := extractPythonDocstring lines (i + 1);
       modifiers := extractPythonDecorators lines i |})
  ++ pushIf classMatch true (fun m =>
    let indent := String.length (group' 1 m) in
    {| name := group' 2 m; type := TClass;
       startLine := lineNumber;
       endLine := findPythonBlockEnd lines i indent;
       startColumn := indexOfPlus1 "class" line;
       endColumn := String.length line + 1;
       definition := getDefinition lines i;
       docstring := extractPythonDocstring lines (i + 1);
       modifiers := extractPythonDecorators lines i |})
  ++ pushIf varMatch
       (negb (includes "def " line) && negb (includes "class " line)) (fun m =>
    {| name := group' 1 m; type := TVariable;
       startLine := lineNumber;
       endLine := lineNumber;
       startColumn := 1;
       endColumn := String.length line + 1;
       definition := trim line;
       docstring := None;
       modifiers := [] |}).

Definition parsePythonSymbols (content : option string)
  : result (list ParsedSymbol) :=
  lines <- splitLines content ;;
  Ok (eachLine pythonSymbolsAt lines).

(** The body of the loop of [parseJavaSymbols] at index [i]. *)
Definition javaSymbolsAt (lines : list string) (i : nat) (line : string)
  : list ParsedSymbol :=
  let lineNumber := i + 1 in
  let classMatch := jsMatch javaClassRe line in
  let methodMatch := jsMatch javaMethodRe line in
  let interfaceMatch := jsMatch javaInterfaceRe line in
  pushIf classMatch true (fun m =>
    {| name := group' 1 m; type := TClass;
       startLine := lineNumber;
       endLine := findEndLine lines i "{" "}";
       startColumn := indexOfPlus1 "class" line;
       endColumn := String.length line + 1;
       definition := getDefinition lines i;
       docstring := None;
       modifiers := extractJavaModifiers line |})
  ++ pushIf methodMatch (negb (includes "class " line)) (fun m =>
    {| name := group' 1 m; type := TMethod;
       startLine := lineNumber;
       endLine := findEndLine lines i "{" "}";
       startColumn := indexOfPlus1 (group' 1 m) line;
       endColumn := String.length line + 1;
       definition := getDefinition lines i;
       docstring := None;
       modifiers := extractJavaModifiers line |})
  ++ pushIf interfaceMatch true (fun m =>
    {| name := group' 1 m; type := TInterface;
       startLine := lineNumber;
       endLine := findEndLine lines i "{" "}";
       startColumn := indexOfPlus1 "interface" line;
       endColumn := String.length line + 1;
       definition := getDefinition lines i;
       docstring := None;
       modifiers := extractJavaModifiers line |}).

Definition parseJavaSymbols (content : option string)
  : result (list ParsedSymbol) :=
  lines <- splitLines content ;;
  Ok (eachLine javaSymbolsAt lines).

(** The body of the loop of [parseCppSymbols] at index [i]. *)
Definition cppSymbolsAt (lines : list string) (i : nat) (line : string)
  : list ParsedSymbol :=
  let lineNumber := i + 1 in
  let functionMatch := jsMatch cppFunctionRe line in
  let classMatch := jsMatch cppClassRe line in
  let structMatch := jsMatch cppStructRe line in
  pushIf functionMatch
       (negb (includes "class " line) && negb (includes "struct " line)) (fun m =>
    {| name := group' 1 m; type := TFunction;
       startLine := lineNumber;
       endLine := orElse (findEndLine lines i "{" "}") lineNumber;
       startColumn := indexOfPlus1 (group' 1 m) line;
       endColumn := String.length line + 1;
       definition := getDefinition lines i;
       docstring := None;
       modifiers := extractCppModifiers line |})
  ++ pushIf classMatch true (fun m =>
    {| name := group' 1 m; type := TClass;
       startLine := lineNumber;
       endLine := findEndLine lines i "{" "}";
       startColumn := indexOfPlus1 "class" line;
       endColumn := String.length line + 1;
       definition := getDefinition lines i;
       docstring := None;
       modifiers := extractCppModifiers line |})
  ++ pushIf structMatch true (fun m =>
    {| name := group' 1 m; type := TClass;
       startLine := lineNumber;
       endLine := findEndLine lines i "{" "}";
       startColumn := indexOfPlus1 "struct" line;
       endColumn := String.length line + 1;
       definition := getDefinition lines i;
       docstring := None;
       modifiers := extractCppModifiers line |}).

Definition parseCppSymbols (content : option string)
  : result (list ParsedSymbol) :=
  lines <- splitLines content ;;
  Ok (eachLine cppSymbolsAt lines).

(** [!content]: [null], [undefined] and the empty string are falsy. *)
Definition falsy (content : option string) : bool :=
  match content with
  | None => true
  | Some text => isEmpty text
  end.

Definition parseSymbols (content : option string) (language : string)
  : result (list ParsedSymbol) :=
  if falsy content then Ok []
  else if String.eqb language "javascript" || String.eqb language "typescript"
  then parseJavaScriptSymbols content
  else if String.eqb language "python" then parsePythonSymbols content
  else if String.eqb language "java" then parseJavaSymbols content
  else if String.eqb language "cpp" || String.eqb language "c"
  then parseCppSymbols content
  else Ok [].

(** *** The patterns of the dependency extractors *)

(** [import], an optional clause before [from], and the quoted path. *)
Definition jsImportRe : regex :=
  seqs [lit "import"; plus ws;
        opt (seqs [RGroup 1 (lazyPlus dot); plus ws; lit "from"; plus ws]);
        quote; RGroup 2 (lazyStar dot); quote; opt (chr ";")].

(** A declaration bound to [require(...)] of a quoted path. *)
Definition jsRequireRe : regex :=
  seqs [declKeyword; plus ws; RGroup 1 (lazyPlus dot); star ws; chr "=";
        star ws; lit "require"; star ws; chr "("; star ws; quote;
        RGroup 2 (lazyStar dot); opt quote; star ws; chr ")"].

(** A brace-enclosed, non-empty list. *)
Definition bracesRe : regex :=
  seqs [chr "{"; RGroup 1 (plus (notCls (Ascii.eqb "}"))); chr "}"].

(** A dotted name: a letter or underscore, then word characters and dots. *)
Definition dotted : regex :=
  RSeq (cls idStart) (star (cls (fun c => isWord c || Ascii.eqb c "."))).

Definition pyImportRe : regex :=
  seqs [RBol false; lit "import"; plus ws; RGroup 1 dotted;
        opt (seqs [plus ws; lit "as"; plus ws; RGroup 2 cIdent])].

Definition pyFromImportRe : regex :=
  seqs [RBol false; lit "from"; plus ws; RGroup 1 dotted; plus ws; lit "import";
        plus ws; RGroup 2 (plus dot)].

Definition javaImportRe : regex :=
  seqs [RBol false; lit "import"; plus ws; kw "static";
        RGroup 1 (RSeq dotted (opt (lit ".*"))); opt (chr ";")].

(** The [package] declaration, searched with the [m] flag. *)
Definition javaPackageRe : regex :=
  seqs [RBol true; lit "package"; plus ws; RGroup 1 dotted; opt (chr ";")].

(** *** Dependency extraction *)

(** [!importPath.startsWith('.') && !importPath.startsWith('/')] *)
Definition jsIsExternal (importPath : string) : bool :=
  negb (startsWith "." importPath) && negb (startsWith "/" importPath).

(** [list.split(',').map(s => s.trim().split(' as ')[0])] *)
Definition namesWithoutAlias (names : string) : list string :=
  map (fun s => beforeFirst " as " (trim s)) (split "," names).

Definition jsImportSymbols (clause : option string) : list string :=
  match clause with
  | None => []
  | Some c =>
      if isEmpty c then []
      else
        let importClause := trim c in
        if includes "{" importClause then
          match jsMatch bracesRe importClause with
          | Some namedImports => namesWithoutAlias (group' 1 namedImports)
          | None => []
          end
        else if negb (includes "*" importClause) then [importClause]
        else []
  end.

Definition jsRequireSymbols (captured : string) : list string :=
  let varPart := trim captured in
  if includes "{" varPart then
    match jsMatch bracesRe varPart with
    | Some destructured => map trim (split "," (group' 1 destructured))
    | None => []
    end
  else [varPart].

(** The body of the loop of [parseJavaScriptDependencies] for one line. *)
Definition javaScriptDependenciesAt (line : string) : list ParsedDependency :=
  let importMatch := jsMatch jsImportRe line in
  let requireMatch := jsMatch jsRequireRe line in
  pushIf importMatch true (fun m =>
    let importPath := group' 2 m in
    {| importPath := importPath;
       importType := ByImport;
       isExternal := jsIsExternal importPath;
       symbols := jsImportSymbols (group 1 m) |})
  ++ pushIf requireMatch true (fun m =>
    let importPath := group' 2 m in
    {| importPath := importPath;
       importType := ByRequire;
       isExternal := jsIsExternal importPath;
       symbols := jsRequireSymbols (group' 1 m) |}).

Definition parseJavaScriptDependencies (content : option string)
  : result (list ParsedDependency) :=
  lines <- splitLines content ;;
  Ok (flat_map javaScriptDependenciesAt lines).

(** [path.split('.').pop() || path] *)
Definition lastSegment (importPath : string) : string :=
  let seg := afterLast "." importPath in
  if isEmpty seg then importPath else seg.

(** The body of the loop of [parsePythonDependencies] for one line. *)
Definition pythonDependenciesAt (line : string) : list ParsedDependency :=
  let importMatch := jsMatch pyImportRe line in
  let fromImportMatch := jsMatch pyFromImportRe line in
  pushIf importMatch true (fun m =>
    let importPath := group' 1 m in
    let alias := group 2 m in
    {| importPath := importPath;
       importType := ByImport;
       isExternal := negb (startsWith "." importPath);
       symbols := match alias with
                  | Some a => if isEmpty a then [lastSegment importPath] else [a]
                  | None => [lastSegment importPath]
                  end |})
  ++ pushIf fromImportMatch true (fun m =>
    let importPath := group' 1 m in
    let importedItems := group' 2 m in
    {| importPath := importPath;
       importType := ByImport;
       isExternal := negb (startsWith "." importPath);
       symbols := if includes "," importedItems
                  then namesWithoutAlias importedItems
                  else [beforeFirst " as " (trim importedItems)] |}).

Definition parsePythonDependencies (content : option string)
  : result (list ParsedDependency) :=
  lines <- splitLines content ;;
  Ok (flat_map pythonDependenciesAt lines).

Definition getCurrentPackage (content : string) : string :=
  match jsMatch javaPackageRe content with
  | Some packageMatch => group' 1 packageMatch
  | None => EmptyString
  end.

(** The body of the loop of [parseJavaDependencies] for one line. *)
Definition javaDependenciesAt (content : string) (line : string)
  : list ParsedDependency :=
  let importMatch := jsMatch javaImportRe line in
  pushIf importMatch true (fun m =>
    let importPath := group' 1 m in
    {| importPath := importPath;
       importType := ByImport;
       isExternal := negb (startsWith (getCurrentPackage content) importPath);
       symbols := if endsWith ".*" importPath then ["*"]
                  else [lastSegment importPath] |}).

Definition parseJavaDependencies (content : option string)
  : result (list ParsedDependency) :=
  lines <- splitLines content ;;
  match content with
  | Some text => Ok (flat_map (javaDependenciesAt text) lines)
  | None => Throw TypeError
  end.

(** The [filePath] argument is not read. *)
Definition parseDependencies (content : option string) (language : string)
  (filePath : string) : result (list ParsedDependency) :=
  if String.eqb language "javascript" || String.eqb language "typescript"
  then parseJavaScriptDependencies content
  else if String.eqb language "python" then parsePythonDependencies content
  else if String.eqb language "java" then parseJavaDependencies content
  else Ok [].

(** [path.extname(filePath).toLowerCase()]: from the last dot of the last
    path segment, empty when there is none or when the segment starts with
    its only dot. *)
Definition extname (filePath : string) : string :=
  let base := afterLast "/" filePath in
  match split "." base with
  | [] | [_] => EmptyString
  | first :: rest =>
      if (isEmpty first && (List.length rest =? 1)) || String.eqb base ".."
      then EmptyString
      else String "." (last rest EmptyString)
  end.

Definition languageMap : list (string * string) :=
  [(".js", "javascript"); (".jsx", "javascript"); (".ts", "typescript");
   (".tsx", "typescript"); (".py", "python"); (".pyw", "python");
   (".java", "java"); (".cpp", "cpp"); (".cxx", "cpp"); (".cc", "cpp");
   (".c", "c"); (".h", "c"); (".hpp", "cpp"); (".cs", "csharp");
   (".php", "php"); (".rb", "ruby"); (".go", "go"); (".rs", "rust");
   (".swift", "swift"); (".kt", "kotlin"); (".scala", "scala");
   (".clj", "clojure"); (".json", "json"); (".yaml", "yaml");
   (".yml", "yaml"); (".xml", "xml"); (".html", "html"); (".css", "css");
   (".scss", "scss"); (".md", "markdown")].

Fixpoint assoc (key : string) (table : list (string * string)) : option string :=
  match table with
  | [] => None
  | (k, v) :: table' => if String.eqb key k then Some v else assoc key table'
  end.

Definition detectLanguage (filePath : string) : string :=
  let ext := toLowerCase (extname filePath) in
  match assoc ext languageMap with
  | Some language => language
  | None => "unknown"
  end.

End LanguageParser.

(* ================================================================== *)
(** ** src/database/DatabaseManager.ts

    The SQLite database is modelled by its four tables, each a list of rows
    in insertion (rowid) order, and by the state of its connection.

    Every [id] column is [INTEGER PRIMARY KEY AUTOINCREMENT]: a new row gets
    an id larger than any id the table ever held, which the [next...Id]
    counters record.

    The schema of [createTables] declares the [FOREIGN KEY ... ON DELETE
    CASCADE] clauses listed at [cascadeDelete].  SQLite enforces foreign keys
    (the checks on insertion and the actions on deletion) only on a
    connection where [PRAGMA foreign_keys = ON] has been executed; on a new
    connection enforcement is off.  [foreignKeys] is that setting.  The
    operations below read it and none of them changes it: [initialize] opens
    the connection and creates the tables without executing the pragma. *)
(* ================================================================== *)

Module DatabaseManager.
Import JsString.

Module File.
Record t : Type := {
  id : nat;
  path : string;
  content : string;
  hash : string;
  size : nat;
  language : string;
  lastModified : nat;         (* milliseconds, as [Date.getTime] *)
  indexedAt : nat             (* [CURRENT_TIMESTAMP] at the last write *)
}.
End File.

(** [Omit<FileRecord, 'id' | 'indexedAt'>] *)
Module FileInput.
Record t : Type := {
  path : string;
  content : string;
  hash : string;
  size : nat;
  language : string;
  lastModified : nat
}.
End FileInput.

Module Symbol.
Record t : Type := {
  id : nat;
  fileId : nat;
  name : string;
  type : LanguageParser.SymbolType;
  startLine : nat;
  endLine : nat;
  startColumn : nat;
  endColumn : nat;
  definition : string;
  docstring : option string;
  modifiers : list string
}.
End Symbol.

Inductive ChunkType : Type := Code | Comment | Docstring.

(** The metadata object that the indexer stores with a chunk. *)
Record Metadata : Type := {
  metaLanguage : string;
  metaStartLine : nat;
  metaEndLine : nat;
  metaType : ChunkType
}.

Module Embedding.
Record t : Type := {
  id : nat;
  fileId : nat;
  symbolId : option nat;
  chunkIndex : nat;
  content : string;
  embedding : list float;     (* the elements of the Float32Array *)
  metadata : Metadata
}.
End Embedding.

Module Dependency.
Record t : Type := {
  id : nat;
  sourceFileId : nat;
  targetFileId : option nat;
  importPath : string;
  importType : LanguageParser.ImportType;
  isExternal : bool;
  symbols : list string
}.
End Dependency.

Record Db : Type := {
  foreignKeys : bool;
  files : list File.t;
  symbols : list Symbol.t;
  embeddings : list Embedding.t;
  dependencies : list Dependency.t;
  nextFileId : nat;
  nextSymbolId : nat;
  nextEmbeddingId : nat;
  nextDependencyId : nat
}.

(** [initialize]: a new connection to an empty database file, and the
    tables of [createTables]. *)
Definition initialize : Db :=
  {| foreignKeys := false;
     files := []; symbols := []; embeddings := []; dependencies := [];
     nextFileId := 1; nextSymbolId := 1; nextEmbeddingId := 1;
     nextDependencyId := 1 |}.

Definition memNat (n : nat) (l : list nat) : bool := existsb (Nat.eqb n) l.

Definition memOpt (o : option nat) (l : list nat) : bool :=
  match o with Some n => memNat n l | None => false end.

(** [value || null] for a row id: [undefined] and [0] are stored as NULL. *)
Definition orNull (o : option nat) : option nat :=
  match o with
  | Some 0 => None
  | other => other
  end.

(** [value || null] for a string: [undefined] and [''] are stored as NULL. *)
Definition orNullString (o : option string) : option string :=
  match o with
  | Some s => if isEmpty s then None else Some s
  | None => None
  end.

Definition fileExists (db : Db) (fileId : nat) : bool :=
  existsb (fun f => File.id f =? fileId) (files db).

Definition symbolExists (db : Db) (symbolId : nat) : bool :=
  existsb (fun s => Symbol.id s =? symbolId) (symbols db).

(** *** File operations *)

Definition getFile (path : string) (db : Db) : option File.t :=
  find (fun f => String.eqb (File.path f) path) (files db).

Definition updateRow (file : FileInput.t) (now : nat) (row : File.t) : File.t :=
  if String.eqb (File.path row) (FileInput.path file) then
    {| File.id := File.id row;
       File.path := File.path row;
       File.content := FileInput.content file;
       File.hash := FileInput.hash file;
       File.size := FileInput.size file;
       File.language := FileInput.language file;
       File.lastModified := FileInput.lastModified file;
       File.indexedAt := now |}
  else row.

(** [insertFile]: an UPDATE of the row with this path when there is one,
    an INSERT otherwise; [now] is [CURRENT_TIMESTAMP]. *)
Definition insertFile (file : FileInput.t) (now : nat) (db : Db) : nat * Db :=
  match getFile (FileInput.path file) db with
  | Some row =>
      (File.id row,
       {| foreignKeys := foreignKeys db;
          files := map (updateRow file now) (files db);
          symbols := symbols db; embeddings := embeddings db;
          dependencies := dependencies db;
          nextFileId := nextFileId db; nextSymbolId := nextSymbolId db;
          nextEmbeddingId := nextEmbeddingId db;
          nextDependencyId := nextDependencyId db |})
  | None =>
      let row :=
        {| File.id := nextFileId db;
           File.path := FileInput.path file;
           File.content := FileInput.content file;
           File.hash := FileInput.hash file;
           File.size := FileInput.size file;
           File.language := FileInput.language file;
           File.lastModified := FileInput.lastModified file;
           File.indexedAt := now |} in
      (nextFileId db,
       {| foreignKeys := foreignKeys db;
          files := files db ++ [row];
          symbols := symbols db; embeddings := embeddings db;
          dependencies := dependencies db;
          nextFileId := S (nextFileId db); nextSymbolId := nextSymbolId db;
          nextEmbeddingId := nextEmbeddingId db;
          nextDependencyId := nextDependencyId db |})
  end.

(** [SELECT * FROM files ORDER BY path] *)
Definition getAllFiles (db : Db) : list File.t :=
  stableSort (fun x y => String.ltb (File.path x) (File.path y)) (files db).

(** The rows that the declared [ON DELETE CASCADE] clauses remove when the
    files [gone] are deleted:
      - [symbols.file_id],
      - [embeddings.file_id] and [embeddings.symbol_id],
      - [dependencies.source_file_id] and [dependencies.target_file_id]. *)
Definition cascadeDelete (gone : list nat) (db : Db) : Db :=
  let goneSymbols :=
    map Symbol.id (filter (fun s => memNat (Symbol.fileId s) gone) (symbols db)) in
  {| foreignKeys := foreignKeys db;
     files := files db;
     symbols := filter (fun s => negb (memNat (Symbol.fileId s) gone)) (symbols db);
     embeddings :=
       filter (fun e => negb (memNat (Embedding.fileId e) gone
                              || memOpt (Embedding.symbolId e) goneSymbols))
              (embeddings db);
     dependencies :=
       filter (fun d => negb (memNat (Dependency.sourceFileId d) gone
                              || memOpt (Dependency.targetFileId d) gone))
              (dependencies db);
     nextFileId := nextFileId db; nextSymbolId := nextSymbolId db;
     nextEmbeddingId := nextEmbeddingId db;
     nextDependencyId := nextDependencyId db |}.

(** [DELETE FROM files WHERE path = ?] *)
Definition deleteFile (path : string) (db : Db) : Db :=
  let gone :=
    map File.id (filter (fun f => String.eqb (File.path f) path) (files db)) in
  let db' :=
    {| foreignKeys := foreignKeys db;
       files := filter (fun f => negb (String.eqb (File.path f) path)) (files db);
       symbols := symbols db; embeddings := embeddings db;
       dependencies := dependencies db;
       nextFileId := nextFileId db; nextSymbolId := nextSymbolId db;
       nextEmbeddingId := nextEmbeddingId db;
       nextDependencyId := nextDependencyId db |} in
  if foreignKeys db then cascadeDelete gone db' else db'.

Definition setSymbols (rows : list Symbol.t) (next : nat) (db : Db) : Db :=
  {| foreignKeys := foreignKeys db;
     files := files db; symbols := rows; embeddings := embeddings db;
     dependencies := dependencies db;
     nextFileId := nextFileId db; nextSymbolId := next;
     nextEmbeddingId := nextEmbeddingId db;
     nextDependencyId := nextDependencyId db |}.

Definition setEmbeddings (rows : list Embedding.t) (next : nat) (db : Db) : Db :=
  {| foreignKeys := foreignKeys db;
     files := files db; symbols := symbols db; embeddings := rows;
     dependencies := dependencies db;
     nextFileId := nextFileId db; nextSymbolId := nextSymbolId db;
     nextEmbeddingId := next;
     nextDependencyId := nextDependencyId db |}.

Definition setDependencies (rows : list Dependency.t) (next : nat) (db : Db) : Db :=
  {| foreignKeys := foreignKeys db;
     files := files db; symbols := symbols db; embeddings := embeddings db;
     dependencies := rows;
     nextFileId := nextFileId db; nextSymbolId := nextSymbolId db;
     nextEmbeddingId := nextEmbeddingId db;
     nextDependencyId := next |}.

(** *** Symbol operations *)

(** [insertSymbol({ ...symbol, fileId })].  Under foreign-key enforcement
    the insertion of a row without its parent is refused. *)
Definition insertSymbol (fileId : nat) (symbol : LanguageParser.ParsedSymbol)
  (db : Db) : result (nat * Db) :=
  if foreignKeys db && negb (fileExists db fileId) then Throw StoreError
  else
    let row :=
      {| Symbol.id := nextSymbolId db;
         Symbol.fileId := fileId;
         Symbol.name := LanguageParser.name symbol;
         Symbol.type := LanguageParser.type symbol;
         Symbol.startLine := LanguageParser.startLine symbol;
         Symbol.endLine := LanguageParser.endLine symbol;
         Symbol.startColumn := LanguageParser.startColumn symbol;
         Symbol.endColumn := LanguageParser.endColumn symbol;
         Symbol.definition := LanguageParser.definition symbol;
         Symbol.docstring := orNullString (LanguageParser.docstring symbol);
         Symbol.modifiers := LanguageParser.modifiers symbol |} in
    Ok (nextSymbolId db,
        setSymbols (symbols db ++ [row]) (S (nextSymbolId db)) db).

(** [SELECT * FROM symbols WHERE file_id = ? ORDER BY start_line] *)
Definition getSymbolsByFile (fileId : nat) (db : Db) : list Symbol.t :=
  stableSort (fun x y => Symbol.startLine x <? Symbol.startLine y)
    (filter (fun s => Symbol.fileId s =? fileId) (symbols db)).

Definition symbolTypeEqb (a b : LanguageParser.SymbolType) : bool :=
  match a, b with
  | LanguageParser.TFunction, LanguageParser.TFunction
  | LanguageParser.TClass, LanguageParser.TClass
  | LanguageParser.TVariable, LanguageParser.TVariable
  | LanguageParser.TInterface, LanguageParser.TInterface
  | LanguageParser.TType, LanguageParser.TType
  | LanguageParser.TMethod, LanguageParser.TMethod
  | LanguageParser.TProperty, LanguageParser.TProperty => true
  | _, _ => false
  end.

(** [... WHERE name = ? (AND type = ?) ORDER BY file_id, start_line] *)
Definition findSymbolsByName (name : string)
  (type : option LanguageParser.SymbolType) (db : Db) : list Symbol.t :=
  stableSort
    (fun x y =>
       (Symbol.fileId x <? Symbol.fileId y)
       || ((Symbol.fileId x =? Symbol.fileId y)
           && (Symbol.startLine x <? Symbol.startLine y)))
    (filter
       (fun s =>
          String.eqb (Symbol.name s) name
          && match type with
             | Some t => symbolTypeEqb (Symbol.type s) t
             | None => true
             end)
       (symbols db)).

(** [DELETE FROM symbols WHERE file_id = ?]; under enforcement the
    embeddings that refer to a deleted symbol go with it. *)
Definition clearSymbolsByFile (fileId : nat) (db : Db) : Db :=
  let goneSymbols :=
    map Symbol.id (filter (fun s => Symbol.fileId s =? fileId) (symbols db)) in
  let db' :=
    setSymbols (filter (fun s => negb (Symbol.fileId s =? fileId)) (symbols db))
      (nextSymbolId db) db in
  if foreignKeys db then
    setEmbeddings
      (filter (fun e => negb (memOpt (Embedding.symbolId e) goneSymbols))
         (embeddings db'))
      (nextEmbeddingId db') db'
  else db'.

(** *** Embedding operations *)

Definition insertEmbedding (fileId : nat) (symbolId : option nat)
  (chunkIndex : nat) (content : string) (embedding : list float)
  (metadata : Metadata) (db : Db) : result (nat * Db) :=
  if foreignKeys db
     && (negb (fileExists db fileId)
         || match orNull symbolId with
            | Some sid => negb (symbolExists db sid)
            | None => false
            end)
  then Throw StoreError
  else
    let row :=
      {| Embedding.id := nextEmbeddingId db;
         Embedding.fileId := fileId;
         Embedding.symbolId := orNull symbolId;
         Embedding.chunkIndex := chunkIndex;
         Embedding.content := content;
         Embedding.embedding := embedding;
         Embedding.metadata := metadata |} in
    Ok (nextEmbeddingId db,
        setEmbeddings (embeddings db ++ [row]) (S (nextEmbeddingId db)) db).

(** [SELECT * FROM embeddings WHERE file_id = ? ORDER BY chunk_index] *)
Definition getEmbeddingsByFile (fileId : nat) (db : Db) : list Embedding.t :=
  stableSort (fun x y => Embedding.chunkIndex x <? Embedding.chunkIndex y)
    (filter (fun e => Embedding.fileId e =? fileId) (embeddings db)).

Definition getAllEmbeddings (db : Db) : list Embedding.t := embeddings db.

Definition clearEmbeddingsByFile (fileId : nat) (db : Db) : Db :=
  setEmbeddings (filter (fun e => negb (Embedding.fileId e =? fileId)) (embeddings db))
    (nextEmbeddingId db) db.

(** *** Dependency operations *)

(** [insertDependency({ ...dependency, sourceFileId, targetFileId })] *)
Definition insertDependency (sourceFileId : nat) (targetFileId : option nat)
  (dependency : LanguageParser.ParsedDependency) (db : Db) : result (nat * Db) :=
  if foreignKeys db
     && (negb (fileExists db sourceFileId)
         || match orNull targetFileId with
            | Some tid => negb (fileExists db tid)
            | None => false
            end)
  then Throw StoreError
  else
    let row :=
      {| Dependency.id := nextDependencyId db;
         Dependency.sourceFileId := sourceFileId;
         Dependency.targetFileId := orNull targetFileId;
         Dependency.importPath := LanguageParser.importPath dependency;
         Dependency.importType := LanguageParser.importType dependency;
         Dependency.isExternal := LanguageParser.isExternal dependency;
         Dependency.symbols := LanguageParser.symbols dependency |} in
    Ok (nextDependencyId db,
        setDependencies (dependencies db ++ [row]) (S (nextDependencyId db)) db).

(** [SELECT * FROM dependencies WHERE source_file_id = ?] *)
Definition getDependenciesByFile (fileId : nat) (db : Db) : list Dependency.t :=
  filter (fun d => Dependency.sourceFileId d =? fileId) (dependencies db).

Definition clearDependenciesByFile (fileId : nat) (db : Db) : Db :=
  setDependencies
    (filter (fun d => negb (Dependency.sourceFileId d =? fileId)) (dependencies db))
    (nextDependencyId db) db.

End DatabaseManager.

(* ================================================================== *)
(** ** src/embeddings/EmbeddingGenerator.ts

    Numbers are IEEE-754 doubles ([float]).  [Math.log] and [Math.sin],
    which the language leaves to the implementation, and the rounding of a
    double to the nearest single on a store into a [Float32Array] are
    functions given to the model; the remote embedding service is a function
    that may fail. *)
(* ================================================================== *)

Module EmbeddingGenerator.
Import JsString.

Definition two31 : Z := 2147483648%Z.
Definition two32 : Z := 4294967296%Z.

(** [ToInt32]: the value of a bitwise operation. *)
Definition toInt32 (z : Z) : Z := (((z + two31) mod two32) - two31)%Z.

(** The exact double of a non-negative integer below [2^53]. *)
Definition floatOfZ (z : Z) : float := PrimFloat.of_uint63 (Uint63.of_Z z).

Definition hashStep (hash : Z) (char : ascii) : Z :=
  let shifted := toInt32 (toInt32 hash * 32) in            (* hash << 5 *)
  let sum := (shifted - hash + Z.of_nat (code char))%Z in
  toInt32 sum.                                             (* hash & hash *)

Fixpoint hashFrom (str : string) (hash : Z) : Z :=
  match str with
  | EmptyString => hash
  | String char str' => hashFrom str' (hashStep hash char)
  end.

Definition hashString (str : string) : Z := Z.abs (hashFrom str 0%Z).

(** [s.split(/\s+/)] *)
Fixpoint splitSpaces (s : string) (inGap : bool) : list string :=
  match s with
  | EmptyString => [EmptyString]
  | String c s' =>
      if isSpace c then
        if inGap then splitSpaces s' true
        else EmptyString :: splitSpaces s' true
      else match splitSpaces s' false with
           | [] => [String c EmptyString]
           | h :: t => String c h :: t
           end
  end.

Definition tokenize (text : string) : list string :=
  firstn 1000
    (filter (fun word => 1 <? String.length word)
       (splitSpaces
          (mapChars (fun c => if isWord c || isSpace c then c else " "%char)
             (toLowerCase text))
          false)).

(** [wordCounts.set(word, (wordCounts.get(word) || 0) + 1)] on a [Map],
    which keeps its keys in the order of their first insertion. *)
Fixpoint countWord (word : string) (wordCounts : list (string * nat))
  : list (string * nat) :=
  match wordCounts with
  | [] => [(word, 1)]
  | (w, count) :: rest =>
      if String.eqb w word then (w, count + 1) :: rest
      else (w, count) :: countWord word rest
  end.

Definition countWords (words : list string) : list (string * nat) :=
  fold_left (fun wordCounts word => countWord word wordCounts) words [].

(** [a[index] = f(a[index])]; a store outside the array does nothing. *)
Fixpoint updateAt (index : nat) (f : float -> float) (a : list float)
  : list float :=
  match a, index with
  | [], _ => []
  | x :: a', 0 => f x :: a'
  | x :: a', S index' => x :: updateAt index' f a'
  end.

Section Generator.
Variable Math_log : float -> float.
Variable Math_sin : float -> float.
Variable fround : float -> float.

(** The constructor: [options.dimensions || 1536]. *)
Variable options_dimensions : option nat.

Definition dimensions : nat :=
  match options_dimensions with
  | Some 0 | None => 1536
  | Some d => d
  end.

(** The three stores for one entry of [wordCounts]. *)
Definition scatter (embedding : list float) (entry : string * nat)
  : list float :=
  let '(word, count) := entry in
  let hash := hashString word in
  fold_left
    (fun emb i =>
       let index := Z.to_nat ((hash + Z.of_nat i * 17) mod Z.of_nat dimensions) in
       let value :=
         PrimFloat.mul
           (Math_log (floatOfZ (1 + Z.of_nat count)))
           (Math_sin (floatOfZ (hash * (Z.of_nat i + 1)))) in
       updateAt index (fun old => fround (PrimFloat.add old value)) emb)
    [0; 1; 2] embedding.

Definition sumSquares (embedding : list float) : float :=
  fold_left (fun sum val => PrimFloat.add sum (PrimFloat.mul val val))
    embedding PrimFloat.zero.

Definition generateLocalEmbedding (text : string) : list float :=
  let words := tokenize text in
  let wordCounts := countWords words in
  let embedding :=
    fold_left scatter wordCounts (repeat PrimFloat.zero dimensions) in
  let norm := PrimFloat.sqrt (sumSquares embedding) in
  if PrimFloat.ltb PrimFloat.zero norm then
    map (fun val => fround (PrimFloat.div val norm)) embedding
  else embedding.

(** [process.env.OPENAI_API_KEY || null] and the remote call. *)
Variable apiKey : option string.
Variable generateOpenAIEmbedding : string -> result (list float).

Definition hasApiKey : bool :=
  match apiKey with
  | Some key => negb (isEmpty key)
  | None => false
  end.

(** The remote service when there is a key, the local method otherwise
    and whenever the remote call throws. *)
Definition generateEmbedding (text : string) : list float :=
  if hasApiKey then
    match generateOpenAIEmbedding text with
    | Ok embedding => embedding
    | Throw _ => generateLocalEmbedding text
    end
  else generateLocalEmbedding text.
End Generator.

(** The three accumulators of the loop of [cosineSimilarity]. *)
Definition accumulate (acc : float * float * float) (xy : float * float)
  : float * float * float :=
  let '(dotProduct, normA, normB) := acc in
  let '(x, y) := xy in
  (PrimFloat.add dotProduct (PrimFloat.mul x y),
   PrimFloat.add normA (PrimFloat.mul x x),
   PrimFloat.add normB (PrimFloat.mul y y)).

Definition cosineSimilarity (a b : list float) : float :=
  if negb (List.length a =? List.length b) then PrimFloat.zero
  else
    let '(dotProduct, normA, normB) :=
      fold_left accumulate (combine a b)
        (PrimFloat.zero, PrimFloat.zero, PrimFloat.zero) in
    if PrimFloat.eqb normA PrimFloat.zero || PrimFloat.eqb normB PrimFloat.zero
    then PrimFloat.zero
    else PrimFloat.div dotProduct
           (PrimFloat.mul (PrimFloat.sqrt normA) (PrimFloat.sqrt normB)).

Definition euclideanDistance (a b : list float) : float :=
  if negb (List.length a =? List.length b) then PrimFloat.infinity
  else
    PrimFloat.sqrt
      (fold_left
         (fun sum xy =>
            let diff := PrimFloat.sub (fst xy) (snd xy) in
            PrimFloat.add sum (PrimFloat.mul diff diff))
         (combine a b) PrimFloat.zero).
End EmbeddingGenerator.

(* ================================================================== *)
(** ** Collaborators of the indexer: paths and the file system *)
(* ================================================================== *)

Module Path.
Import JsString.

Definition segments (p : string) : list string :=
  filter (fun seg => negb (isEmpty seg)) (split "/" p).

Fixpoint relativeSegments (from to : list string) : list string :=
  match from, to with
  | f :: from', t :: to' =>
      if String.eqb f t then relativeSegments from' to'
      else repeat ".." (List.length from) ++ to
  | _, _ => repeat ".." (List.length from) ++ to
  end.

(** [path.relative(from, to)] for absolute, normalised POSIX paths: the
    common leading directories are dropped, each remaining directory of
    [from] becomes [..]. *)
Definition relative (from to : string) : string :=
  join "/" (relativeSegments (segments from) (segments to)).
End Path.

Module Fs.
Record Stats : Type := {
  size : nat;                   (* bytes *)
  mtime : nat                   (* milliseconds *)
}.

Record Entry : Type := {
  text : string;
  stats : Stats
}.

(** The regular files of the tree, by absolute path. *)
Definition t : Type := list (string * Entry).

Fixpoint lookup (fs : t) (filePath : string) : option Entry :=
  match fs with
  | [] => None
  | (p, e) :: fs' => if String.eqb p filePath then Some e else lookup fs' filePath
  end.

(** [fs.promises.readFile(filePath, 'utf8')] *)
Definition readFile (fs : t) (filePath : string) : result string :=
  match lookup fs filePath with
  | Some e => Ok (text e)
  | None => Throw IoError
  end.

(** [fs.promises.stat(filePath)] *)
Definition stat (fs : t) (filePath : string) : result Stats :=
  match lookup fs filePath with
  | Some e => Ok (stats e)
  | None => Throw IoError
  end.
End Fs.

(** Database operations in sequence: an operation sees the state left by
    the ones before it, and what was written before an exception stays
    written. *)
Module Run.
Import DatabaseManager.

Definition M (A : Type) : Type := Db -> result A * Db.

Definition ret {A : Type} (a : A) : M A := fun db => (Ok a, db).

Definition bindM {A B : Type} (m : M A) (f : A -> M B) : M B :=
  fun db =>
    match m db with
    | (Ok a, db') => f a db'
    | (Throw e, db') => (Throw e, db')
    end.

(** A step that may throw and does not touch the database. *)
Definition pure {A : Type} (r : result A) : M A := fun db => (r, db).

(** A query. *)
Definition query {A : Type} (q : Db -> A) : M A := fun db => (Ok (q db), db).

(** A statement that cannot fail. *)
Definition exec (f : Db -> Db) : M unit := fun db => (Ok tt, f db).

(** An insertion: the id of the new row, or an error and no change. *)
Definition insert (f : Db -> result (nat * Db)) : M nat :=
  fun db =>
    match f db with
    | Ok (id, db') => (Ok id, db')
    | Throw e => (Throw e, db)
    end.

(** [for (const x of xs) { await body(x) }] *)
Fixpoint forEach {A : Type} (xs : list A) (body : A -> M unit) : M unit :=
  match xs with
  | [] => ret tt
  | x :: xs' => bindM (body x) (fun _ => forEach xs' body)
  end.

(** [try { m } catch (error) { }] *)
Definition swallow (m : M unit) : M unit :=
  fun db => (Ok tt, snd (m db)).
End Run.

Notation "x <-- m ;;; k" := (Run.bindM m (fun x => k))
  (at level 61, m at next level, right associativity).
Notation "m ;;; k" := (Run.bindM m (fun _ => k))
  (at level 61, right associativity).

(* ================================================================== *)
(** ** src/indexer/CodeIndexer.ts *)
(* ================================================================== *)

Module CodeIndexer.
Import JsString DatabaseManager Run.

Record Chunk : Type := {
  content : string;
  startLine : nat;
  endLine : nat;
  type : ChunkType;
  symbolId : option nat
}.

Definition maxChunkSize : nat := 500.

(** The variables of the loop of [splitIntoChunks]. *)
Record ChunkState : Type := {
  chunks : list Chunk;
  currentChunk : string;
  chunkStartLine : nat;
  currentLine : nat
}.

Definition codeChunk (text : string) (first last : nat) : Chunk :=
  {| content := trim text; startLine := first; endLine := last;
     type := Code; symbolId := None |}.

Definition chunkStep (st : ChunkState) (line : string) : ChunkState :=
  if (maxChunkSize <? String.length (currentChunk st) + String.length line)
     && (0 <? String.length (currentChunk st))
  then
    {| chunks := chunks st ++
                 [codeChunk (currentChunk st) (chunkStartLine st) (currentLine st - 1)];
       currentChunk := line;
       chunkStartLine := currentLine st;
       currentLine := currentLine st + 1 |}
  else
    {| chunks := chunks st;
       currentChunk :=
         String.append (currentChunk st)
           (String.append
              (if isEmpty (currentChunk st) then EmptyString
               else String "010" EmptyString)
              line);
       chunkStartLine := chunkStartLine st;
       currentLine := currentLine st + 1 |}.

Definition splitIntoChunks (text : string) (language : string) : list Chunk :=
  let st :=
    fold_left chunkStep (lines text)
      {| chunks := []; currentChunk := EmptyString;
         chunkStartLine := 1; currentLine := 1 |} in
  if negb (isEmpty (trim (currentChunk st))) then
    chunks st ++
    [codeChunk (currentChunk st) (chunkStartLine st) (currentLine st - 1)]
  else chunks st.

Section Indexer.
(** The world of one run: the file tree, [process.cwd()], the SHA-256
    digest in hexadecimal, the embedding provider, and what
    [findCodeFiles] returns for a root (the glob and the ignore rules). *)
Variable fs : Fs.t.
Variable cwd : string.
Variable sha256 : string -> string.
Variable generateEmbedding : string -> list float.
Variable findCodeFiles : string -> list string.

(** The body of the loop of [generateFileEmbeddings] for the chunk
    [chunks[i]]. *)
Definition storeChunk (fileId : nat) (language : string) (ic : nat * Chunk)
  : M unit :=
  let i := fst ic in
  let chunk := snd ic in
  let embedding := generateEmbedding (content chunk) in
  insert (insertEmbedding fileId (symbolId chunk) i (content chunk)
            embedding
            {| metaLanguage := language;
               metaStartLine := startLine chunk;
               metaEndLine := endLine chunk;
               metaType := type chunk |}) ;;;
  ret tt.

Definition generateFileEmbeddings (fileId : nat) (text : string)
  (language : string) : M unit :=
  swallow
    (forEach (indexed (splitIntoChunks text language))
       (storeChunk fileId language)).

(** [now] is the value of [CURRENT_TIMESTAMP] while the file is written. *)
Definition indexFile (filePath repoPath : string) (now : nat) : M unit :=
  let relativePath := Path.relative repoPath filePath in
  text <-- pure (Fs.readFile fs filePath) ;;;
  stats <-- pure (Fs.stat fs filePath) ;;;
  let hash := sha256 text in
  let language := LanguageParser.detectLanguage filePath in
  let fileRecord :=
    {| FileInput.path := relativePath;
       FileInput.content := text;
       FileInput.hash := hash;
       FileInput.size := Fs.size stats;
       FileInput.language := language;
       FileInput.lastModified := Fs.mtime stats |} in
  fileId <-- (fun db => let (id, db') := insertFile fileRecord now db in (Ok id, db')) ;;;
  exec (clearSymbolsByFile fileId) ;;;
  exec (clearDependenciesByFile fileId) ;;;
  exec (clearEmbeddingsByFile fileId) ;;;
  (if LanguageParser.isSupported language then
     symbols <-- pure (LanguageParser.parseSymbols (Some text) language) ;;;
     forEach symbols (fun symbol => insert (insertSymbol fileId symbol) ;;; ret tt) ;;;
     dependencies <--
       pure (LanguageParser.parseDependencies (Some text) language relativePath) ;;;
     forEach dependencies
       (fun dependency =>
          targetFileRecord <--
            query (getFile (LanguageParser.importPath dependency)) ;;;
          insert (insertDependency fileId (option_map File.id targetFileRecord)
                    dependency) ;;;
          ret tt)
   else ret tt) ;;;
  generateFileEmbeddings fileId text language.

Definition shouldProcessFile (filePath : string) (force : bool) (db : Db) : bool :=
  if force then true
  else
    match Fs.stat fs filePath with
    | Throw _ => false
    | Ok stats =>
        if 1024 * 1024 <? Fs.size stats then false
        else
          let relativePath := Path.relative cwd filePath in
          match getFile relativePath db with
          | Some existingFile =>
              if Fs.mtime stats <=? File.lastModified existingFile then false
              else true
          | None => true
          end
    end.

Record Counters : Type := {
  processed : nat;
  skipped : nat;
  errors : nat
}.

(** One turn of the loop of [indexRepository]. *)
Definition indexOne (repoPath : string) (force : bool) (clock : string -> nat)
  (st : Db * Counters) (filePath : string) : Db * Counters :=
  let (db, n) := st in
  if shouldProcessFile filePath force db then
    match indexFile filePath repoPath (clock filePath) db with
    | (Ok _, db') =>
        (db', {| processed := processed n + 1; skipped := skipped n;
                 errors := errors n |})
    | (Throw _, db') =>
        (db', {| processed := processed n; skipped := skipped n;
                 errors := errors n + 1 |})
    end
  else
    (db, {| processed := processed n; skipped := skipped n + 1;
            errors := errors n |}).

(** [clock filePath] is [CURRENT_TIMESTAMP] when [filePath] is written. *)
Definition indexRepository (repoPath : string) (force : bool)
  (clock : string -> nat) (db : Db) : Db * Counters :=
  fold_left (indexOne repoPath force clock) (findCodeFiles repoPath)
    (db, {| processed := 0; skipped := 0; errors := 0 |}).

Definition updateFile (filePath repoPath : string) (now : nat) : M unit :=
  indexFile filePath repoPath now.

Definition removeFile (filePath repoPath : string) (db : Db) : Db :=
  let relativePath := Path.relative repoPath filePath in
  deleteFile relativePath db.
End Indexer.
End CodeIndexer.

(* ================================================================== *)
(** ** src/search/SearchEngine.ts *)
(* ================================================================== *)

Module SearchEngine.
Import JsString DatabaseManager.

Record SearchOptions : Type := {
  limit : option Z;
  fileExtensions : option (list string);
  threshold : option float
}.

Record Match : Type := {
  start : nat;
  end_ : nat;
  text : string
}.

Record SearchResult : Type := {
  file : File.t;
  symbol : option Symbol.t;
  score : float;
  snippet : string;
  line : nat;
  matches : list Match
}.

Inductive ReferenceType : Type := Definition_ | Usage | ImportRef.

Record ReferenceResult : Type := {
  refFile : File.t;
  refLine : nat;
  refColumn : nat;
  refContext : string;
  refType : ReferenceType
}.

(** The private copy of the similarity function. *)
Definition cosineSimilarity (a b : list float) : float :=
  if negb (List.length a =? List.length b) then PrimFloat.zero
  else
    let '(dotProduct, normA, normB) :=
      fold_left EmbeddingGenerator.accumulate (combine a b)
        (PrimFloat.zero, PrimFloat.zero, PrimFloat.zero) in
    if PrimFloat.eqb normA PrimFloat.zero || PrimFloat.eqb normB PrimFloat.zero
    then PrimFloat.zero
    else PrimFloat.div dotProduct
           (PrimFloat.mul (PrimFloat.sqrt normA) (PrimFloat.sqrt normB)).

Definition getFileExtension (filePath : string) : string :=
  let parts := split "." filePath in
  if 1 <? List.length parts then String "." (last parts EmptyString)
  else EmptyString.

(** The successive results of [contentLower.indexOf(word, index + 1)]. *)
Fixpoint occurrences (word s : string) (i : nat) : list nat :=
  match s with
  | EmptyString => if startsWith word s then [i] else []
  | String _ s' =>
      if startsWith word s then i :: occurrences word s' (S i)
      else occurrences word s' (S i)
  end.

Definition findMatches (query content : string) : list Match :=
  let queryWords := EmbeddingGenerator.splitSpaces (toLowerCase query) false in
  let contentLower := toLowerCase content in
  stableSort (fun a b => start a <? start b)
    (flat_map
       (fun word =>
          if String.length word <? 2 then []
          else map (fun index =>
                      {| start := index;
                         end_ := index + String.length word;
                         text := substring index (index + String.length word) content |})
                   (occurrences word contentLower 0))
       queryWords).

(** [text.substring(0, n) + (text.length > n ? '...' : '')] *)
Definition excerpt (n : nat) (text : string) : string :=
  String.append (substring 0 n text)
    (if n <? String.length text then "..." else EmptyString).

(** [files.find(f => f.id === fileId)] over [getAllFiles()]; the cache of
    the loops only remembers its results. *)
Definition fileById (fileId : nat) (db : Db) : option File.t :=
  find (fun f => File.id f =? fileId) (getAllFiles db).

Section Engine.
Variable generateEmbedding : string -> list float.

(** A candidate of the ranking: an embedding row and its score. *)
Definition Scored : Type := (Embedding.t * float)%type.

(** [(a, b) => b.score - a.score] is negative. *)
Definition scoreBefore (a b : Scored) : bool :=
  PrimFloat.ltb (PrimFloat.sub (snd b) (snd a)) PrimFloat.zero.

(** [array.slice(0, end)] *)
Definition sliceTo {A : Type} (stop : Z) (l : list A) : list A :=
  if (stop <? 0)%Z
  then firstn (Z.to_nat (Z.max 0 (Z.of_nat (List.length l) + stop))) l
  else firstn (Z.to_nat stop) l.

Definition toResult (query : string) (file : File.t) (db : Db)
  (candidate : Scored) : SearchResult :=
  let (embedding, score) := candidate in
  {| file := file;
     symbol :=
       match Embedding.symbolId embedding with
       | Some 0 | None => None
       | Some symbolId =>
           find (fun s => Symbol.id s =? symbolId)
             (getSymbolsByFile (Embedding.fileId embedding) db)
       end;
     score := score;
     snippet := excerpt 200 (Embedding.content embedding);
     line := LanguageParser.orElse (metaStartLine (Embedding.metadata embedding)) 1;
     matches := findMatches query (Embedding.content embedding) |}.

(** The loop over the candidates, with its [continue]s and its [break]. *)
Fixpoint collect (query : string) (limit : Z)
  (fileExtensions : option (list string)) (db : Db)
  (candidates : list Scored) (results : list SearchResult)
  : list SearchResult :=
  match candidates with
  | [] => results
  | candidate :: rest =>
      match fileById (Embedding.fileId (fst candidate)) db with
      | None => collect query limit fileExtensions db rest results
      | Some file =>
          let wanted :=
            match fileExtensions with
            | Some (e :: es) =>
                existsb (String.eqb (getFileExtension (File.path file))) (e :: es)
            | _ => true
            end in
          if negb wanted then collect query limit fileExtensions db rest results
          else
            let results' := results ++ [toResult query file db candidate] in
            if (limit <=? Z.of_nat (List.length results'))%Z then results'
            else collect query limit fileExtensions db rest results'
      end
  end.

Definition defaultThreshold : float := 0x1.6666666666666p-1%float.  (* 0.7 *)

(** [embeddings.map(embedding => ({ embedding, score: ... }))] *)
Definition similarities (query : string) (db : Db) : list Scored :=
  let queryEmbedding := generateEmbedding query in
  map (fun embedding =>
         (embedding, cosineSimilarity queryEmbedding (Embedding.embedding embedding)))
      (getAllEmbeddings db).

(** [.filter(item => item.score >= threshold)] *)
Definition passing (threshold : float) (items : list Scored) : list Scored :=
  filter (fun item => PrimFloat.leb threshold (snd item)) items.

(** The candidates after the filter, the sort and the slice. *)
Definition ranked (query : string) (limit : Z) (threshold : float) (db : Db)
  : list Scored :=
  sliceTo (limit * 2)
    (stableSort scoreBefore (passing threshold (similarities query db))).

(** [const { limit = 10, fileExtensions, threshold = 0.7 } = options] *)
Definition limitOf (options : SearchOptions) : Z :=
  match limit options with Some n => n | None => 10%Z end.

Definition thresholdOf (options : SearchOptions) : float :=
  match threshold options with Some t => t | None => defaultThreshold end.

Definition searchCode (query : string) (options : SearchOptions) (db : Db)
  : list SearchResult :=
  collect query (limitOf options) (fileExtensions options) db
    (ranked query (limitOf options) (thresholdOf options) db) [].

(** A compiled regular expression with the [g] flag: from a line and a
    [lastIndex], the index of the next match and the new [lastIndex], or
    [None] for [null]. *)
Definition RegExp : Type := string -> nat -> option (nat * nat).

(** [new RegExp(`\\b${symbolName}\\b`, 'g')]: the expression that the
    name denotes as a pattern, or a [SyntaxError]. *)
Variable newRegExp : string -> result RegExp.

Definition definitionOf (file : File.t) (symbol : Symbol.t) : ReferenceResult :=
  {| refFile := file;
     refLine := Symbol.startLine symbol;
     refColumn := Symbol.startColumn symbol;
     refContext := excerpt 100 (Symbol.definition symbol);
     refType := Definition_ |}.

(** The first loop of [getReferences]. *)
Definition definitions (symbols : list Symbol.t) (filePath : option string)
  (db : Db) : list ReferenceResult :=
  flat_map
    (fun symbol =>
       match fileById (Symbol.fileId symbol) db with
       | None => []
       | Some file =>
           match filePath with
           | Some wanted =>
               if negb (isEmpty wanted) && negb (String.eqb (File.path file) wanted)
               then []
               else [definitionOf file symbol]
           | None => [definitionOf file symbol]
           end
       end)
    symbols.

Definition isDefinition (symbols : list Symbol.t) (file : File.t)
  (lineIndex : nat) : bool :=
  existsb
    (fun s =>
       (Symbol.fileId s =? File.id file)
       && (Symbol.startLine s <=? lineIndex + 1)
       && (lineIndex + 1 <=? Symbol.endLine s))
    symbols.

(** [while ((match = symbolRegex.exec(line)) !== null) { ... }]: [None]
    when the loop is still running after [fuel] turns. *)
Fixpoint usagesInLine (fuel : nat) (symbolRegex : RegExp)
  (symbols : list Symbol.t) (file : File.t) (lineIndex : nat) (line : string)
  (lastIndex : nat) (results : list ReferenceResult)
  : option (list ReferenceResult) :=
  match fuel with
  | 0 => None
  | S fuel' =>
      match symbolRegex line lastIndex with
      | None => Some results
      | Some (matchIndex, lastIndex') =>
          usagesInLine fuel' symbolRegex symbols file lineIndex line lastIndex'
            (if negb (isDefinition symbols file lineIndex) then
               results ++
               [{| refFile := file;
                   refLine := lineIndex + 1;
                   refColumn := matchIndex + 1;
                   refContext := trim line;
                   refType := Usage |}]
             else results)
      end
  end.

Fixpoint usagesInLines (fuel : nat) (symbolRegex : RegExp)
  (symbols : list Symbol.t) (file : File.t) (numbered : list (nat * string))
  (results : list ReferenceResult) : option (list ReferenceResult) :=
  match numbered with
  | [] => Some results
  | (lineIndex, line) :: rest =>
      match usagesInLine fuel symbolRegex symbols file lineIndex line 0 results with
      | None => None
      | Some results' =>
          usagesInLines fuel symbolRegex symbols file rest results'
      end
  end.

Fixpoint usagesInFiles (fuel : nat) (symbolRegex : RegExp)
  (symbols : list Symbol.t) (allFiles : list File.t)
  (results : list ReferenceResult) : option (list ReferenceResult) :=
  match allFiles with
  | [] => Some results
  | file :: rest =>
      match usagesInLines fuel symbolRegex symbols file
              (indexed (lines (File.content file))) results with
      | None => None
      | Some results' => usagesInFiles fuel symbolRegex symbols rest results'
      end
  end.

(** [None] when a scan of a line does not end within [fuel] matches;
    the [catch] turns a thrown error into the empty list. *)
Definition getReferences (fuel : nat) (symbolName : string)
  (filePath : option string) (db : Db) : option (list ReferenceResult) :=
  let symbols := findSymbolsByName symbolName None db in
  let results := definitions symbols filePath db in
  let allFiles := getAllFiles db in
  match newRegExp symbolName with
  | Throw _ => Some []
  | Ok symbolRegex => usagesInFiles fuel symbolRegex symbols allFiles results
  end.

(** *** [findSymbol] *)

Record SymbolResult : Type := {
  symSymbol : Symbol.t;
  symFile : File.t;
  symScore : float
}.

(** The strings of the [type] column. *)
Definition typeName (t : LanguageParser.SymbolType) : string :=
  match t with
  | LanguageParser.TFunction => "function"
  | LanguageParser.TClass => "class"
  | LanguageParser.TVariable => "variable"
  | LanguageParser.TInterface => "interface"
  | LanguageParser.TType => "type"
  | LanguageParser.TMethod => "method"
  | LanguageParser.TProperty => "property"
  end.

Definition typeOfName (s : string) : option LanguageParser.SymbolType :=
  find (fun t => String.eqb (typeName t) s)
    [LanguageParser.TFunction; LanguageParser.TClass; LanguageParser.TVariable;
     LanguageParser.TInterface; LanguageParser.TType; LanguageParser.TMethod;
     LanguageParser.TProperty].

(** [database.findSymbolsByName(symbolName, symbolType)] for a type given
    as a string: no string and the empty string select every type, a
    string that names no type selects no row. *)
Definition symbolsNamed (symbolName : string) (symbolType : option string)
  (db : Db) : list Symbol.t :=
  match symbolType with
  | None => findSymbolsByName symbolName None db
  | Some t =>
      if isEmpty t then findSymbolsByName symbolName None db
      else match typeOfName t with
           | Some ty => findSymbolsByName symbolName (Some ty) db
           | None => []
           end
  end.

(** [symbolName === symbol.name ? 1.0 : 0.8], and [0.2] more when the type
    asked for is the type of the symbol. *)
Definition symbolScore (symbolName : string) (symbolType : option string)
  (symbol : Symbol.t) : float :=
  let score :=
    if String.eqb symbolName (Symbol.name symbol) then 1%float
    else 0x1.999999999999ap-1%float in
  match symbolType with
  | Some t =>
      if negb (isEmpty t) && String.eqb t (typeName (Symbol.type symbol))
      then PrimFloat.add score 0x1.999999999999ap-3%float
      else score
  | None => score
  end.

Definition symbolBefore (a b : SymbolResult) : bool :=
  PrimFloat.ltb (PrimFloat.sub (symScore b) (symScore a)) PrimFloat.zero.

Definition findSymbol (symbolName : string) (symbolType : option string)
  (db : Db) : list SymbolResult :=
  stableSort symbolBefore
    (flat_map
       (fun symbol =>
          match fileById (Symbol.fileId symbol) db with
          | None => []
          | Some file =>
              [{| symSymbol := symbol; symFile := file;
                  symScore := symbolScore symbolName symbolType symbol |}]
          end)
       (symbolsNamed symbolName symbolType db)).

(** *** [analyzeDependencies] *)

Record DependencyEntry : Type := {
  depFile : option File.t;
  depImportPath : string;
  depType : LanguageParser.ImportType;
  depSymbols : list string;
  depIsExternal : bool
}.

Record DependentEntry : Type := {
  dependentFile : File.t;
  dependentImportPath : string;
  dependentType : LanguageParser.ImportType;
  dependentSymbols : list string
}.

Record DependencyGraph : Type := {
  graphFile : File.t;
  graphDependencies : list DependencyEntry;
  graphDependents : list DependentEntry
}.

(** [if (dep.targetFileId) { ... files.find(f => f.id === dep.targetFileId) }] *)
Definition targetOf (dep : Dependency.t) (db : Db) : option File.t :=
  match Dependency.targetFileId dep with
  | Some 0 | None => None
  | Some target => fileById target db
  end.

(** [dep.targetFileId === file.id] *)
Definition targets (dep : Dependency.t) (file : File.t) : bool :=
  match Dependency.targetFileId dep with
  | Some target => target =? File.id file
  | None => false
  end.

Definition dependentsOf (file : File.t) (db : Db) : list DependentEntry :=
  flat_map
    (fun otherFile =>
       if File.id otherFile =? File.id file then []
       else
         flat_map
           (fun dep =>
              if targets dep file then
                [{| dependentFile := otherFile;
                    dependentImportPath := Dependency.importPath dep;
                    dependentType := Dependency.importType dep;
                    dependentSymbols := Dependency.symbols dep |}]
              else [])
           (getDependenciesByFile (File.id otherFile) db))
    (getAllFiles db).

(** The [depth] argument is not read. *)
Definition analyzeDependencies (filePath : string) (depth : Z) (db : Db)
  : option DependencyGraph :=
  match getFile filePath db with
  | None => None
  | Some file =>
      let dependencies := getDependenciesByFile (File.id file) db in
      Some
        {| graphFile := file;
           graphDependencies :=
             map (fun dep =>
                    {| depFile := targetOf dep db;
                       depImportPath := Dependency.importPath dep;
                       depType := Dependency.importType dep;
                       depSymbols := Dependency.symbols dep;
                       depIsExternal := Dependency.isExternal dep |})
                 dependencies;
           graphDependents := dependentsOf file db |}
  end.

(** *** [getContext] *)

Record CodeExcerpt : Type := {
  codeContent : string;
  codeStartLine : nat;
  codeEndLine : nat;
  codeScore : float
}.

Record ContextResult : Type := {
  ctxFile : File.t;
  ctxSymbols : list Symbol.t;
  ctxRelatedFiles : list File.t;
  ctxDependencies : list Dependency.t;
  ctxRelevantCode : list CodeExcerpt
}.

(** A [symbolName] that is given and not the empty string. *)
Definition given (symbolName : option string) : option string :=
  match symbolName with
  | Some name => if isEmpty name then None else Some name
  | None => None
  end.

(** [contextSize: number = 5] *)
Definition contextSizeOf (contextSize : option Z) : Z :=
  match contextSize with Some n => n | None => 5%Z end.

(** The ids of [relatedFileIds]. *)
Definition relatedFileIds (dependencies : list Dependency.t) : list nat :=
  flat_map
    (fun dep =>
       match Dependency.targetFileId dep with
       | Some 0 | None => []
       | Some target => [target]
       end)
    dependencies.

Definition excerptOfResult (result : SearchResult) : CodeExcerpt :=
  {| codeContent := snippet result;
     codeStartLine := line result;
     codeEndLine := line result + List.length (lines (snippet result)) - 1;
     codeScore := score result |}.

Definition excerptOfEmbedding (embedding : Embedding.t) : CodeExcerpt :=
  {| codeContent := Embedding.content embedding;
     codeStartLine :=
       LanguageParser.orElse (metaStartLine (Embedding.metadata embedding)) 1;
     codeEndLine :=
       LanguageParser.orElse (metaEndLine (Embedding.metadata embedding)) 1;
     codeScore := 1%float |}.

Definition getContext (filePath : string) (symbolName : option string)
  (contextSize : option Z) (db : Db) : option ContextResult :=
  match getFile filePath db with
  | None => None
  | Some file =>
      let symbols := getSymbolsByFile (File.id file) db in
      let relevantSymbols :=
        match given symbolName with
        | Some name => filter (fun s => includes name (Symbol.name s)) symbols
        | None => symbols
        end in
      let dependencies := getDependenciesByFile (File.id file) db in
      let related := relatedFileIds dependencies in
      let relatedFiles :=
        filter (fun f => memNat (File.id f) related) (getAllFiles db) in
      let relevantCode :=
        match given symbolName with
        | Some name =>
            map excerptOfResult
              (filter (fun result => File.id (SearchEngine.file result) =? File.id file)
                 (searchCode name
                    {| limit := Some (contextSizeOf contextSize);
                       fileExtensions := None; threshold := None |} db))
        | None =>
            map excerptOfEmbedding
              (sliceTo (contextSizeOf contextSize)
                 (getEmbeddingsByFile (File.id file) db))
        end in
      Some
        {| ctxFile := file;
           ctxSymbols := relevantSymbols;
           ctxRelatedFiles := relatedFiles;
           ctxDependencies := dependencies;
           ctxRelevantCode := relevantCode |}
  end.
End Engine.
End SearchEngine.

(* ================================================================== *)
(** ** src/watcher/FileWatcher.ts: the translation of a glob *)
(* ================================================================== *)

Module FileWatcher.
Import JsString.

(** [s.replace(/\*\*/g, '.*')]: the pairs of stars, from the left. *)
Fixpoint replaceStarStar (s : string) : string :=
  match s with
  | EmptyString => EmptyString
  | String c s' =>
      match s' with
      | String d rest =>
          if Ascii.eqb c "*" && Ascii.eqb d "*"
          then String "." (String "*" (replaceStarStar rest))
          else String c (replaceStarStar s')
      | EmptyString => String c EmptyString
      end
  end.

(** [s.replace(/c/g, replacement)] for a pattern of one character. *)
Fixpoint replaceChar (c : ascii) (replacement : string) (s : string) : string :=
  match s with
  | EmptyString => EmptyString
  | String d s' =>
      if Ascii.eqb d c then String.append replacement (replaceChar c replacement s')
      else String d (replaceChar c replacement s')
  end.

Definition backslash : ascii := ascii_of_nat 92.

(** The source of the expression that [globToRegex] compiles. *)
Definition globToRegex (glob : string) : string :=
  let regex :=
    replaceChar "." (String backslash ".")
      (replaceChar "?" "."
         (replaceChar "*" "[^/]*"
            (replaceStarStar glob))) in
  String.append "^" (String.append regex "$").

(** The patterns that the constructor always ignores. *)
Definition defaultIgnored : list string :=
  ["**/node_modules/**"; "**/.git/**"; "**/dist/**"; "**/build/**";
   "**/*.min.js"; "**/*.map"; "**/coverage/**"; "**/.nyc_output/**";
   "**/logs/**"; "**/*.log"; "**/.DS_Store"; "**/Thumbs.db"].

End FileWatcher.

(* ================================================================== *)
(** * Vocabulary of the properties *)
(* ================================================================== *)

Section SpanVocabulary.
Import LanguageParser.

Definition wellFormedSpan (s : ParsedSymbol) : Prop :=
  1 <= startLine s /\ startLine s <= endLine s.
End SpanVocabulary.

Section ChunkVocabulary.
Import JsString DatabaseManager CodeIndexer.

Definition nl : string := String "010" EmptyString.

(** The lines of the text that a chunk covers. *)
Definition chunkLines (ls : list string) (c : Chunk) : list string :=
  firstn (endLine c + 1 - startLine c) (skipn (startLine c - 1) ls).

Definition totalLength (ls : list string) : nat :=
  list_sum (map String.length ls).

Definition nonEmptyCount (ls : list string) : nat :=
  List.length (filter (fun l => negb (isEmpty l)) ls).

(** Empty lines at the head of a chunk leave no trace in its text. *)
Fixpoint dropEmpty (ls : list string) : list string :=
  match ls with
  | [] => []
  | l :: ls' => if isEmpty l then dropEmpty ls' else ls
  end.

(** The lines of a chunk hold at most [maxChunkSize] characters, unless
    the chunk is a single non-empty line. *)
Definition sizeOk (ls : list string) : Prop :=
  totalLength ls <= maxChunkSize \/ nonEmptyCount ls <= 1.

(** The chunks cover the lines [a], [a + 1], ... up to [b - 1], each chunk
    starting on the line after the end of the one before. *)
Fixpoint consecutive (a : nat) (cs : list Chunk) (b : nat) : Prop :=
  match cs with
  | [] => a = b
  | c :: cs' =>
      startLine c = a /\ a <= endLine c /\ consecutive (endLine c + 1) cs' b
  end.

Definition chunkOk (ls : list string) (c : Chunk) : Prop :=
  1 <= startLine c
  /\ startLine c <= endLine c
  /\ endLine c <= List.length ls
  /\ content c = trim (join nl (dropEmpty (chunkLines ls c)))
  /\ sizeOk (chunkLines ls c).

(** What holds of the variables of the loop of [splitIntoChunks] after the
    lines [done]. *)
Definition chunkInv (done : list string) (st : ChunkState) : Prop :=
  currentLine st = S (List.length done)
  /\ 1 <= chunkStartLine st
  /\ chunkStartLine st <= currentLine st
  /\ consecutive 1 (chunks st) (chunkStartLine st)
  /\ Forall (chunkOk done) (chunks st)
  /\ currentChunk st = join nl (dropEmpty (skipn (chunkStartLine st - 1) done))
  /\ sizeOk (skipn (chunkStartLine st - 1) done).

(** The tables that the loops over symbols and dependencies leave alone. *)
Definition sameFilesAndEmbeddings (db0 db : Db) : Prop :=
  files db = files db0 /\ embeddings db = embeddings db0.
End ChunkVocabulary.

Section SearchVocabulary.
Import DatabaseManager SearchEngine.

(** [a] is ranked at or above [b]. *)
Definition scoredGe (a b : Scored) : Prop := PrimFloat.leb (snd b) (snd a) = true.

Definition resultGe (a b : SearchResult) : Prop :=
  PrimFloat.leb (score b) (score a) = true.

(** A usage is outside every line span of the symbols in its file. *)
Definition outsideDefinitions (symbols : list Symbol.t) (r : ReferenceResult)
  : Prop :=
  refType r = Usage ->
  forall s, In s symbols -> Symbol.fileId s = File.id (refFile r) ->
    ~ (Symbol.startLine s <= refLine r /\ refLine r <= Symbol.endLine s).

(** A scan of a line ends when every match moves [lastIndex] forward
    inside the line, as a pattern that matches no empty string does. *)
Definition advances (symbolRegex : RegExp) : Prop :=
  forall line lastIndex matchIndex lastIndex',
    symbolRegex line lastIndex = Some (matchIndex, lastIndex') ->
    lastIndex < lastIndex' /\ lastIndex' <= String.length line.
End SearchVocabulary.

Section CosineVocabulary.
Import EmbeddingGenerator.

(** The dot product that the loop of [cosineSimilarity] accumulates. *)
Definition dotProduct (a b : list float) : float :=
  fold_left (fun sum xy => PrimFloat.add sum (PrimFloat.mul (fst xy) (snd xy)))
    (combine a b) PrimFloat.zero.

(** A number that is NaN or is not negative: its sign bit is clear. *)
Definition nonneg (x : spec_float) : Prop :=
  match x with
  | S754_nan => True
  | S754_zero s | S754_infinity s | S754_finite s _ _ => s = false
  end.

(** A positive number of at least [2^k], or plus infinity. *)
Definition atLeast (k : Z) (x : spec_float) : Prop :=
  match x with
  | S754_finite false m e => (2 ^ (k - e) <= Zpos m)%Z
  | S754_infinity false => True
  | _ => False
  end.
End CosineVocabulary.

(** ** A two-file repository

    [/repo/a.js] exports a function and [/repo/b.js] imports it by a
    relative path.  The scans below list [a.js] before [b.js]. *)

Module Example.
Import DatabaseManager.

Definition aText : string := "export function add(a, b) { return a + b; }".

Definition bText : string :=
  "import { add } from './a.js';
export const three = add(1, 2);".

Definition tree : Fs.t :=
  [("/repo/a.js", {| Fs.text := aText; Fs.stats := {| Fs.size := 43; Fs.mtime := 1000 |} |});
   ("/repo/b.js", {| Fs.text := bText; Fs.stats := {| Fs.size := 61; Fs.mtime := 2000 |} |})].

Definition found (root : string) : list string := ["/repo/a.js"; "/repo/b.js"].

(** An embedding provider with three values: the query [add], the chunks
    that start with [export], and the others. *)
Definition embed (text : string) : list float :=
  if String.eqb text "add" then [1%float; 0%float]
  else if JsString.startsWith "export" text then [4%float; 3%float]
  else [3%float; 4%float].

(** The expression that [new RegExp] builds for a name made of word
    characters: the name between two word boundaries. *)
Definition wordRegExp (symbolName : string) : result SearchEngine.RegExp :=
  Ok (Regex.exec (LanguageParser.wholeWord symbolName)).

(** A line of [n] letters. *)
Fixpoint letters (n : nat) : string :=
  match n with
  | 0 => EmptyString
  | S n' => String "a" (letters n')
  end.

Section Scan.
Variable sha256 : string -> string.
Variable generateEmbedding : string -> list float.

(** A scan of [/repo] without [force], by a process whose working
    directory is [cwd], at time [now]. *)
Definition scan (cwd : string) (now : nat) (db : Db)
  : Db * CodeIndexer.Counters :=
  CodeIndexer.indexRepository tree cwd sha256 generateEmbedding found
    "/repo" false (fun _ => now) db.

Definition indexed (cwd : string) : Db := fst (scan cwd 10 initialize).
End Scan.
End Example.


(* ================================================================== *)
(** * Vocabulary of the further properties *)
(* ================================================================== *)

(** ** The tables of the database *)

Section StoreVocabulary.
Import DatabaseManager.

(** The table of files as the schema wants it: no two rows with one path,
    no two rows with one id, and every id below the next one to be given. *)
Definition filesOk (db : Db) : Prop :=
  NoDup (map File.path (files db))
  /\ NoDup (map File.id (files db))
  /\ Forall (fun f => File.id f < nextFileId db) (files db).

(** The row that [insertFile] writes for a record. *)
Definition rowOf (id : nat) (file : FileInput.t) (now : nat) : File.t :=
  {| File.id := id;
     File.path := FileInput.path file;
     File.content := FileInput.content file;
     File.hash := FileInput.hash file;
     File.size := FileInput.size file;
     File.language := FileInput.language file;
     File.lastModified := FileInput.lastModified file;
     File.indexedAt := now |}.
End StoreVocabulary.

(** ** The place of a symbol in a text *)

Section ParserVocabulary.
Import LanguageParser.

(** A symbol found on the line of index [i] of [lines]: its start line is
    the number of that line, its end line is a line of the text, and its
    columns run from somewhere in the line to one past its end. *)
Definition locatedAt (lines : list string) (i : nat) (line : string)
  (s : ParsedSymbol) : Prop :=
  startLine s = i + 1
  /\ endLine s <= List.length lines
  /\ endColumn s = String.length line + 1
  /\ startColumn s <= endColumn s.

Definition locatedIn (lines : list string) (s : ParsedSymbol) : Prop :=
  exists i line, nth_error lines i = Some line /\ locatedAt lines i line s.
End ParserVocabulary.

(** ** What [indexFile] writes *)

Section IndexVocabulary.
Import DatabaseManager.

(** The row that [insertSymbol] writes. *)
Definition symbolRow (fileId id : nat) (symbol : LanguageParser.ParsedSymbol)
  : Symbol.t :=
  {| Symbol.id := id;
     Symbol.fileId := fileId;
     Symbol.name := LanguageParser.name symbol;
     Symbol.type := LanguageParser.type symbol;
     Symbol.startLine := LanguageParser.startLine symbol;
     Symbol.endLine := LanguageParser.endLine symbol;
     Symbol.startColumn := LanguageParser.startColumn symbol;
     Symbol.endColumn := LanguageParser.endColumn symbol;
     Symbol.definition := LanguageParser.definition symbol;
     Symbol.docstring := orNullString (LanguageParser.docstring symbol);
     Symbol.modifiers := LanguageParser.modifiers symbol |}.

(** The rows of a list of symbols inserted one after the other, the first
    with the id [first]. *)
Fixpoint symbolRows (fileId first : nat)
  (parsed : list LanguageParser.ParsedSymbol) : list Symbol.t :=
  match parsed with
  | [] => []
  | symbol :: rest => symbolRow fileId first symbol :: symbolRows fileId (S first) rest
  end.

(** The row that [insertDependency] writes for a dependency whose written
    path is the path of the stored file [target], if any. *)
Definition dependencyRow (sourceFileId id : nat) (target : option File.t)
  (dependency : LanguageParser.ParsedDependency) : Dependency.t :=
  {| Dependency.id := id;
     Dependency.sourceFileId := sourceFileId;
     Dependency.targetFileId := orNull (option_map File.id target);
     Dependency.importPath := LanguageParser.importPath dependency;
     Dependency.importType := LanguageParser.importType dependency;
     Dependency.isExternal := LanguageParser.isExternal dependency;
     Dependency.symbols := LanguageParser.symbols dependency |}.

Fixpoint dependencyRows (sourceFileId first : nat)
  (stored : string -> option File.t)
  (parsed : list LanguageParser.ParsedDependency) : list Dependency.t :=
  match parsed with
  | [] => []
  | dependency :: rest =>
      dependencyRow sourceFileId first
        (stored (LanguageParser.importPath dependency)) dependency
      :: dependencyRows sourceFileId (S first) stored rest
  end.

(** The row that [generateFileEmbeddings] writes for the chunk of index
    [index]. *)
Definition embeddingRow (generateEmbedding : string -> list float)
  (fileId id index : nat) (language : string) (chunk : CodeIndexer.Chunk)
  : Embedding.t :=
  {| Embedding.id := id;
     Embedding.fileId := fileId;
     Embedding.symbolId := None;
     Embedding.chunkIndex := index;
     Embedding.content := CodeIndexer.content chunk;
     Embedding.embedding := generateEmbedding (CodeIndexer.content chunk);
     Embedding.metadata :=
       {| metaLanguage := language;
          metaStartLine := CodeIndexer.startLine chunk;
          metaEndLine := CodeIndexer.endLine chunk;
          metaType := CodeIndexer.type chunk |} |}.

Fixpoint embeddingRows (generateEmbedding : string -> list float)
  (fileId first index : nat) (language : string)
  (chunks : list CodeIndexer.Chunk) : list Embedding.t :=
  match chunks with
  | [] => []
  | chunk :: rest =>
      embeddingRow generateEmbedding fileId first index language chunk
      :: embeddingRows generateEmbedding fileId (S first) (S index) language rest
  end.

(** The record that [indexFile] builds for a file of the tree. *)
Definition recordOf (sha256 : string -> string) (filePath repoPath : string)
  (entry : Fs.Entry) : FileInput.t :=
  {| FileInput.path := Path.relative repoPath filePath;
     FileInput.content := Fs.text entry;
     FileInput.hash := sha256 (Fs.text entry);
     FileInput.size := Fs.size (Fs.stats entry);
     FileInput.language := LanguageParser.detectLanguage filePath;
     FileInput.lastModified := Fs.mtime (Fs.stats entry) |}.

(** What [indexFile] parses from a text: nothing for a language that is
    not supported. *)
Definition parsedAs (text language : string)
  (symbols : list LanguageParser.ParsedSymbol)
  (dependencies : list LanguageParser.ParsedDependency) : Prop :=
  if LanguageParser.isSupported language then
    LanguageParser.parseSymbols (Some text) language = Ok symbols
    /\ forall filePath,
         LanguageParser.parseDependencies (Some text) language filePath
         = Ok dependencies
  else symbols = [] /\ dependencies = [].
End IndexVocabulary.

(** ** The counters of a scan *)

Section ScanVocabulary.
Import CodeIndexer.

(** The number of files that a scan has counted. *)
Definition total (n : Counters) : nat := processed n + skipped n + errors n.
End ScanVocabulary.

(** ** The loop of [splitIntoChunks] before the first chunk *)

Section GatherVocabulary.
Import JsString CodeIndexer.

(** The variables of the loop while nothing has been saved. *)
Definition gathering (done : list string) (st : ChunkState) : Prop :=
  chunks st = []
  /\ chunkStartLine st = 1
  /\ currentLine st = S (List.length done)
  /\ currentChunk st = join nl (dropEmpty done).
End GatherVocabulary.

(** ** Tokens *)

Section TokenVocabulary.
Import JsString.

(** Every character of a string passes a test. *)
Fixpoint allChars (p : ascii -> bool) (s : string) : bool :=
  match s with
  | EmptyString => true
  | String c s' => p c && allChars p s'
  end.

(** A character of a token: a digit, an underscore or a small letter. *)
Definition isTokenChar (c : ascii) : bool := isWord c && negb (isUpper c).

(** An ASCII character: a code unit below 128. *)
Definition isAscii (c : ascii) : bool := code c <? 128.
End TokenVocabulary.

(** ** The score of a symbol *)

Section SymbolVocabulary.
Import JsString.

(** The score that [findSymbol] gives to a symbol of the asked name: 1.2
    when a type is asked for, 1 when none is. *)
Definition scoreFor (symbolType : option string) : float :=
  match symbolType with
  | Some t => if isEmpty t then 1%float else 0x1.3333333333333p+0%float
  | None => 1%float
  end.
End SymbolVocabulary.

(** ** References *)

Section ReferenceVocabulary.
Import JsString DatabaseManager SearchEngine.

(** A usage found on the line of index [lineIndex] of a file. *)
Definition usageOn (file : File.t) (lineIndex : nat) (line : string)
  (r : ReferenceResult) : Prop :=
  refType r = Usage
  /\ refFile r = file
  /\ refLine r = lineIndex + 1
  /\ refContext r = trim line
  /\ 1 <= refColumn r.

(** A usage that cites a line of a stored file. *)
Definition usageIn (db : Db) (r : ReferenceResult) : Prop :=
  refType r = Usage
  /\ In (refFile r) (files db)
  /\ 1 <= refColumn r
  /\ exists line,
       nth_error (lines (File.content (refFile r))) (refLine r - 1) = Some line
       /\ 1 <= refLine r
       /\ refContext r = trim line.

(** The definition of a stored symbol of a name, in a stored file. *)
Definition definitionIn (db : Db) (symbolName : string) (filePath : option string)
  (r : ReferenceResult) : Prop :=
  refType r = Definition_
  /\ In (refFile r) (files db)
  /\ match given filePath with
     | Some wanted => File.path (refFile r) = wanted
     | None => True
     end
  /\ exists symbol,
       In symbol (symbols db)
       /\ Symbol.name symbol = symbolName
       /\ Symbol.fileId symbol = File.id (refFile r)
       /\ refLine r = Symbol.startLine symbol
       /\ refColumn r = Symbol.startColumn symbol.
End ReferenceVocabulary.

(** ** The translation of a glob in one pass *)

Section GlobVocabulary.
Import JsString FileWatcher.

(** What the four replacements of [globToRegex] make of one character. *)
Definition translateChar (c : ascii) : string :=
  if Ascii.eqb c "*" then "[^/]*"
  else if Ascii.eqb c "?" || Ascii.eqb c "." then String backslash "."
  else String c EmptyString.

(** The translation of a glob in one pass from the left: a pair of stars,
    then single characters. *)
Fixpoint translate (glob : string) : string :=
  match glob with
  | EmptyString => EmptyString
  | String c s' =>
      match s' with
      | String d rest =>
          if Ascii.eqb c "*" && Ascii.eqb d "*"
          then String.append (String backslash ".[^/]*") (translate rest)
          else String.append (translateChar c) (translate s')
      | EmptyString => translateChar c
      end
  end.

(** The three replacements after the one of the pairs of stars. *)
Definition afterStars (s : string) : string :=
  replaceChar "." (String backslash ".")
    (replaceChar "?" "." (replaceChar "*" "[^/]*" s)).
End GlobVocabulary.


(* ================================================================== *)
(** * Properties *)
(* ================================================================== *)


(** ** The stable sort *)

Section StableSortFacts.
Variable A : Type.
Variable before : A -> A -> bool.

Lemma insertSorted_perm (x : A) (l : list A) :
  Permutation (x :: l) (insertSorted before x l).
Proof.
  induction l as [|y l IH]; simpl.
  - apply Permutation_refl.
  - destruct (before x y).
    + apply Permutation_refl.
    + eapply perm_trans; [apply perm_swap|]. now apply perm_skip.
Qed.

Lemma sort_onto_perm (l acc : list A) :
  Permutation (acc ++ l)
    (fold_left (fun sorted x => insertSorted before x sorted) l acc).
Proof.
  revert acc. induction l as [|x l IH]; intro acc; simpl.
  - rewrite app_nil_r. apply Permutation_refl.
  - eapply perm_trans; [|apply IH].
    eapply perm_trans; [apply Permutation_sym, Permutation_middle|].
    exact (Permutation_app_tail l (insertSorted_perm x acc)).
Qed.

Lemma stableSort_perm (l : list A) : Permutation l (stableSort before l).
Proof. exact (sort_onto_perm l []). Qed.

Lemma stableSort_In (x : A) (l : list A) :
  In x (stableSort before l) <-> In x l.
Proof.
  split; intro H.
  - eapply Permutation_in; [apply Permutation_sym, stableSort_perm|exact H].
  - eapply Permutation_in; [apply stableSort_perm|exact H].
Qed.

Lemma stableSort_length (l : list A) :
  List.length (stableSort before l) = List.length l.
Proof. symmetry. apply Permutation_length, stableSort_perm. Qed.

Lemma stableSort_nil (l : list A) : stableSort before l = [] <-> l = [].
Proof.
  split; intro H.
  - apply length_zero_iff_nil. rewrite <- stableSort_length, H. reflexivity.
  - subst. reflexivity.
Qed.

(** A new element that no earlier one must follow goes to the end. *)
Lemma insertSorted_last (x : A) (l : list A) :
  Forall (fun y => before x y = false) l -> insertSorted before x l = l ++ [x].
Proof.
  induction 1 as [|y l Hy _ IH]; simpl.
  - reflexivity.
  - now rewrite Hy, IH.
Qed.

(** The sort leaves a list alone in which no element must come before
    an earlier one. *)
Lemma sort_onto_ordered (l acc : list A) :
  ForallOrdPairs (fun a b => before b a = false) (acc ++ l) ->
  fold_left (fun sorted x => insertSorted before x sorted) l acc = acc ++ l.
Proof.
  revert acc. induction l as [|x l IH]; intros acc H; simpl.
  - now rewrite app_nil_r.
  - assert (Hx : Forall (fun y => before x y = false) acc).
    { clear IH. induction acc as [|a acc IHacc]; [constructor|].
      simpl in H. inversion H as [|? ? Ha Hrest]; subst.
      constructor.
      - rewrite Forall_forall in Ha. apply Ha, in_or_app. right. now left.
      - now apply IHacc. }
    rewrite (insertSorted_last Hx), IH, <- app_assoc; [reflexivity|].
    now rewrite <- app_assoc.
Qed.

Lemma stableSort_ordered (l : list A) :
  ForallOrdPairs (fun a b => before b a = false) l -> stableSort before l = l.
Proof. intro H. exact (sort_onto_ordered l [] H). Qed.

(** Sortedness, for an order [R] that agrees with [before] on the
    elements at hand. *)
Variable R : A -> A -> Prop.
Variable dom : A -> Prop.
Hypothesis R_trans : forall x y z, dom x -> dom y -> dom z -> R x y -> R y z -> R x z.
Hypothesis before_R : forall x y, dom x -> dom y -> before x y = true -> R x y.
Hypothesis not_before_R : forall x y, dom x -> dom y -> before x y = false -> R y x.

Lemma insertSorted_sorted (x : A) (l : list A) :
  dom x -> Forall dom l -> StronglySorted R l ->
  StronglySorted R (insertSorted before x l).
Proof.
  intros Hx Hl Hs. induction Hs as [|y l Hs IH Hy]; simpl.
  - constructor; constructor.
  - inversion Hl as [|? ? Hdy Hdl]; subst.
    destruct (before x y) eqn:E.
    + constructor; [now constructor|].
      constructor; [now apply before_R|].
      rewrite Forall_forall in *. intros z Hz.
      apply R_trans with y; auto.
    + constructor; [now apply IH|].
      rewrite Forall_forall in *. intros z Hz.
      apply (Permutation_in _ (Permutation_sym (insertSorted_perm x l))) in Hz.
      destruct Hz as [<-|Hz]; [now apply not_before_R|now apply Hy].
Qed.

Lemma sort_onto_sorted (l acc : list A) :
  Forall dom l -> Forall dom acc -> StronglySorted R acc ->
  StronglySorted R (fold_left (fun sorted x => insertSorted before x sorted) l acc).
Proof.
  revert acc. induction l as [|x l IH]; intros acc Hl Hacc Hs; simpl.
  - exact Hs.
  - inversion Hl; subst. apply IH; auto.
    + rewrite Forall_forall in *. intros z Hz.
      apply (Permutation_in _ (Permutation_sym (insertSorted_perm x acc))) in Hz.
      destruct Hz as [<-|Hz]; auto.
    + now apply insertSorted_sorted.
Qed.

Lemma stableSort_sorted (l : list A) :
  Forall dom l -> StronglySorted R (stableSort before l).
Proof. intro H. apply sort_onto_sorted; auto; constructor. Qed.
End StableSortFacts.

(** ** Deleting a file (C1) *)

Section Cascade.
Import DatabaseManager.

(** With enforcement off, the statement of [deleteFile] touches the table
    of files only. *)
Lemma deleteFile_without_enforcement (path : string) (db : Db) :
  foreignKeys db = false ->
  symbols (deleteFile path db) = symbols db
  /\ embeddings (deleteFile path db) = embeddings db
  /\ dependencies (deleteFile path db) = dependencies db.
Proof. intro H. unfold deleteFile. rewrite H. simpl. auto. Qed.

Lemma memNat_In (n : nat) (l : list nat) : memNat n l = true <-> In n l.
Proof.
  unfold memNat. rewrite existsb_exists. split.
  - intros [m [Hin Heq]]. apply Nat.eqb_eq in Heq. now subst.
  - intro Hin. exists n. split; [exact Hin|apply Nat.eqb_refl].
Qed.

Lemma filter_nil_iff {A : Type} (f : A -> bool) (l : list A) :
  filter f l = [] <-> (forall x, In x l -> f x = false).
Proof.
  induction l as [|a l IH]; simpl.
  - split; [intros _ x []|reflexivity].
  - destruct (f a) eqn:E.
    + split; [discriminate|]. intro H. rewrite (H a) in E; [discriminate|now left].
    + rewrite IH. split.
      * intros H x [<-|Hx]; auto.
      * intros H x Hx. apply H. now right.
Qed.

(** With enforcement on, the declared cascades would empty the three
    queries for the deleted file. *)
Lemma deleteFile_under_enforcement (db : Db) (f : File.t) :
  foreignKeys db = true ->
  In f (files db) ->
  let db' := deleteFile (File.path f) db in
  getSymbolsByFile (File.id f) db' = []
  /\ getEmbeddingsByFile (File.id f) db' = []
  /\ getDependenciesByFile (File.id f) db' = [].
Proof.
  intros Hfk Hin db'.
  assert (Hgone : In (File.id f)
            (map File.id
               (filter (fun g => String.eqb (File.path g) (File.path f)) (files db)))).
  { apply in_map, filter_In. split; [exact Hin|apply String.eqb_refl]. }
  apply memNat_In in Hgone.
  subst db'. unfold deleteFile. rewrite Hfk.
  unfold getSymbolsByFile, getEmbeddingsByFile, getDependenciesByFile,
    cascadeDelete; simpl.
  repeat split.
  - apply stableSort_nil, filter_nil_iff. intros s Hs.
    apply filter_In in Hs. destruct Hs as [_ Hs].
    destruct (Symbol.fileId s =? File.id f) eqn:E; [|reflexivity].
    apply Nat.eqb_eq in E. rewrite E, Hgone in Hs. discriminate.
  - apply stableSort_nil, filter_nil_iff. intros e He.
    apply filter_In in He. destruct He as [_ He].
    destruct (Embedding.fileId e =? File.id f) eqn:E; [|reflexivity].
    apply Nat.eqb_eq in E. rewrite E, Hgone in He. discriminate.
  - apply filter_nil_iff. intros d Hd.
    apply filter_In in Hd. destruct Hd as [_ Hd].
    destruct (Dependency.sourceFileId d =? File.id f) eqn:E; [|reflexivity].
    apply Nat.eqb_eq in E. rewrite E, Hgone in Hd. discriminate.
Qed.

(** The connection opened by [initialize] has enforcement off, and the
    operations keep the setting. *)
Lemma initialize_foreignKeys : foreignKeys initialize = false.
Proof. reflexivity. Qed.

Lemma insertFile_foreignKeys (file : FileInput.t) (now : nat) (db : Db) :
  foreignKeys (snd (insertFile file now db)) = foreignKeys db.
Proof. unfold insertFile. destruct (getFile _ db); reflexivity. Qed.

Lemma deleteFile_foreignKeys (path : string) (db : Db) :
  foreignKeys (deleteFile path db) = foreignKeys db.
Proof. unfold deleteFile. destruct (foreignKeys db) eqn:E; simpl; auto. Qed.

(** C1.  The two-file repository is scanned and [b.js], whose id is 2, is
    removed.  The file is gone, and its symbol, its dependency and its
    embedding are still returned by the three queries for id 2. *)
Theorem C1_deleteFile_leaves_dependent_rows :
  forall (sha256 : string -> string) (generateEmbedding : string -> list float),
    let db := Example.indexed sha256 generateEmbedding "/repo" in
    let db' := CodeIndexer.removeFile "/repo/b.js" "/repo" db in
    option_map File.id (getFile "b.js" db) = Some 2
    /\ getFile "b.js" db' = None
    /\ map Symbol.name (getSymbolsByFile 2 db') = ["three"]
    /\ map Embedding.chunkIndex (getEmbeddingsByFile 2 db') = [0]
    /\ map Dependency.importPath (getDependenciesByFile 2 db') = ["./a.js"].
Proof. intros. vm_compute. repeat split. Qed.
End Cascade.

(** ** Resolving the target of an import (C2) *)

Section Resolution.
Import DatabaseManager.

(** [indexFile] looks the written import path up among the stored paths.
    A path that starts with a dot is found only if a stored path starts
    with a dot. *)
Lemma getFile_relative_import (db : Db) (importPath : string) :
  JsString.startsWith "." importPath = true ->
  Forall (fun f => JsString.startsWith "." (File.path f) = false) (files db) ->
  getFile importPath db = None.
Proof.
  intros Hdot Hall. unfold getFile.
  induction Hall as [|f fs Hf _ IH]; simpl; [reflexivity|].
  destruct (String.eqb (File.path f) importPath) eqn:E; [|exact IH].
  apply String.eqb_eq in E. rewrite E, Hdot in Hf. discriminate.
Qed.

(** C2.  In the two-file repository, scanned from its root with [a.js]
    before [b.js], the only dependency row of [b.js] is not external and
    has no target, although [a.js] is stored with id 1. *)
Theorem C2_relative_import_has_no_target :
  forall (sha256 : string -> string) (generateEmbedding : string -> list float),
    let db := Example.indexed sha256 generateEmbedding "/repo" in
    option_map File.id (getFile "a.js" db) = Some 1
    /\ option_map File.id (getFile "b.js" db) = Some 2
    /\ getDependenciesByFile 2 db =
       [{| Dependency.id := 1;
           Dependency.sourceFileId := 2;
           Dependency.targetFileId := None;
           Dependency.importPath := "./a.js";
           Dependency.importType := LanguageParser.ByImport;
           Dependency.isExternal := false;
           Dependency.symbols := ["add"] |}].
Proof. intros. vm_compute. repeat split. Qed.
End Resolution.

(** ** Scanning again (C3) *)

Section Rescan.
Import DatabaseManager.

(** The test of [shouldProcessFile] looks the file up under its path
    relative to the working directory. *)
Lemma shouldProcessFile_skips (fs : Fs.t) (cwd filePath : string) (db : Db)
  (stats : Fs.Stats) (row : File.t) :
  Fs.stat fs filePath = Ok stats ->
  Fs.size stats <= 1024 * 1024 ->
  getFile (Path.relative cwd filePath) db = Some row ->
  Fs.mtime stats <= File.lastModified row ->
  CodeIndexer.shouldProcessFile fs cwd filePath false db = false.
Proof.
  intros Hstat Hsize Hrow Hm. unfold CodeIndexer.shouldProcessFile.
  rewrite Hstat.
  destruct (1024 * 1024 <? Fs.size stats) eqn:E; [reflexivity|].
  rewrite Hrow.
  apply Nat.leb_le in Hm. now rewrite Hm.
Qed.

Lemma shouldProcessFile_unknown_path (fs : Fs.t) (cwd filePath : string) (db : Db)
  (stats : Fs.Stats) :
  Fs.stat fs filePath = Ok stats ->
  Fs.size stats <= 1024 * 1024 ->
  getFile (Path.relative cwd filePath) db = None ->
  CodeIndexer.shouldProcessFile fs cwd filePath false db = true.
Proof.
  intros Hstat Hsize Hrow. unfold CodeIndexer.shouldProcessFile.
  rewrite Hstat.
  apply Nat.leb_le in Hsize. rewrite Nat.ltb_antisym, Hsize. simpl.
  now rewrite Hrow.
Qed.

(** When the working directory is the root of the repository, a second
    scan of the unchanged tree skips both files and leaves the database
    as it is. *)
Lemma rescan_from_the_root :
  forall (sha256 : string -> string) (generateEmbedding : string -> list float),
    let db1 := Example.indexed sha256 generateEmbedding "/repo" in
    let (db2, n) := Example.scan sha256 generateEmbedding "/repo" 20 db1 in
    db2 = db1 /\ CodeIndexer.skipped n = 2 /\ CodeIndexer.processed n = 0.
Proof. intros. vm_compute. repeat split. Qed.

(** C3.  The repository [/repo] is scanned at time 10 by a process whose
    working directory is [/work], and again at time 20, without [force]
    and with the tree unchanged.  The second scan skips nothing: it
    processes both files, rewrites the file row of [a.js] (its
    [indexed_at] goes from 10 to 20) and replaces its symbol row (id 1)
    by a new one (id 3). *)
Theorem C3_rescan_rewrites_unchanged_files :
  forall (sha256 : string -> string) (generateEmbedding : string -> list float),
    let db1 := Example.indexed sha256 generateEmbedding "/work" in
    let (db2, n) := Example.scan sha256 generateEmbedding "/work" 20 db1 in
    CodeIndexer.processed n = 2
    /\ CodeIndexer.skipped n = 0
    /\ option_map File.indexedAt (getFile "a.js" db1) = Some 10
    /\ option_map File.indexedAt (getFile "a.js" db2) = Some 20
    /\ map Symbol.id (getSymbolsByFile 1 db1) = [1]
    /\ map Symbol.id (getSymbolsByFile 1 db2) = [3].
Proof. intros. vm_compute. repeat split. Qed.
End Rescan.

(** ** The extractors on empty and missing text (C4) *)

Section EmptyText.
Import LanguageParser.

Lemma parseSymbols_null (language : string) : parseSymbols None language = Ok [].
Proof. reflexivity. Qed.

Lemma parseSymbols_empty (language : string) :
  parseSymbols (Some EmptyString) language = Ok [].
Proof. reflexivity. Qed.

Lemma parseDependencies_empty (language filePath : string) :
  parseDependencies (Some EmptyString) language filePath = Ok [].
Proof.
  unfold parseDependencies.
  destruct (String.eqb language "javascript" || String.eqb language "typescript");
    [reflexivity|].
  destruct (String.eqb language "python"); [reflexivity|].
  destruct (String.eqb language "java"); reflexivity.
Qed.

(** On [null], [parseDependencies] returns the empty list for the
    languages it has no extractor for, and throws for the others. *)
Lemma parseDependencies_null (language filePath : string) :
  parseDependencies None language filePath =
  if String.eqb language "javascript" || String.eqb language "typescript"
     || String.eqb language "python" || String.eqb language "java"
  then Throw TypeError else Ok [].
Proof.
  unfold parseDependencies.
  destruct (String.eqb language "javascript" || String.eqb language "typescript");
    [reflexivity|].
  destruct (String.eqb language "python"); [reflexivity|].
  destruct (String.eqb language "java"); reflexivity.
Qed.

(** C4.  [parseDependencies] called with [null] content and a language
    that has a dependency extractor throws a [TypeError]; [parseSymbols]
    returns the empty list on the same input. *)
Theorem C4_parseDependencies_throws_on_null :
  parseDependencies None "javascript" "a.js" = Throw TypeError
  /\ parseDependencies None "typescript" "a.ts" = Throw TypeError
  /\ parseDependencies None "python" "a.py" = Throw TypeError
  /\ parseDependencies None "java" "A.java" = Throw TypeError
  /\ parseSymbols None "javascript" = Ok [].
Proof. repeat split. Qed.
End EmptyText.

(** ** The line span of a symbol (C10) *)

Section Spans.
Import LanguageParser.

Lemma findEndFrom_ge (o c : ascii) (rest : list string) :
  forall (i : nat) (depth : Z) (found : bool) (n : nat),
    findEndFrom o c rest i depth found = Some n -> i + 1 <= n.
Proof.
  induction rest as [|line rest IH]; intros i depth found n H; simpl in H.
  - discriminate.
  - destruct (scanBraces o c line depth found) as [[d f]|].
    + apply IH in H. lia.
    + injection H as <-. lia.
Qed.

Lemma findEndLine_ge (lines : list string) (startIndex : nat) (o c : ascii) :
  startIndex + 1 <= findEndLine lines startIndex o c.
Proof.
  unfold findEndLine.
  destruct (findEndFrom o c (skipn startIndex lines) startIndex 0 false) eqn:E.
  - now apply findEndFrom_ge in E.
  - lia.
Qed.

Lemma pythonBlockEndFrom_ge (rest : list string) :
  forall (i baseIndent n : nat),
    pythonBlockEndFrom rest i baseIndent = Some n -> i <= n.
Proof.
  induction rest as [|line rest IH]; intros i baseIndent n H; simpl in H.
  - discriminate.
  - destruct (JsString.isEmpty (JsString.trim line)).
    + apply IH in H. lia.
    + destruct ((indentOf line <=? baseIndent) && negb false).
      * injection H as <-. lia.
      * apply IH in H. lia.
Qed.

Lemma findPythonBlockEnd_ge (lines : list string) (startIndex baseIndent : nat) :
  startIndex < List.length lines ->
  startIndex + 1 <= findPythonBlockEnd lines startIndex baseIndent.
Proof.
  intro Hlt. unfold findPythonBlockEnd.
  destruct (pythonBlockEndFrom (skipn (startIndex + 1) lines) (startIndex + 1)
              baseIndent) eqn:E.
  - now apply pythonBlockEndFrom_ge in E.
  - lia.
Qed.

Lemma orElse_ge (lo n fallback : nat) :
  lo <= n -> lo <= fallback -> lo <= orElse n fallback.
Proof. intros. unfold orElse. destruct (n =? 0); assumption. Qed.

Lemma indexed_In {A : Type} (l : list A) (i : nat) (x : A) :
  In (i, x) (indexed l) -> i < List.length l.
Proof.
  unfold indexed. intro H. apply in_combine_l in H.
  apply in_seq in H. lia.
Qed.

Lemma pushIf_In {A : Type} (m : option Regex.found) (cond : bool)
  (f : Regex.found -> A) (x : A) :
  In x (pushIf m cond f) -> exists mm, x = f mm.
Proof.
  unfold pushIf. destruct m as [mm|]; [|intros []].
  destruct cond; [|intros []].
  intros [<-|[]]. now exists mm.
Qed.

Ltac pushed :=
  repeat match goal with
    | H : In _ (_ ++ _) |- _ => apply in_app_or in H; destruct H as [H|H]
    | H : In _ (pushIf _ _ _) |- _ =>
        apply pushIf_In in H; destruct H as [? ->]
    end.

Ltac span lines i :=
  unfold wellFormedSpan; simpl;
  try (split; [lia|]);
  first [ lia
        | apply orElse_ge; [|lia]; pose proof (findEndLine_ge lines i "{" "}"); lia
        | pose proof (findEndLine_ge lines i "{" "}"); lia ].

Lemma javaScriptSymbolsAt_span (lines : list string) (i : nat) (line : string)
  (s : ParsedSymbol) :
  In s (javaScriptSymbolsAt lines i line) -> wellFormedSpan s.
Proof. unfold javaScriptSymbolsAt. intro H. pushed; span lines i. Qed.

Lemma javaSymbolsAt_span (lines : list string) (i : nat) (line : string)
  (s : ParsedSymbol) :
  In s (javaSymbolsAt lines i line) -> wellFormedSpan s.
Proof. unfold javaSymbolsAt. intro H. pushed; span lines i. Qed.

Lemma cppSymbolsAt_span (lines : list string) (i : nat) (line : string)
  (s : ParsedSymbol) :
  In s (cppSymbolsAt lines i line) -> wellFormedSpan s.
Proof. unfold cppSymbolsAt. intro H. pushed; span lines i. Qed.

Lemma pythonSymbolsAt_span (lines : list string) (i : nat) (line : string)
  (s : ParsedSymbol) :
  i < List.length lines ->
  In s (pythonSymbolsAt lines i line) -> wellFormedSpan s.
Proof.
  unfold pythonSymbolsAt. intros Hi H. pushed; unfold wellFormedSpan; simpl;
    (split; [lia|]); try lia;
    match goal with
    | |- _ <= findPythonBlockEnd ?ls ?j ?b =>
        pose proof (findPythonBlockEnd_ge ls b Hi); lia
    end.
Qed.

Lemma eachLine_span (body : list string -> nat -> string -> list ParsedSymbol)
  (lines : list string) :
  (forall i line s, i < List.length lines -> In s (body lines i line) ->
                    wellFormedSpan s) ->
  Forall wellFormedSpan (eachLine body lines).
Proof.
  intro H. apply Forall_forall. intros s Hs.
  unfold eachLine in Hs. apply in_flat_map in Hs.
  destruct Hs as [[i line] [Hil Hs]]. simpl in Hs.
  apply indexed_In in Hil. eauto.
Qed.

(** C10.  [parseSymbols] returns a list for every text, [null] included,
    and every language tag, and every symbol of the list has a start line
    of at least 1 and an end line that is not before its start line. *)
Theorem C10_symbol_spans_are_well_formed :
  forall (content : option string) (language : string),
  exists symbols : list ParsedSymbol,
    parseSymbols content language = Ok symbols
    /\ Forall wellFormedSpan symbols.
Proof.
  intros content language. unfold parseSymbols.
  destruct content as [text|]; [|exists []; split; [reflexivity|constructor]].
  simpl falsy. destruct (JsString.isEmpty text);
    [exists []; split; [reflexivity|constructor]|].
  destruct (String.eqb language "javascript" || String.eqb language "typescript").
  { eexists. split; [reflexivity|]. apply eachLine_span.
    intros i line s _. apply javaScriptSymbolsAt_span. }
  destruct (String.eqb language "python").
  { eexists. split; [reflexivity|]. apply eachLine_span.
    intros i line s. apply pythonSymbolsAt_span. }
  destruct (String.eqb language "java").
  { eexists. split; [reflexivity|]. apply eachLine_span.
    intros i line s _. apply javaSymbolsAt_span. }
  destruct (String.eqb language "cpp" || String.eqb language "c").
  { eexists. split; [reflexivity|]. apply eachLine_span.
    intros i line s _. apply cppSymbolsAt_span. }
  exists []. split; [reflexivity|constructor].
Qed.
End Spans.

(** ** Cosine similarity: the two guards *)

Section Cosine.
Import EmbeddingGenerator.

(** On vectors of one length the loop computes the two sums of squares
    independently of each other. *)
Lemma accumulate_norms (a : list float) :
  forall (b : list float) (dot normA normB : float),
    List.length a = List.length b ->
    exists dot',
      fold_left accumulate (combine a b) (dot, normA, normB) =
      (dot',
       fold_left (fun sum val => PrimFloat.add sum (PrimFloat.mul val val)) a normA,
       fold_left (fun sum val => PrimFloat.add sum (PrimFloat.mul val val)) b normB).
Proof.
  induction a as [|x a IH]; intros [|y b] dot normA normB Hlen;
    try discriminate; simpl.
  - now exists dot.
  - injection Hlen as Hlen. exact (IH b _ _ _ Hlen).
Qed.

Lemma cosineSimilarity_mismatch (a b : list float) :
  List.length a <> List.length b -> cosineSimilarity a b = PrimFloat.zero.
Proof.
  intro H. unfold cosineSimilarity.
  apply Nat.eqb_neq in H. now rewrite H.
Qed.

Lemma cosineSimilarity_zero_norm (a b : list float) :
  List.length a = List.length b ->
  PrimFloat.eqb (sumSquares a) PrimFloat.zero = true
  \/ PrimFloat.eqb (sumSquares b) PrimFloat.zero = true ->
  cosineSimilarity a b = PrimFloat.zero.
Proof.
  intros Hlen Hz. unfold cosineSimilarity.
  rewrite Hlen, Nat.eqb_refl. simpl.
  destruct (accumulate_norms a b PrimFloat.zero PrimFloat.zero PrimFloat.zero Hlen)
    as [dot Hfold].
  rewrite Hfold. fold (sumSquares a). fold (sumSquares b).
  destruct Hz as [Hz|Hz]; rewrite Hz; [reflexivity|].
  now rewrite orb_true_r.
Qed.

(** The copy in the search engine is the same function. *)
Lemma SearchEngine_cosineSimilarity_eq (a b : list float) :
  SearchEngine.cosineSimilarity a b = cosineSimilarity a b.
Proof. reflexivity. Qed.

(** A vector all of whose components are [0] or [-0] has norm zero. *)
Lemma sumSquares_zeros (a : list float) :
  Forall (fun x => x = PrimFloat.zero \/ x = PrimFloat.neg_zero) a ->
  sumSquares a = PrimFloat.zero.
Proof.
  unfold sumSquares. induction 1 as [|x a [-> | ->] _ IH]; simpl.
  - reflexivity.
  - exact IH.
  - exact IH.
Qed.
End Cosine.

(** ** The local embedding (C8) *)

Section LocalEmbedding.
Import EmbeddingGenerator.

Lemma updateAt_length (f : float -> float) (a : list float) :
  forall index, List.length (updateAt index f a) = List.length a.
Proof.
  induction a as [|x a IH]; intros [|index]; simpl; auto.
Qed.

Variable Math_log Math_sin fround : float -> float.
Variable options_dimensions : option nat.

Lemma scatter_length (embedding : list float) (entry : string * nat) :
  List.length (scatter Math_log Math_sin fround options_dimensions embedding entry)
  = List.length embedding.
Proof.
  unfold scatter. destruct entry as [word count]. simpl.
  now rewrite !updateAt_length.
Qed.

Lemma scatter_all_length (wordCounts : list (string * nat)) :
  forall embedding,
    List.length
      (fold_left (scatter Math_log Math_sin fround options_dimensions)
         wordCounts embedding)
    = List.length embedding.
Proof.
  induction wordCounts as [|entry wordCounts IH]; intro embedding; simpl.
  - reflexivity.
  - now rewrite IH, scatter_length.
Qed.

Lemma generateLocalEmbedding_length (text : string) :
  List.length
    (generateLocalEmbedding Math_log Math_sin fround options_dimensions text)
  = dimensions options_dimensions.
Proof.
  unfold generateLocalEmbedding.
  match goal with |- context [if ?c then _ else _] => destruct c end.
  - now rewrite length_map, scatter_all_length, repeat_length.
  - now rewrite scatter_all_length, repeat_length.
Qed.

Lemma dimensions_positive : 0 < dimensions options_dimensions.
Proof. unfold dimensions. destruct options_dimensions as [[|d]|]; lia. Qed.

(** Without an API key [generateEmbedding] is the local method. *)
Lemma generateEmbedding_local (remote : string -> result (list float)) (text : string) :
  generateEmbedding Math_log Math_sin fround options_dimensions None remote text
  = generateLocalEmbedding Math_log Math_sin fround options_dimensions text.
Proof. reflexivity. Qed.
End LocalEmbedding.

(** C8.  The local embedding of a text is a function of the text and of
    the configured dimension alone: two calls on the same text return the
    same vector, component for component, and its length is the
    dimension. *)
Theorem C8_local_embedding_deterministic :
  forall (Math_log Math_sin fround : float -> float)
         (options_dimensions : option nat) (text1 text2 : string),
    text1 = text2 ->
    EmbeddingGenerator.generateLocalEmbedding Math_log Math_sin fround
      options_dimensions text1
    = EmbeddingGenerator.generateLocalEmbedding Math_log Math_sin fround
        options_dimensions text2
    /\ List.length
         (EmbeddingGenerator.generateLocalEmbedding Math_log Math_sin fround
            options_dimensions text1)
       = EmbeddingGenerator.dimensions options_dimensions.
Proof.
  intros Math_log Math_sin fround options_dimensions text1 text2 <-.
  split; [reflexivity|apply generateLocalEmbedding_length].
Qed.

Lemma C8_witness :
  EmbeddingGenerator.generateLocalEmbedding (fun x => x) (fun x => x) (fun x => x)
    (Some 4) "let total = total + count"
  = EmbeddingGenerator.generateLocalEmbedding (fun x => x) (fun x => x) (fun x => x)
      (Some 4) "let total = total + count"
  /\ List.length
       (EmbeddingGenerator.generateLocalEmbedding (fun x => x) (fun x => x)
          (fun x => x) (Some 4) "let total = total + count")
     = 4.
Proof.
  exact (C8_local_embedding_deterministic (fun x => x) (fun x => x) (fun x => x)
           (Some 4) eq_refl).
Defined.

(** ** Chunks (C6) *)

Section Chunking.
Import JsString CodeIndexer.

Lemma append_length (a b : string) :
  String.length (String.append a b) = String.length a + String.length b.
Proof. induction a as [|c a IH]; simpl; [reflexivity|now rewrite IH]. Qed.

Lemma append_assoc (a b c : string) :
  String.append (String.append a b) c = String.append a (String.append b c).
Proof. induction a as [|ch a IH]; simpl; [reflexivity|now rewrite IH]. Qed.

Lemma isEmpty_true (s : string) : isEmpty s = true <-> s = EmptyString.
Proof. destruct s; simpl; split; congruence. Qed.

Lemma isEmpty_length (s : string) : isEmpty s = negb (0 <? String.length s).
Proof. destruct s; reflexivity. Qed.

Lemma consecutive_snoc (cs : list Chunk) :
  forall (a b : nat) (c : Chunk),
    consecutive a cs b -> startLine c = b -> b <= endLine c ->
    consecutive a (cs ++ [c]) (endLine c + 1).
Proof.
  induction cs as [|c0 cs IH]; intros a b c H Hs He; simpl in *.
  - subst. auto.
  - destruct H as [H1 [H2 H3]]. repeat split; auto. eapply IH; eauto.
Qed.

Lemma range_of_prefix (A : Type) (done more : list A) (j k : nat) :
  j + k <= List.length done ->
  firstn k (skipn j (done ++ more)) = firstn k (skipn j done).
Proof.
  intro H. rewrite skipn_app, firstn_app, length_skipn.
  replace (k - (List.length done - j)) with 0 by lia.
  now rewrite firstn_O, app_nil_r.
Qed.

Lemma chunkLines_prefix (done more : list string) (c : Chunk) :
  1 <= startLine c -> startLine c <= endLine c -> endLine c <= List.length done ->
  chunkLines (done ++ more) c = chunkLines done c.
Proof. intros H1 H2 H3. unfold chunkLines. apply range_of_prefix. lia. Qed.

Lemma chunkLines_pending (done : list string) (text : string) (first : nat) :
  1 <= first ->
  chunkLines done (codeChunk text first (List.length done)) = skipn (first - 1) done.
Proof.
  intro H. unfold chunkLines, codeChunk; simpl.
  apply firstn_all2. rewrite length_skipn. lia.
Qed.

Lemma totalLength_app (a b : list string) :
  totalLength (a ++ b) = totalLength a + totalLength b.
Proof. unfold totalLength. now rewrite map_app, list_sum_app. Qed.

Lemma nonEmptyCount_app (a b : list string) :
  nonEmptyCount (a ++ b) = nonEmptyCount a + nonEmptyCount b.
Proof. unfold nonEmptyCount. now rewrite filter_app, length_app. Qed.

Lemma nonEmptyCount_one (l : string) : nonEmptyCount [l] <= 1.
Proof. unfold nonEmptyCount. simpl. destruct (isEmpty l); simpl; lia. Qed.

Lemma totalLength_dropEmpty (ls : list string) :
  totalLength (dropEmpty ls) = totalLength ls.
Proof.
  induction ls as [|l ls IH]; simpl; [reflexivity|].
  destruct (isEmpty l) eqn:E; [|reflexivity].
  apply isEmpty_true in E. subst. exact IH.
Qed.

Lemma dropEmpty_nil_count (ls : list string) :
  dropEmpty ls = [] -> nonEmptyCount ls = 0.
Proof.
  induction ls as [|l ls IH]; simpl; [reflexivity|].
  destruct (isEmpty l) eqn:E; [|discriminate].
  intro H. unfold nonEmptyCount in *. simpl. rewrite E. simpl. now apply IH.
Qed.

Lemma join_length (ls : list string) :
  totalLength ls <= String.length (join nl ls).
Proof.
  induction ls as [|l [|l' ls] IH].
  - reflexivity.
  - unfold totalLength. simpl. lia.
  - change (join nl (l :: l' :: ls))
      with (String.append l (String.append nl (join nl (l' :: ls)))).
    rewrite !append_length.
    change (totalLength (l :: l' :: ls))
      with (String.length l + totalLength (l' :: ls)).
    lia.
Qed.

Lemma join_snoc (ls : list string) (x : string) :
  ls <> [] ->
  join nl (ls ++ [x]) = String.append (join nl ls) (String.append nl x).
Proof.
  induction ls as [|l [|l' ls] IH]; intro H.
  - congruence.
  - reflexivity.
  - change (join nl ((l :: l' :: ls) ++ [x]))
      with (String.append l (String.append nl (join nl ((l' :: ls) ++ [x])))).
    rewrite IH by discriminate.
    change (join nl (l :: l' :: ls))
      with (String.append l (String.append nl (join nl (l' :: ls)))).
    now rewrite !append_assoc.
Qed.

Lemma join_cons_empty (l : string) (ls : list string) :
  join nl (l :: ls) = EmptyString -> l = EmptyString.
Proof.
  destruct ls as [|l' ls]; simpl; [auto|].
  destruct l; [reflexivity|discriminate].
Qed.

Lemma join_dropEmpty_empty (ls : list string) :
  join nl (dropEmpty ls) = EmptyString -> dropEmpty ls = [].
Proof.
  induction ls as [|l ls IH]; simpl; [reflexivity|].
  destruct (isEmpty l) eqn:E; [exact IH|].
  intro H. apply join_cons_empty in H. subst. discriminate.
Qed.

(** The text gathered for the lines [ls] and then [line], as [chunkStep]
    builds it. *)
Lemma join_dropEmpty_snoc (ls : list string) (line : string) :
  join nl (dropEmpty (ls ++ [line])) =
  String.append (join nl (dropEmpty ls))
    (String.append
       (if isEmpty (join nl (dropEmpty ls)) then EmptyString else nl) line).
Proof.
  induction ls as [|l ls IH]; simpl.
  - destruct (isEmpty line) eqn:E; simpl; [|reflexivity].
    apply isEmpty_true in E. now subst.
  - destruct (isEmpty l) eqn:E; [exact IH|].
    change (l :: ls ++ [line]) with ((l :: ls) ++ [line]).
    rewrite join_snoc by discriminate.
    destruct (isEmpty (join nl (l :: ls))) eqn:E2; [|reflexivity].
    apply isEmpty_true, join_cons_empty in E2. subst. discriminate.
Qed.
End Chunking.

Section ChunkLoop.
Import JsString CodeIndexer.

Lemma chunkOk_prefix (done more : list string) (c : Chunk) :
  chunkOk done c -> chunkOk (done ++ more) c.
Proof.
  intros (H1 & H2 & H3 & H4 & H5). unfold chunkOk.
  rewrite chunkLines_prefix by assumption.
  rewrite length_app. repeat split; auto; lia.
Qed.

Lemma chunkInv_flush (done : list string) (st : ChunkState) :
  chunkInv done st -> currentChunk st <> EmptyString ->
  chunkStartLine st <= List.length done
  /\ chunkOk done
       (codeChunk (currentChunk st) (chunkStartLine st) (List.length done)).
Proof.
  intros (H1 & H2 & H3 & H4 & H5 & H6 & H7) Hne.
  assert (Hlt : chunkStartLine st <= List.length done).
  { destruct (le_lt_dec (chunkStartLine st) (List.length done)) as [Hle|Hgt];
      [exact Hle|].
    exfalso. apply Hne. rewrite H6, skipn_all2 by lia. reflexivity. }
  split; [exact Hlt|].
  unfold chunkOk. rewrite chunkLines_pending by assumption.
  simpl. rewrite <- H6. repeat split; auto.
Qed.

Lemma skipn_snoc (A : Type) (done : list A) (x : A) (n : nat) :
  n <= List.length done -> skipn n (done ++ [x]) = skipn n done ++ [x].
Proof.
  intro H. rewrite skipn_app.
  replace (n - List.length done) with 0 by lia. reflexivity.
Qed.

Lemma skipn_last (A : Type) (done : list A) (x : A) :
  skipn (List.length done) (done ++ [x]) = [x].
Proof. rewrite skipn_snoc by lia. now rewrite skipn_all. Qed.

Lemma chunkStep_inv (done : list string) (st : ChunkState) (line : string) :
  chunkInv done st -> chunkInv (done ++ [line]) (chunkStep st line).
Proof.
  intro Hinv. pose proof Hinv as (H1 & H2 & H3 & H4 & H5 & H6 & H7).
  unfold chunkStep.
  destruct ((maxChunkSize <? String.length (currentChunk st) + String.length line)
            && (0 <? String.length (currentChunk st))) eqn:Hcond.
  - (* the current chunk is saved and the line starts a new one *)
    apply andb_true_iff in Hcond. destruct Hcond as [_ Hpos].
    apply Nat.ltb_lt in Hpos.
    assert (Hne : currentChunk st <> EmptyString).
    { intro E. rewrite E in Hpos. simpl in Hpos. lia. }
    destruct (chunkInv_flush Hinv Hne) as [Hle Hok].
    unfold chunkInv; simpl.
    rewrite H1. replace (S (List.length done) - 1) with (List.length done) by lia.
    rewrite length_app; simpl.
    replace (S (List.length done) - 1) with (List.length done) by lia.
    rewrite skipn_last.
    repeat split; try lia.
    + replace (S (List.length done)) with
        (endLine (codeChunk (currentChunk st) (chunkStartLine st) (List.length done)) + 1)
        by (simpl; lia).
      eapply consecutive_snoc; [exact H4|reflexivity|exact Hle].
    + apply Forall_app. split.
      * eapply Forall_impl; [|exact H5]. intros c Hc. now apply chunkOk_prefix.
      * constructor; [|constructor]. now apply chunkOk_prefix.
    + simpl. destruct (isEmpty line) eqn:E; [|reflexivity].
      apply isEmpty_true in E. now subst.
    + right. apply nonEmptyCount_one.
  - (* the line joins the current chunk *)
    unfold chunkInv; simpl.
    rewrite length_app; simpl.
    rewrite skipn_snoc by lia.
    repeat split; try lia; auto.
    + eapply Forall_impl; [|exact H5]. intros c Hc. now apply chunkOk_prefix.
    + rewrite join_dropEmpty_snoc, <- H6. reflexivity.
    + destruct (isEmpty (currentChunk st)) eqn:E.
      * right. apply isEmpty_true in E. rewrite E in H6.
        symmetry in H6. apply join_dropEmpty_empty, dropEmpty_nil_count in H6.
        rewrite nonEmptyCount_app, H6. apply nonEmptyCount_one.
      * left. rewrite isEmpty_length in E. apply negb_false_iff in E.
        rewrite E, andb_true_r in Hcond. apply Nat.ltb_ge in Hcond.
        rewrite totalLength_app.
        pose proof (join_length (dropEmpty (skipn (chunkStartLine st - 1) done))) as Hj.
        rewrite totalLength_dropEmpty, <- H6 in Hj.
        unfold totalLength at 2. simpl. lia.
Qed.

Lemma chunkLoop_inv (todo : list string) :
  forall (done : list string) (st : ChunkState),
    chunkInv done st -> chunkInv (done ++ todo) (fold_left chunkStep todo st).
Proof.
  induction todo as [|line todo IH]; intros done st H; simpl.
  - now rewrite app_nil_r.
  - replace (done ++ line :: todo) with ((done ++ [line]) ++ todo)
      by now rewrite <- app_assoc.
    apply IH. now apply chunkStep_inv.
Qed.

(** The chunks of a text cover consecutive ranges of its lines from line 1
    on; the text of a chunk is the text of its lines, joined by line feeds
    and trimmed; its lines hold at most 500 characters, unless it is one
    over-long line. *)
Lemma splitIntoChunks_spec (text language : string) :
  (exists next,
      consecutive 1 (splitIntoChunks text language) next
      /\ next <= S (List.length (lines text)))
  /\ Forall (chunkOk (lines text)) (splitIntoChunks text language).
Proof.
  unfold splitIntoChunks.
  set (init := {| chunks := []; currentChunk := EmptyString;
                  chunkStartLine := 1; currentLine := 1 |}).
  assert (Hinit : chunkInv [] init).
  { unfold chunkInv, init; simpl. repeat split; auto. left. unfold totalLength. simpl.
    unfold maxChunkSize. lia. }
  pose proof (chunkLoop_inv (lines text) Hinit) as Hinv. simpl in Hinv.
  set (st := fold_left chunkStep (lines text) init) in *.
  pose proof Hinv as (H1 & H2 & H3 & H4 & H5 & H6 & H7).
  destruct (negb (isEmpty (trim (currentChunk st)))) eqn:E.
  - assert (Hne : currentChunk st <> EmptyString).
    { intro E0. rewrite E0 in E. discriminate. }
    destruct (chunkInv_flush Hinv Hne) as [Hle Hok].
    rewrite H1. replace (S (List.length (lines text)) - 1)
      with (List.length (lines text)) by lia.
    split.
    + exists (endLine (codeChunk (currentChunk st) (chunkStartLine st)
                        (List.length (lines text))) + 1).
      split; [|simpl; lia].
      eapply consecutive_snoc; [exact H4|reflexivity|exact Hle].
    + apply Forall_app. split; [exact H5|]. constructor; [exact Hok|constructor].
  - split; [|exact H5].
    exists (chunkStartLine st). split; [exact H4|lia].
Qed.
End ChunkLoop.

Section ChunkIndices.
Import JsString DatabaseManager CodeIndexer Run.

Lemma chunkStep_symbolId (todo : list string) :
  forall st,
    Forall (fun c => symbolId c = None) (chunks st) ->
    Forall (fun c => symbolId c = None) (chunks (fold_left chunkStep todo st)).
Proof.
  induction todo as [|line todo IH]; intros st H; simpl; [exact H|].
  apply IH. unfold chunkStep.
  destruct ((maxChunkSize <? _) && _); simpl; [|exact H].
  apply Forall_app. split; [exact H|]. constructor; [reflexivity|constructor].
Qed.

Lemma splitIntoChunks_symbolId (text language : string) :
  Forall (fun c => symbolId c = None) (splitIntoChunks text language).
Proof.
  unfold splitIntoChunks.
  match goal with
  | |- context [fold_left chunkStep ?ls ?init] =>
      pose proof (@chunkStep_symbolId ls init (Forall_nil _)) as H
  end.
  destruct (negb _); [|exact H].
  apply Forall_app. split; [exact H|]. constructor; [reflexivity|constructor].
Qed.

Lemma map_fst_combine (A B : Type) (l1 : list A) :
  forall l2 : list B,
    List.length l1 = List.length l2 -> map fst (combine l1 l2) = l1.
Proof.
  induction l1 as [|a l1 IH]; intros [|b l2] H; simpl; try discriminate; auto.
  injection H as H. now rewrite IH.
Qed.

Lemma map_fst_indexed (A : Type) (l : list A) :
  map fst (indexed l) = seq 0 (List.length l).
Proof. unfold indexed. apply map_fst_combine. now rewrite length_seq. Qed.

Variable generateEmbedding : string -> list float.
Variable fileId : nat.
Variable language : string.

Local Abbreviation storeChunk :=
  (CodeIndexer.storeChunk generateEmbedding fileId language).

(** Insertions are refused when enforcement is on and the file is missing. *)
Local Abbreviation refused db := (foreignKeys db && negb (fileExists db fileId)).

Lemma storeChunks_accepted (ics : list (nat * Chunk)) :
  forall db,
    refused db = false ->
    Forall (fun ic => symbolId (snd ic) = None) ics ->
    exists rows,
      embeddings (snd (forEach ics storeChunk db)) = embeddings db ++ rows
      /\ map Embedding.chunkIndex rows = map fst ics
      /\ Forall (fun e => Embedding.fileId e = fileId) rows.
Proof.
  induction ics as [|[i c] ics IH]; intros db Href Hsym; simpl.
  - exists []. rewrite app_nil_r. repeat split; constructor.
  - inversion Hsym as [|? ? Hc Hrest]; subst. simpl in Hc.
    unfold bindM at 1. unfold CodeIndexer.storeChunk at 1.
    unfold bindM, insert, insertEmbedding.
    simpl. rewrite Hc. simpl.
    rewrite orb_false_r. rewrite Href.
    simpl.
    match goal with
    | |- context [forEach ics storeChunk ?d] =>
        destruct (IH d) as (rows & E1 & E2 & E3); [exact Href|exact Hrest|]
    end.
    eexists (_ :: rows). rewrite E1. simpl. rewrite <- app_assoc. simpl.
    repeat split; [now rewrite E2|constructor; [reflexivity|exact E3]].
Qed.

Lemma storeChunks_refused (ics : list (nat * Chunk)) (db : Db) :
  refused db = true ->
  Forall (fun ic => symbolId (snd ic) = None) ics ->
  snd (forEach ics storeChunk db) = db.
Proof.
  intros Href Hsym. destruct ics as [|[i c] ics]; simpl; [reflexivity|].
  inversion Hsym as [|? ? Hc Hrest]; subst. simpl in Hc.
  unfold bindM at 1. unfold CodeIndexer.storeChunk at 1.
  unfold bindM, insert, insertEmbedding.
  simpl. rewrite Hc. simpl.
  rewrite orb_false_r, Href. reflexivity.
Qed.

Lemma increasing_ordered (rows : list Embedding.t) :
  forall k n,
    map Embedding.chunkIndex rows = seq k n ->
    ForallOrdPairs
      (fun a b => (Embedding.chunkIndex b <? Embedding.chunkIndex a) = false) rows.
Proof.
  induction rows as [|r rows IH]; intros k n H; [constructor|].
  destruct n as [|n]; [discriminate|]. simpl in H. injection H as Hr Hrows.
  constructor; [|exact (IH _ _ Hrows)].
  apply Forall_forall. intros b Hb.
  apply (in_map Embedding.chunkIndex) in Hb. rewrite Hrows in Hb.
  apply in_seq in Hb. apply Nat.ltb_ge. lia.
Qed.

Lemma filter_all (A : Type) (f : A -> bool) (l : list A) :
  Forall (fun x => f x = true) l -> filter f l = l.
Proof.
  induction 1 as [|x l Hx _ IH]; simpl; [reflexivity|]. now rewrite Hx, IH.
Qed.

(** After [generateFileEmbeddings] on a database that holds no embedding of
    the file, the embeddings of the file carry the indices 0, 1, ..., in
    this order: all the chunks, or none when the insertions are refused. *)
Lemma generateFileEmbeddings_indices (text : string) (db : Db) :
  filter (fun e => Embedding.fileId e =? fileId) (embeddings db) = [] ->
  exists k,
    k <= List.length (splitIntoChunks text language)
    /\ (foreignKeys db = false -> k = List.length (splitIntoChunks text language))
    /\ map Embedding.chunkIndex
         (getEmbeddingsByFile fileId
            (snd (generateFileEmbeddings generateEmbedding fileId text language db)))
       = seq 0 k.
Proof.
  intro Hnone. unfold generateFileEmbeddings, swallow. simpl snd.
  assert (Hsym : Forall (fun ic : nat * Chunk => symbolId (snd ic) = None)
                   (indexed (splitIntoChunks text language))).
  { apply Forall_forall. intros [i c] Hin. simpl.
    unfold indexed in Hin. apply in_combine_r in Hin.
    pose proof (splitIntoChunks_symbolId text language) as H.
    rewrite Forall_forall in H. now apply H. }
  destruct (refused db) eqn:Href.
  - exists 0. rewrite (storeChunks_refused _ Href Hsym).
    unfold getEmbeddingsByFile. rewrite Hnone.
    repeat split; [lia|].
    intro Hfk. rewrite Hfk in Href. discriminate.
  - destruct (storeChunks_accepted db Href Hsym) as (rows & E1 & E2 & E3).
    exists (List.length (splitIntoChunks text language)).
    rewrite map_fst_indexed in E2.
    unfold getEmbeddingsByFile. rewrite E1, filter_app, Hnone. simpl.
    rewrite filter_all.
    + rewrite stableSort_ordered; [|exact (increasing_ordered rows _ _ E2)].
      repeat split; auto.
    + eapply Forall_impl; [|exact E3]. intros e He. simpl in He.
      rewrite He. apply Nat.eqb_refl.
Qed.

Lemma clearEmbeddingsByFile_none (db : Db) :
  filter (fun e => Embedding.fileId e =? fileId)
    (embeddings (clearEmbeddingsByFile fileId db)) = [].
Proof.
  unfold clearEmbeddingsByFile. simpl.
  apply filter_nil_iff. intros e He. apply filter_In in He.
  destruct He as [_ He]. now apply negb_true_iff in He.
Qed.
End ChunkIndices.

Section IndexFileEmbeddings.
Import JsString DatabaseManager CodeIndexer Run.

Lemma forEach_preserves (A : Type) (P : Db -> Prop) (body : A -> M unit)
  (xs : list A) :
  (forall x db, P db -> P (snd (body x db))) ->
  forall db, P db -> P (snd (forEach xs body db)).
Proof.
  intro Hbody. induction xs as [|x xs IH]; intros db H; simpl; [exact H|].
  unfold bindM. specialize (Hbody x db H).
  destruct (body x db) as [[[]|e] db']; simpl in *; auto.
Qed.

Lemma insertSymbol_frame (db0 : Db) (fileId : nat)
  (symbol : LanguageParser.ParsedSymbol) (db : Db) :
  sameFilesAndEmbeddings db0 db ->
  sameFilesAndEmbeddings db0
    (snd ((insert (insertSymbol fileId symbol) ;;; ret tt) db)).
Proof.
  intro H. unfold bindM, insert, insertSymbol, ret.
  destruct (foreignKeys db && negb (fileExists db fileId)); simpl; exact H.
Qed.

Lemma insertDependency_frame (db0 : Db) (fileId : nat)
  (dependency : LanguageParser.ParsedDependency) (db : Db) :
  sameFilesAndEmbeddings db0 db ->
  sameFilesAndEmbeddings db0
    (snd ((targetFileRecord <--
             query (getFile (LanguageParser.importPath dependency)) ;;;
           insert (insertDependency fileId (option_map File.id targetFileRecord)
                     dependency) ;;;
           ret tt) db)).
Proof.
  intro H. unfold bindM, query, insert, insertDependency, ret. simpl.
  match goal with |- context [if ?c then _ else _] => destruct c end;
    simpl; exact H.
Qed.

Lemma storeChunk_files (generateEmbedding : string -> list float) (fileId : nat)
  (language : string) (F : list File.t) (ic : nat * Chunk) (db : Db) :
  files db = F ->
  files (snd (storeChunk generateEmbedding fileId language ic db)) = F.
Proof.
  intro H. unfold storeChunk, bindM, insert, insertEmbedding, ret. simpl.
  match goal with |- context [if ?c then _ else _] => destruct c end;
    simpl; exact H.
Qed.

Lemma find_updateRow (file : FileInput.t) (now : nat) (rows : list File.t) :
  forall row,
    find (fun f => String.eqb (File.path f) (FileInput.path file)) rows = Some row ->
    exists row',
      find (fun f => String.eqb (File.path f) (FileInput.path file))
        (map (updateRow file now) rows) = Some row'
      /\ File.id row' = File.id row.
Proof.
  induction rows as [|f rows IH]; intros row E; simpl in *; [discriminate|].
  destruct (String.eqb (File.path f) (FileInput.path file)) eqn:Ef.
  - injection E as <-. unfold updateRow. rewrite Ef. simpl. rewrite Ef.
    eexists. split; reflexivity.
  - unfold updateRow at 1. rewrite Ef, Ef. now apply IH.
Qed.

Lemma find_app_none (A : Type) (p : A -> bool) (l l' : list A) :
  find p l = None -> find p (l ++ l') = find p l'.
Proof.
  induction l as [|x l IH]; simpl; [reflexivity|].
  destruct (p x); [discriminate|exact IH].
Qed.

Lemma insertFile_getFile (file : FileInput.t) (now : nat) (db : Db) :
  exists row,
    getFile (FileInput.path file) (snd (insertFile file now db)) = Some row
    /\ File.id row = fst (insertFile file now db).
Proof.
  unfold insertFile. destruct (getFile (FileInput.path file) db) as [row|] eqn:E.
  - simpl. unfold getFile in *. simpl. now apply find_updateRow.
  - simpl. unfold getFile in *. simpl. rewrite find_app_none by exact E. simpl.
    rewrite String.eqb_refl. eexists. split; reflexivity.
Qed.

Variable fs : Fs.t.
Variable sha256 : string -> string.
Variable generateEmbedding : string -> list float.

(** After [indexFile] of a readable file, the embeddings stored for its
    file row carry the indices 0, 1, ..., without a gap, whether or not the
    run ended with an error. *)
Lemma indexFile_chunk_indices (filePath repoPath : string) (now : nat) (db : Db)
  (entry : Fs.Entry) :
  Fs.lookup fs filePath = Some entry ->
  exists row k,
    getFile (Path.relative repoPath filePath)
      (snd (indexFile fs sha256 generateEmbedding filePath repoPath now db))
    = Some row
    /\ k <= List.length
              (splitIntoChunks (Fs.text entry)
                 (LanguageParser.detectLanguage filePath))
    /\ map Embedding.chunkIndex
         (getEmbeddingsByFile (File.id row)
            (snd (indexFile fs sha256 generateEmbedding filePath repoPath now db)))
       = seq 0 k.
Proof.
  intro Hentry.
  remember (indexFile fs sha256 generateEmbedding filePath repoPath now db)
    as out eqn:Hout.
  unfold indexFile in Hout.
  unfold bindM at 1 in Hout. unfold pure at 1 in Hout.
  unfold Fs.readFile in Hout. rewrite Hentry in Hout.
  unfold bindM at 1 in Hout. unfold pure at 1 in Hout.
  unfold Fs.stat in Hout. rewrite Hentry in Hout.
  set (language := LanguageParser.detectLanguage filePath) in *.
  set (record := {| FileInput.path := Path.relative repoPath filePath;
                    FileInput.content := Fs.text entry;
                    FileInput.hash := sha256 (Fs.text entry);
                    FileInput.size := Fs.size (Fs.stats entry);
                    FileInput.language := language;
                    FileInput.lastModified := Fs.mtime (Fs.stats entry) |}) in *.
  unfold bindM at 1 in Hout.
  destruct (insertFile_getFile record now db) as (row & Hrow & Hid).
  destruct (insertFile record now db) as [fileId db1] eqn:Eins.
  simpl in Hrow, Hid. subst fileId.
  unfold bindM at 1 in Hout. unfold exec at 1 in Hout.
  unfold bindM at 1 in Hout. unfold exec at 1 in Hout.
  unfold bindM at 1 in Hout. unfold exec at 1 in Hout.
  set (db4 := clearEmbeddingsByFile (File.id row)
                (clearDependenciesByFile (File.id row)
                   (clearSymbolsByFile (File.id row) db1))) in *.
  assert (Hfiles4 : files db4 = files db1).
  { unfold db4, clearEmbeddingsByFile, clearDependenciesByFile, clearSymbolsByFile.
    destruct (foreignKeys db1); reflexivity. }
  pose proof (clearEmbeddingsByFile_none (File.id row)
                (clearDependenciesByFile (File.id row)
                   (clearSymbolsByFile (File.id row) db1))) as Hnone4.
  fold db4 in Hnone4.
  unfold bindM at 1 in Hout.
  match type of Hout with
  | context [match ?m db4 with _ => _ end] => set (structural := m) in *
  end.
  assert (Hframe : sameFilesAndEmbeddings db4 (snd (structural db4))).
  { unfold structural.
    destruct (LanguageParser.isSupported language); [|split; reflexivity].
    unfold bindM at 1. unfold pure at 1.
    destruct (LanguageParser.parseSymbols (Some (Fs.text entry)) language)
      as [symbols|e]; [|split; reflexivity].
    unfold bindM at 1.
    pose proof (forEach_preserves (sameFilesAndEmbeddings db4)
                  (fun symbol => insert (insertSymbol (File.id row) symbol) ;;; ret tt)
                  symbols (fun x d => @insertSymbol_frame db4 (File.id row) x d)
                  db4 (conj eq_refl eq_refl)) as H1.
    destruct (forEach symbols _ db4) as [[[]|e] db5]; simpl in H1; [|exact H1].
    unfold bindM at 1. unfold pure at 1.
    destruct (LanguageParser.parseDependencies (Some (Fs.text entry)) language
                (Path.relative repoPath filePath)) as [dependencies|e];
      [|exact H1].
    exact (forEach_preserves (sameFilesAndEmbeddings db4) _ dependencies
             (fun x d => @insertDependency_frame db4 (File.id row) x d) db5 H1). }
  destruct (structural db4) as [[[]|e] db5]; simpl in Hframe;
    destruct Hframe as [Hf5 He5]; subst out.
  - (* the embeddings are generated *)
    assert (Hnone5 : filter (fun e => Embedding.fileId e =? File.id row)
                       (embeddings db5) = []) by (rewrite He5; exact Hnone4).
    destruct (@generateFileEmbeddings_indices generateEmbedding (File.id row)
                language (Fs.text entry) db5 Hnone5) as (k & Hk & _ & Hseq).
    exists row, k. repeat split; [|exact Hk|exact Hseq].
    assert (Hf6 : files (snd (generateFileEmbeddings generateEmbedding (File.id row)
                                (Fs.text entry) language db5)) = files db5).
    { exact (forEach_preserves (fun d => files d = files db5) _
               (indexed (splitIntoChunks (Fs.text entry) language))
               (fun x d => @storeChunk_files generateEmbedding (File.id row)
                             language (files db5) x d) db5 eq_refl). }
    unfold getFile. rewrite Hf6, Hf5, Hfiles4. exact Hrow.
  - (* an insertion was refused before the embeddings *)
    exists row, 0. simpl snd. repeat split; [|lia|].
    + unfold getFile. rewrite Hf5, Hfiles4. exact Hrow.
    + unfold getEmbeddingsByFile. rewrite He5, Hnone4. reflexivity.
Qed.
End IndexFileEmbeddings.

(** ** The order of IEEE doubles

    The comparator of [searchCode] is the sign of a difference of scores.
    The facts below relate it to the comparison of the scores themselves:
    a difference of two doubles is negative exactly when the first is less
    than the second (the rounded difference of two distinct doubles is never
    zero), and [<=] is transitive.  They are derived from the specification
    of the binary64 operations. *)

Section FloatOrder.
Local Open Scope Z_scope.

Lemma digits2_pos_bounds (m : positive) :
  2 ^ (Zpos (digits2_pos m) - 1) <= Zpos m < 2 ^ Zpos (digits2_pos m).
Proof.
  induction m as [m IH|m IH|]; simpl digits2_pos.
  - rewrite Pos2Z.inj_succ.
    replace (Z.succ (Zpos (digits2_pos m)) - 1)
      with (Z.succ (Zpos (digits2_pos m) - 1)) by lia.
    rewrite !Z.pow_succ_r by lia. lia.
  - rewrite Pos2Z.inj_succ.
    replace (Z.succ (Zpos (digits2_pos m)) - 1)
      with (Z.succ (Zpos (digits2_pos m) - 1)) by lia.
    rewrite !Z.pow_succ_r by lia. lia.
  - simpl. lia.
Qed.

(** A shift to the right by one bit halves the mantissa. *)
Lemma shr_1_m (mrs : shr_record) :
  0 <= shr_m mrs -> shr_m (shr_1 mrs) = shr_m mrs / 2.
Proof.
  destruct mrs as [m r s]. simpl. intro H.
  destruct m as [|[p|p|]|p]; simpl; try reflexivity; try lia.
  - apply Z.div_unique with 1; lia.
  - apply Z.div_unique with 0; lia.
Qed.

Lemma iter_shr_1_m (p : positive) :
  forall mrs, 0 <= shr_m mrs ->
    shr_m (iter_pos shr_1 p mrs) = shr_m mrs / 2 ^ Zpos p.
Proof.
  induction p as [p IH|p IH|]; intros mrs H; simpl iter_pos.
  - assert (H1 : 0 <= shr_m (shr_1 mrs)).
    { rewrite shr_1_m by exact H. apply Z.div_pos; lia. }
    assert (H2 : 0 <= shr_m (iter_pos shr_1 p (shr_1 mrs))).
    { rewrite IH by exact H1. apply Z.div_pos; [exact H1|].
      apply Z.pow_pos_nonneg; lia. }
    rewrite IH by exact H2. rewrite IH by exact H1. rewrite shr_1_m by exact H.
    rewrite !Z.div_div by (try apply Z.pow_pos_nonneg; lia).
    f_equal. replace (Zpos p~1) with (1 + Zpos p + Zpos p) by lia.
    rewrite !Z.pow_add_r by lia. rewrite Z.pow_1_r. lia.
  - assert (H2 : 0 <= shr_m (iter_pos shr_1 p mrs)).
    { rewrite IH by exact H. apply Z.div_pos; [exact H|].
      apply Z.pow_pos_nonneg; lia. }
    rewrite IH by exact H2. rewrite IH by exact H.
    rewrite !Z.div_div by (try apply Z.pow_pos_nonneg; lia).
    f_equal. replace (Zpos p~0) with (Zpos p + Zpos p) by lia.
    rewrite !Z.pow_add_r by lia. lia.
  - rewrite shr_1_m by exact H. now rewrite Z.pow_1_r.
Qed.

Lemma shr_record_of_loc_m (m : Z) (l : location) :
  shr_m (shr_record_of_loc m l) = m.
Proof. destruct l as [|[]]; reflexivity. Qed.

(** Above the least exponent, the shift that brings a mantissa to its
    format keeps at least its leading bit. *)
Lemma shr_fexp_pos (m e : Z) (l : location) :
  0 < m -> -1074 <= e ->
  0 < shr_m (fst (shr_fexp prec emax m e l))
  /\ -1074 <= snd (shr_fexp prec emax m e l).
Proof.
  intros Hm He. unfold shr_fexp, shr.
  destruct m as [|p|p]; try lia. simpl Zdigits2.
  pose proof (digits2_pos_bounds p) as [Hlo _].
  set (d := Zpos (digits2_pos p)) in *.
  assert (Hfexp : fexp prec emax (d + e) = Z.max (d + e - 53) (-1074))
    by reflexivity.
  destruct (fexp prec emax (d + e) - e) as [|q|q] eqn:E; simpl fst; simpl snd.
  - rewrite shr_record_of_loc_m. lia.
  - rewrite iter_shr_1_m by (rewrite shr_record_of_loc_m; lia).
    rewrite shr_record_of_loc_m. split; [|lia].
    apply Z.div_str_pos. split; [apply Z.pow_pos_nonneg; lia|].
    apply Z.le_trans with (2 ^ (d - 1)); [|exact Hlo].
    apply Z.pow_le_mono_r; lia.
  - rewrite shr_record_of_loc_m. lia.
Qed.

Lemma round_nearest_even_pos (m : Z) (l : location) :
  0 < m -> 0 < round_nearest_even m l.
Proof.
  intro H. destruct l as [|[]]; simpl; try lia.
  destruct (Z.even m); lia.
Qed.

(** Rounding a mantissa that is not zero gives a number that is not zero
    and has the sign asked for. *)
Lemma binary_round_aux_sign (sx : bool) (m e : Z) (l : location) :
  0 < m -> -1074 <= e ->
  SFltb (binary_round_aux prec emax sx m e l) (S754_zero false) = sx.
Proof.
  intros Hm He. unfold binary_round_aux.
  pose proof (shr_fexp_pos l Hm He) as [H1 H2].
  destruct (shr_fexp prec emax m e l) as [mrs' e']. simpl fst in *. simpl snd in *.
  pose proof (shr_fexp_pos loc_Exact
                (round_nearest_even_pos (loc_of_shr_record mrs') H1) H2) as [H3 _].
  destruct (shr_fexp prec emax _ e' loc_Exact) as [mrs'' e'']. simpl fst in *.
  destruct (shr_m mrs'') as [|p|p]; try lia.
  destruct (e'' <=? emax - prec); destruct sx; reflexivity.
Qed.

Lemma binary_round_sign (sx : bool) (m : positive) (e : Z) :
  -1074 <= e ->
  SFltb (binary_round prec emax sx m e) (S754_zero false) = sx.
Proof.
  intro He. unfold binary_round, shl_align.
  assert (Hfexp : fexp prec emax (Zpos (digits2_pos m) + e)
                  = Z.max (Zpos (digits2_pos m) + e - 53) (-1074)) by reflexivity.
  destruct (fexp prec emax (Zpos (digits2_pos m) + e) - e) eqn:E;
    apply binary_round_aux_sign; lia.
Qed.

Lemma iter_xO_pow (m d : positive) :
  Zpos (Pos.iter xO m d) = Zpos m * 2 ^ Zpos d.
Proof.
  induction d as [|d IH] using Pos.peano_ind.
  - simpl. lia.
  - rewrite Pos.iter_succ, Pos2Z.inj_succ, Z.pow_succ_r by lia.
    rewrite Pos2Z.inj_xO, IH. lia.
Qed.

Lemma shl_align_value (m : positive) (e e' : Z) :
  e' <= e -> Zpos (fst (shl_align m e e')) = Zpos m * 2 ^ (e - e').
Proof.
  intro H. unfold shl_align.
  destruct (e' - e) as [|d|d] eqn:E; simpl fst.
  - replace (e - e') with 0 by lia. simpl. lia.
  - lia.
  - rewrite iter_xO_pow. f_equal. f_equal. lia.
Qed.

(** A double has at most 53 bits of mantissa, and exactly 53 unless its
    exponent is the least one. *)
Lemma valid_finite (s : bool) (m : positive) (e : Z) :
  valid_binary (S754_finite s m e) = true ->
  Zpos (digits2_pos m) <= 53 /\ -1074 <= e
  /\ (Zpos (digits2_pos m) = 53 \/ e = -1074).
Proof.
  simpl. unfold bounded, canonical_mantissa. intro H.
  apply andb_true_iff in H. destruct H as [H _].
  apply Z.eqb_eq in H.
  change (fexp prec emax (Zpos (digits2_pos m) + e))
    with (Z.max (Zpos (digits2_pos m) + e - 53) (-1074)) in H.
  lia.
Qed.

Lemma aligned_lt (mx my : positive) (ex ey : Z) :
  Zpos (digits2_pos mx) <= 53 -> Zpos (digits2_pos my) = 53 -> ex < ey ->
  Zpos mx * 2 ^ (ex - ex) < Zpos my * 2 ^ (ey - ex).
Proof.
  intros Hx Hy Hlt.
  pose proof (digits2_pos_bounds mx) as [_ Hmx].
  pose proof (digits2_pos_bounds my) as [Hmy _].
  rewrite Hy in Hmy. rewrite Z.sub_diag, Z.pow_0_r, Z.mul_1_r.
  assert (H1 : 2 ^ Zpos (digits2_pos mx) <= 2 ^ 53)
    by (apply Z.pow_le_mono_r; lia).
  assert (H2 : 2 ^ 1 <= 2 ^ (ey - ex)) by (apply Z.pow_le_mono_r; lia).
  change (2 ^ (53 - 1)) with 4503599627370496 in Hmy.
  change (2 ^ 53) with 9007199254740992 in H1.
  change (2 ^ 1) with 2 in H2.
  nia.
Qed.

(** The comparison of two doubles of one sign, by exponent and then by
    mantissa, is the comparison of their mantissas brought to the smaller
    exponent. *)
Lemma aligned_compare (sx sy : bool) (mx my : positive) (ex ey : Z) :
  valid_binary (S754_finite sx mx ex) = true ->
  valid_binary (S754_finite sy my ey) = true ->
  (Zpos mx * 2 ^ (ex - Z.min ex ey) ?= Zpos my * 2 ^ (ey - Z.min ex ey))
  = match ex ?= ey with
    | Lt => Lt
    | Gt => Gt
    | Eq => Pos.compare_cont Eq mx my
    end.
Proof.
  intros Hx Hy.
  apply valid_finite in Hx. apply valid_finite in Hy.
  destruct (Z.compare_spec ex ey) as [E|E|E].
  - subst ey. rewrite Z.min_id, Z.sub_diag, Z.pow_0_r, !Z.mul_1_r. reflexivity.
  - rewrite Z.min_l by lia. apply Z.compare_lt_iff.
    apply aligned_lt; lia.
  - rewrite Z.min_r by lia. apply Z.compare_gt_iff.
    apply aligned_lt; lia.
Qed.

Lemma SFcompare_finite (sx sy : bool) (mx my : positive) (ex ey : Z) :
  valid_binary (S754_finite sx mx ex) = true ->
  valid_binary (S754_finite sy my ey) = true ->
  SFcompare (S754_finite sx mx ex) (S754_finite sy my ey)
  = Some (cond_Zopp sx (Zpos (fst (shl_align mx ex (Z.min ex ey))))
          ?= cond_Zopp sy (Zpos (fst (shl_align my ey (Z.min ex ey))))).
Proof.
  intros Hx Hy.
  pose proof (@aligned_compare sx sy mx my ex ey Hx Hy) as H.
  rewrite <- !shl_align_value in H by lia.
  set (A := fst (shl_align mx ex (Z.min ex ey))) in *.
  set (B := fst (shl_align my ey (Z.min ex ey))) in *.
  destruct sx, sy; simpl SFcompare; simpl cond_Zopp.
  - rewrite <- Pos2Z.opp_pos. rewrite <- (Pos2Z.opp_pos B).
    rewrite Z.compare_opp. rewrite (Z.compare_antisym (Zpos A) (Zpos B)), H.
    f_equal. destruct (ex ?= ey); reflexivity.
  - reflexivity.
  - reflexivity.
  - now rewrite H.
Qed.

(** The difference of two doubles is negative exactly when the first is
    less than the second. *)
Lemma SF64sub_sign (a b : spec_float) :
  valid_binary a = true -> valid_binary b = true ->
  SFltb (SF64sub a b) (S754_zero false) = SFltb a b.
Proof.
  intros Ha Hb.
  destruct a as [sx|sx| |sx mx ex], b as [sy|sy| |sy my ey];
    try reflexivity;
    try (destruct sx; reflexivity);
    try (destruct sy; reflexivity);
    try (destruct sx, sy; reflexivity).
  unfold SFltb at 2. rewrite (@SFcompare_finite sx sy mx my ex ey Ha Hb).
  unfold SF64sub, SFsub.
  set (va := cond_Zopp sx _). set (vb := cond_Zopp sy _).
  assert (He : -1074 <= Z.min ex ey).
  { apply valid_finite in Ha. apply valid_finite in Hb. lia. }
  unfold binary_normalize.
  destruct (va - vb) as [|p|p] eqn:E.
  - replace (va ?= vb) with Eq; [reflexivity|].
    symmetry. apply Z.compare_eq_iff. lia.
  - rewrite binary_round_sign by exact He.
    replace (va ?= vb) with Gt; [reflexivity|].
    symmetry. apply Z.compare_gt_iff. lia.
  - rewrite binary_round_sign by exact He.
    replace (va ?= vb) with Lt; [reflexivity|].
    symmetry. apply Z.compare_lt_iff. lia.
Qed.

Lemma SFcompare_antisym (a b : spec_float) :
  SFcompare b a = option_map CompOpp (SFcompare a b).
Proof.
  destruct a as [[]|[]| |[] ma ea], b as [[]|[]| |[] mb eb];
    simpl; try reflexivity;
    pose proof (Pos.compare_cont_antisym ma mb Eq) as H; simpl in H;
    rewrite (Z.compare_antisym ea eb), <- H;
    destruct (ea ?= eb); simpl; try reflexivity;
    now destruct (Pos.compare_cont Eq ma mb).
Qed.

Lemma SFleb_trans (a b c : spec_float) :
  SFleb a b = true -> SFleb b c = true -> SFleb a c = true.
Proof.
  unfold SFleb.
  destruct a as [[]|[]| |[] ma ea], b as [[]|[]| |[] mb eb],
           c as [[]|[]| |[] mc ec];
    simpl; try discriminate; try reflexivity; intros Hab Hbc;
    change (Pos.compare_cont Eq) with Pos.compare in *;
    destruct (Z.compare_spec ea eb); try discriminate;
    destruct (Z.compare_spec eb ec); try discriminate;
    destruct (Z.compare_spec ea ec); try reflexivity; try lia;
    simpl in *;
    destruct (Pos.compare_spec ma mb); try discriminate;
    destruct (Pos.compare_spec mb mc); try discriminate;
    destruct (Pos.compare_spec ma mc); try reflexivity; lia.
Qed.

Lemma SFleb_not_nan (t a : spec_float) : SFleb t a = true -> a <> S754_nan.
Proof. intros H ->. now destruct t. Qed.

Lemma SFcompare_some (a b : spec_float) :
  a <> S754_nan -> b <> S754_nan -> exists c, SFcompare a b = Some c.
Proof.
  intros Ha Hb. destruct a, b; try congruence; simpl; eexists; reflexivity.
Qed.

(** The three facts on the kernel's doubles. *)
Lemma float_sub_negative (x y : float) :
  PrimFloat.ltb (PrimFloat.sub y x) PrimFloat.zero = PrimFloat.ltb y x.
Proof.
  rewrite !ltb_spec, sub_spec.
  change (Prim2SF PrimFloat.zero) with (S754_zero false).
  apply SF64sub_sign; apply Prim2SF_valid.
Qed.

Lemma float_leb_trans (x y z : float) :
  PrimFloat.leb x y = true -> PrimFloat.leb y z = true ->
  PrimFloat.leb x z = true.
Proof. rewrite !leb_spec. apply SFleb_trans. Qed.

Lemma float_ltb_leb (x y : float) :
  PrimFloat.ltb x y = true -> PrimFloat.leb x y = true.
Proof.
  rewrite ltb_spec, leb_spec. unfold SFltb, SFleb.
  now destruct (SFcompare (Prim2SF x) (Prim2SF y)) as [[]|].
Qed.

(** For numbers that are not NaN (here: at or above a threshold), the
    order is total. *)
Lemma float_not_ltb_leb (t x y : float) :
  PrimFloat.leb t x = true -> PrimFloat.leb t y = true ->
  PrimFloat.ltb y x = false -> PrimFloat.leb x y = true.
Proof.
  rewrite ltb_spec, !leb_spec. intros Hx Hy.
  apply SFleb_not_nan in Hx. apply SFleb_not_nan in Hy.
  unfold SFltb, SFleb. rewrite (SFcompare_antisym (Prim2SF y) (Prim2SF x)).
  destruct (SFcompare_some Hy Hx) as [c ->]. now destruct c.
Qed.
End FloatOrder.

(** ** Cosine similarity: zero norms and NaN (C9) *)

Section RoundingBounds.
Local Open Scope Z_scope.

Lemma shr_fexp_nonneg (m e : Z) (l : location) :
  0 <= m -> 0 <= shr_m (fst (shr_fexp prec emax m e l)).
Proof.
  intro Hm. unfold shr_fexp, shr.
  destruct (fexp prec emax (Zdigits2 m + e) - e) as [|q|q]; simpl fst;
    try (rewrite shr_record_of_loc_m; exact Hm).
  rewrite iter_shr_1_m by (rewrite shr_record_of_loc_m; exact Hm).
  rewrite shr_record_of_loc_m. apply Z.div_pos; [exact Hm|].
  apply Z.pow_pos_nonneg; lia.
Qed.

Lemma round_nearest_even_le (m : Z) (l : location) : m <= round_nearest_even m l.
Proof. destruct l as [|[]]; simpl; try lia. destruct (Z.even m); lia. Qed.

(** Rounding a mantissa that is not negative never gives NaN: the result
    is a zero, a finite number or an infinity of the sign asked for. *)
Lemma binary_round_aux_signed (sx : bool) (m e : Z) (l : location) :
  0 <= m ->
  match binary_round_aux prec emax sx m e l with
  | S754_nan => False
  | S754_zero s | S754_infinity s | S754_finite s _ _ => s = sx
  end.
Proof.
  intro Hm. unfold binary_round_aux.
  pose proof (shr_fexp_nonneg e l Hm) as H1.
  destruct (shr_fexp prec emax m e l) as [mrs' e']. simpl fst in H1.
  pose proof (round_nearest_even_le (shr_m mrs') (loc_of_shr_record mrs')) as Hr.
  assert (H2 : 0 <= round_nearest_even (shr_m mrs') (loc_of_shr_record mrs')) by lia.
  pose proof (shr_fexp_nonneg e' loc_Exact H2) as H3.
  destruct (shr_fexp prec emax _ e' loc_Exact) as [mrs'' e'']. simpl fst in H3.
  destruct (shr_m mrs'') as [|p|p]; try lia; try reflexivity.
  destruct (e'' <=? emax - prec); reflexivity.
Qed.

(** The shift that brings a mantissa to its format keeps a value of at
    least [2^k] at least [2^k], for [k] at or above the least exponent. *)
Lemma shr_fexp_above (m e : Z) (l : location) (k : Z) :
  0 < m -> -1074 <= k -> 2 ^ (k - e) <= m ->
  0 < shr_m (fst (shr_fexp prec emax m e l))
  /\ 2 ^ (k - snd (shr_fexp prec emax m e l)) <= shr_m (fst (shr_fexp prec emax m e l)).
Proof.
  intros Hm Hk Hv. unfold shr_fexp, shr.
  destruct m as [|p|p]; try lia. simpl Zdigits2.
  pose proof (digits2_pos_bounds p) as [Hlo _].
  set (d := Zpos (digits2_pos p)) in *.
  assert (Hfexp : fexp prec emax (d + e) = Z.max (d + e - 53) (-1074))
    by reflexivity.
  destruct (fexp prec emax (d + e) - e) as [|q|q] eqn:E; simpl fst; simpl snd;
    try (rewrite shr_record_of_loc_m; split; [lia|exact Hv]).
  rewrite iter_shr_1_m by (rewrite shr_record_of_loc_m; lia).
  rewrite shr_record_of_loc_m.
  assert (Hq : 2 ^ Zpos q <= Zpos p).
  { destruct (Z.max_spec (d + e - 53) (-1074)) as [[_ Hmax]|[_ Hmax]].
    - apply Z.le_trans with (2 ^ (k - e)); [|exact Hv].
      apply Z.pow_le_mono_r; lia.
    - apply Z.le_trans with (2 ^ (d - 1)); [|exact Hlo].
      apply Z.pow_le_mono_r; lia. }
  assert (Hpos : 0 < 2 ^ Zpos q) by (apply Z.pow_pos_nonneg; lia).
  split.
  - apply Z.div_str_pos. lia.
  - destruct (Z.lt_ge_cases (k - (e + Zpos q)) 0) as [Hneg|Hge].
    + rewrite Z.pow_neg_r by exact Hneg. apply Z.div_pos; lia.
    + apply Z.div_le_lower_bound; [exact Hpos|].
      rewrite <- Z.pow_add_r by lia.
      replace (Zpos q + (k - (e + Zpos q))) with (k - e) by lia. exact Hv.
Qed.

(** Rounding a value of at least [2^k] gives a positive number of at least
    [2^k], or infinity: it does not underflow to zero. *)
Lemma binary_round_aux_above (sx : bool) (m e : Z) (l : location) (k : Z) :
  0 < m -> -1074 <= k -> 2 ^ (k - e) <= m ->
  (exists m' e', binary_round_aux prec emax sx m e l = S754_finite sx m' e'
                 /\ 2 ^ (k - e') <= Zpos m')
  \/ binary_round_aux prec emax sx m e l = S754_infinity sx.
Proof.
  intros Hm Hk Hv. unfold binary_round_aux.
  pose proof (shr_fexp_above e l Hm Hk Hv) as [H1 H2].
  destruct (shr_fexp prec emax m e l) as [mrs' e']. simpl fst in *. simpl snd in *.
  pose proof (round_nearest_even_le (shr_m mrs') (loc_of_shr_record mrs')) as Hr.
  assert (H3 : 0 < round_nearest_even (shr_m mrs') (loc_of_shr_record mrs')) by lia.
  assert (H4 : 2 ^ (k - e')
               <= round_nearest_even (shr_m mrs') (loc_of_shr_record mrs')) by lia.
  pose proof (shr_fexp_above e' loc_Exact H3 Hk H4) as [H5 H6].
  destruct (shr_fexp prec emax _ e' loc_Exact) as [mrs'' e''].
  simpl fst in *. simpl snd in *.
  destruct (shr_m mrs'') as [|p|p]; try lia.
  destruct (e'' <=? emax - prec); [left|right; reflexivity].
  now exists p, e''.
Qed.
End RoundingBounds.

Section FloatOperations.
Local Open Scope Z_scope.

(** The square root of a positive double is at least [2^-537], the root
    of the least positive double. *)
Lemma SFsqrt_above (m : positive) (e : Z) :
  valid_binary (S754_finite false m e) = true ->
  atLeast (-537) (SF64sqrt (S754_finite false m e)).
Proof.
  intro Hvalid. apply valid_finite in Hvalid. destruct Hvalid as (_ & He & _).
  unfold SF64sqrt, SFsqrt, SFsqrt_core_binary.
  set (d := Zdigits2 (Zpos m)).
  set (e' := Z.min (fexp prec emax (Z.div2 (d + e + 1))) (Z.div2 e)).
  assert (He2 : 2 * Z.div2 e <= e).
  { rewrite Z.div2_div. pose proof (Z.mul_div_le e 2). lia. }
  assert (He' : 2 * e' <= e).
  { pose proof (Z.le_min_r (fexp prec emax (Z.div2 (d + e + 1))) (Z.div2 e)) as Hmin.
    fold e' in Hmin. lia. }
  set (m' := match e - 2 * e' with
             | 0 => Zpos m
             | Zpos _ => Z.shiftl (Zpos m) (e - 2 * e')
             | Zneg _ => 0
             end).
  assert (Hm' : m' = Zpos m * 2 ^ (e - 2 * e')).
  { unfold m'. destruct (e - 2 * e') as [|s|s] eqn:Es.
    - rewrite Z.pow_0_r. lia.
    - now rewrite Z.shiftl_mul_pow2 by lia.
    - lia. }
  assert (Hpow : 0 < 2 ^ (e - 2 * e')) by (apply Z.pow_pos_nonneg; lia).
  assert (Hm'pos : 0 < m') by (rewrite Hm'; lia).
  pose proof (Z.sqrtrem_sqrt m') as Hq.
  destruct (Z.sqrtrem m') as [q r]. simpl in Hq. subst q.
  assert (Hqpos : 0 < Z.sqrt m') by (apply Z.sqrt_pos; exact Hm'pos).
  assert (Hqv : 2 ^ (-537 - e') <= Z.sqrt m').
  { destruct (Z.lt_ge_cases (-537 - e') 0) as [Hneg|Hge].
    - rewrite Z.pow_neg_r by exact Hneg. lia.
    - apply Z.sqrt_le_square; [lia|apply Z.pow_nonneg; lia|].
      rewrite <- Z.pow_add_r by lia. rewrite Hm'.
      apply Z.le_trans with (1 * 2 ^ (e - 2 * e')); [|nia].
      rewrite Z.mul_1_l. apply Z.pow_le_mono_r; lia. }
  match goal with
  | |- atLeast _ (binary_round_aux _ _ _ _ _ ?l) =>
      destruct (@binary_round_aux_above false (Z.sqrt m') e' l (-537) Hqpos
                  ltac:(lia) Hqv) as [(m1 & e1 & -> & H1)| ->]
  end.
  - exact H1.
  - exact I.
Qed.

(** The product of two numbers of at least [2^-537] is positive or
    infinite: it is neither zero nor NaN. *)
Lemma SFmul_above (x y : spec_float) :
  atLeast (-537) x -> atLeast (-537) y -> atLeast (-1074) (SF64mul x y).
Proof.
  destruct x as [sx|[]| |[] mx ex]; try contradiction;
    destruct y as [sy|[]| |[] my ey]; try contradiction; intros Hx Hy;
    try exact I.
  change (2 ^ (-537 - ex) <= Zpos mx) in Hx. change (2 ^ (-537 - ey) <= Zpos my) in Hy.
  unfold SF64mul, SFmul. simpl xorb.
  assert (Hv : 2 ^ (-1074 - (ex + ey)) <= Zpos (mx * my)).
  { rewrite Pos2Z.inj_mul.
    assert (Ha : Zpos mx <= Zpos mx * Zpos my) by nia.
    assert (Hb : Zpos my <= Zpos mx * Zpos my) by nia.
    destruct (Z.lt_ge_cases (-537 - ex) 0) as [Hnx|Hgx];
      destruct (Z.lt_ge_cases (-537 - ey) 0) as [Hny|Hgy].
    - rewrite Z.pow_neg_r by lia. lia.
    - apply Z.le_trans with (2 ^ (-537 - ey)); [apply Z.pow_le_mono_r; lia|lia].
    - apply Z.le_trans with (2 ^ (-537 - ex)); [apply Z.pow_le_mono_r; lia|lia].
    - replace (-1074 - (ex + ey)) with ((-537 - ex) + (-537 - ey)) by lia.
      rewrite Z.pow_add_r by lia.
      assert (0 <= 2 ^ (-537 - ex)) by (apply Z.pow_nonneg; lia).
      assert (0 <= 2 ^ (-537 - ey)) by (apply Z.pow_nonneg; lia).
      apply Z.mul_le_mono_nonneg; lia. }
  destruct (@binary_round_aux_above false (Zpos (mx * my)) (ex + ey) loc_Exact
              (-1074) ltac:(lia) ltac:(lia) Hv) as [(m1 & e1 & -> & H1)| ->].
  - exact H1.
  - exact I.
Qed.

(** A quotient is NaN only if a term is NaN, both are infinite or both
    are zero. *)
Lemma SFdiv_not_nan (x y : spec_float) :
  match x with S754_zero _ | S754_finite _ _ _ => True | _ => False end ->
  match y with S754_infinity _ | S754_finite _ _ _ => True | _ => False end ->
  SF64div x y <> S754_nan.
Proof.
  destruct x as [sx|sx| |sx mx ex]; try contradiction;
    destruct y as [sy|sy| |sy my ey]; try contradiction; intros _ _;
    try discriminate.
  unfold SF64div, SFdiv, SFdiv_core_binary.
  set (s := ex - ey - _).
  set (m' := match s with 0 => Zpos mx | Zpos _ => Z.shiftl (Zpos mx) s | Zneg _ => 0 end).
  assert (Hm' : 0 <= m').
  { unfold m'. destruct s; try lia. apply Z.shiftl_nonneg. lia. }
  assert (Hq : 0 <= fst (Z.div_eucl m' (Zpos my))).
  { change (fst (Z.div_eucl m' (Zpos my))) with (m' / Zpos my).
    apply Z.div_pos; lia. }
  destruct (Z.div_eucl m' (Zpos my)) as [q r]. simpl in Hq.
  match goal with
  | |- binary_round_aux _ _ ?sx ?m ?e ?l <> _ =>
      pose proof (@binary_round_aux_signed sx m e l Hq) as H;
      destruct (binary_round_aux prec emax sx m e l)
  end; try discriminate. contradiction.
Qed.

Lemma SFmul_self_nonneg (x : spec_float) : nonneg (SF64mul x x).
Proof.
  destruct x as [[]|[]| |s m e]; try exact I; try reflexivity.
  unfold SF64mul, SFmul.
  pose proof (@binary_round_aux_signed (xorb s s) (Zpos (m * m)) (e + e) loc_Exact
                ltac:(lia)) as H.
  destruct (binary_round_aux prec emax (xorb s s) _ _ _);
    simpl; try exact I; rewrite H; now destruct s.
Qed.

Lemma SFadd_nonneg (x y : spec_float) :
  nonneg x -> nonneg y -> nonneg (SF64add x y).
Proof.
  destruct x as [sx|sx| |sx mx ex]; simpl; intro Hx; try subst sx;
    destruct y as [sy|sy| |sy my ey]; simpl; intro Hy; try subst sy;
    try exact I; try reflexivity.
  unfold SF64add, SFadd, cond_Zopp.
  unfold binary_normalize, binary_round.
  match goal with |- context [shl_align ?a ?b ?c] => destruct (shl_align a b c) as [mz ez] end.
  pose proof (@binary_round_aux_signed false (Zpos mz) ez loc_Exact ltac:(lia)) as H.
  destruct (binary_round_aux prec emax false _ _ _); simpl; try exact I; exact H.
Qed.
End FloatOperations.

Section NaNFree.
Import EmbeddingGenerator.

Lemma is_nan_Prim2SF (x : float) : Prim2SF x <> S754_nan -> PrimFloat.is_nan x = false.
Proof.
  intro H. destruct (PrimFloat.is_nan x) eqn:E; [|reflexivity].
  exfalso. apply H. unfold Prim2SF. now rewrite E.
Qed.

Lemma is_finite_Prim2SF (x : float) :
  PrimFloat.is_finite x = true ->
  match Prim2SF x with S754_zero _ | S754_finite _ _ _ => True | _ => False end.
Proof.
  unfold PrimFloat.is_finite. intro H.
  apply negb_true_iff, orb_false_iff in H. destruct H as [Hn Hi].
  unfold Prim2SF. rewrite Hn, Hi.
  destruct (PrimFloat.is_zero x); [exact I|].
  destruct (Z.frexp x) as [r exp].
  destruct (shr_fexp prec emax _ _ _) as [mrs e'].
  destruct (shr_m mrs); exact I.
Qed.

Lemma eqb_zero_Prim2SF (x : float) :
  PrimFloat.eqb x PrimFloat.zero = false ->
  match Prim2SF x with S754_zero _ => False | _ => True end.
Proof.
  rewrite FloatAxioms.eqb_spec. change (Prim2SF PrimFloat.zero) with (S754_zero false).
  destruct (Prim2SF x) as [[]|s| |s m e]; simpl; try discriminate; auto.
Qed.

(** A sum of squares is NaN or is not negative. *)
Lemma sumSquares_nonneg (a : list float) : nonneg (Prim2SF (sumSquares a)).
Proof.
  unfold sumSquares.
  assert (H : forall acc, nonneg (Prim2SF acc) ->
                nonneg (Prim2SF (fold_left
                                   (fun sum val => PrimFloat.add sum (PrimFloat.mul val val))
                                   a acc))).
  { induction a as [|x a IH]; intros acc Hacc; simpl; [exact Hacc|].
    apply IH. rewrite add_spec, mul_spec.
    apply SFadd_nonneg; [exact Hacc|apply SFmul_self_nonneg]. }
  apply H. reflexivity.
Qed.

(** The root of a sum of squares that is finite and not zero is at least
    [2^-537]. *)
Lemma sqrt_sumSquares_above (a : list float) :
  PrimFloat.is_finite (sumSquares a) = true ->
  PrimFloat.eqb (sumSquares a) PrimFloat.zero = false ->
  atLeast (-537) (Prim2SF (PrimFloat.sqrt (sumSquares a))).
Proof.
  intros Hfin Hz. rewrite sqrt_spec.
  pose proof (@is_finite_Prim2SF _ Hfin) as H1.
  pose proof (@eqb_zero_Prim2SF _ Hz) as H2.
  pose proof (sumSquares_nonneg a) as H3.
  pose proof (Prim2SF_valid (sumSquares a)) as H4.
  destruct (Prim2SF (sumSquares a)) as [s|s| |s m e]; try contradiction.
  simpl in H3. subst s. now apply SFsqrt_above.
Qed.

(** On vectors of one length the loop computes the dot product and the
    two sums of squares. *)
Lemma accumulate_all (a : list float) :
  forall (b : list float) (dot normA normB : float),
    List.length a = List.length b ->
    fold_left accumulate (combine a b) (dot, normA, normB)
    = (fold_left (fun sum xy => PrimFloat.add sum (PrimFloat.mul (fst xy) (snd xy)))
         (combine a b) dot,
       fold_left (fun sum val => PrimFloat.add sum (PrimFloat.mul val val)) a normA,
       fold_left (fun sum val => PrimFloat.add sum (PrimFloat.mul val val)) b normB).
Proof.
  induction a as [|x a IH]; intros [|y b] dot normA normB Hlen;
    try discriminate; simpl; [reflexivity|].
  injection Hlen as Hlen. exact (IH b _ _ _ Hlen).
Qed.

(** While the dot product and the two sums of squares are finite, the
    result is not NaN. *)
Lemma cosineSimilarity_not_nan (a b : list float) :
  List.length a = List.length b ->
  PrimFloat.is_finite (sumSquares a) = true ->
  PrimFloat.is_finite (sumSquares b) = true ->
  PrimFloat.is_finite (dotProduct a b) = true ->
  PrimFloat.is_nan (cosineSimilarity a b) = false.
Proof.
  intros Hlen Ha Hb Hd. unfold cosineSimilarity.
  rewrite Hlen, Nat.eqb_refl. simpl negb. cbv iota.
  rewrite (accumulate_all a b PrimFloat.zero PrimFloat.zero PrimFloat.zero Hlen).
  fold (sumSquares a). fold (sumSquares b). fold (dotProduct a b).
  destruct (PrimFloat.eqb (sumSquares a) PrimFloat.zero) eqn:Ea; [reflexivity|].
  destruct (PrimFloat.eqb (sumSquares b) PrimFloat.zero) eqn:Eb; [reflexivity|].
  simpl orb. cbv iota.
  apply is_nan_Prim2SF. rewrite div_spec, mul_spec.
  apply SFdiv_not_nan; [now apply is_finite_Prim2SF|].
  pose proof (@SFmul_above _ _ (@sqrt_sumSquares_above a Ha Ea)
                (@sqrt_sumSquares_above b Hb Eb)) as H.
  destruct (SF64mul _ _) as [s|[]| |[] m e]; try contradiction; exact I.
Qed.

(** C9.  Both copies of [cosineSimilarity] are total functions.  On vectors
    of different lengths they return 0; on vectors of one length of which
    one has norm zero they return 0, which is not NaN, instead of dividing
    by zero; and on vectors of one length whose dot product and two sums
    of squares are finite their result is not NaN. *)
Theorem C9_cosineSimilarity_zero_norm :
  forall a b : list float,
    (List.length a <> List.length b ->
     cosineSimilarity a b = PrimFloat.zero
     /\ SearchEngine.cosineSimilarity a b = PrimFloat.zero)
    /\ (List.length a = List.length b ->
        PrimFloat.eqb (sumSquares a) PrimFloat.zero = true
        \/ PrimFloat.eqb (sumSquares b) PrimFloat.zero = true ->
        cosineSimilarity a b = PrimFloat.zero
        /\ SearchEngine.cosineSimilarity a b = PrimFloat.zero
        /\ PrimFloat.is_nan (cosineSimilarity a b) = false
        /\ PrimFloat.is_nan (SearchEngine.cosineSimilarity a b) = false)
    /\ (List.length a = List.length b ->
        PrimFloat.is_finite (sumSquares a) = true ->
        PrimFloat.is_finite (sumSquares b) = true ->
        PrimFloat.is_finite (dotProduct a b) = true ->
        PrimFloat.is_nan (cosineSimilarity a b) = false
        /\ PrimFloat.is_nan (SearchEngine.cosineSimilarity a b) = false).
Proof.
  intros a b. split; [|split].
  - intro H. change (SearchEngine.cosineSimilarity a b) with (cosineSimilarity a b).
    split; now apply cosineSimilarity_mismatch.
  - intros Hlen Hz.
    change (SearchEngine.cosineSimilarity a b) with (cosineSimilarity a b).
    rewrite (cosineSimilarity_zero_norm a b Hlen Hz). repeat split.
  - intros Hlen Ha Hb Hd.
    change (SearchEngine.cosineSimilarity a b) with (cosineSimilarity a b).
    split; now apply cosineSimilarity_not_nan.
Qed.

Lemma C9_witness :
  (List.length [PrimFloat.zero; PrimFloat.neg_zero] = List.length [1%float; 2%float])
  /\ cosineSimilarity [PrimFloat.zero; PrimFloat.neg_zero] [1%float; 2%float]
     = PrimFloat.zero
  /\ PrimFloat.is_nan
       (cosineSimilarity [PrimFloat.zero; PrimFloat.neg_zero] [1%float; 2%float])
     = false
  /\ PrimFloat.is_nan (cosineSimilarity [1%float; 2%float] [3%float; 4%float])
     = false.
Proof.
  split; [reflexivity|].
  destruct (C9_cosineSimilarity_zero_norm
              [PrimFloat.zero; PrimFloat.neg_zero] [1%float; 2%float])
    as [_ [H _]].
  destruct (H eq_refl (or_introl eq_refl)) as [H1 [_ [H3 _]]].
  split; [exact H1|]. split; [exact H3|].
  refine (proj1 (proj2 (proj2 (C9_cosineSimilarity_zero_norm
                                 [1%float; 2%float] [3%float; 4%float]))
                   eq_refl _ _ _));
    vm_compute; reflexivity.
Defined.

(** With an infinite component the quotient is infinity over infinity:
    both copies return NaN. *)
Lemma C9_nan_counterexample :
  PrimFloat.is_nan
    (cosineSimilarity [PrimFloat.infinity; 1%float] [1%float; 1%float]) = true
  /\ PrimFloat.is_nan
       (SearchEngine.cosineSimilarity [PrimFloat.infinity; 1%float]
          [1%float; 1%float]) = true.
Proof. split; vm_compute; reflexivity. Qed.
End NaNFree.

(** ** Ranking of the search results (C5) *)

Section Ranking.
Import DatabaseManager SearchEngine.

Lemma firstn_In (A : Type) (l : list A) :
  forall k x, In x (firstn k l) -> In x l.
Proof.
  induction l as [|a l IH]; intros [|k] x H; simpl in *; try contradiction.
  destruct H as [H|H]; [now left|right; eauto].
Qed.

Lemma StronglySorted_firstn (A : Type) (R : A -> A -> Prop) (l : list A) :
  forall k, StronglySorted R l -> StronglySorted R (firstn k l).
Proof.
  induction l as [|x l IH]; intros [|k] H; simpl; try constructor.
  - apply IH. now inversion H.
  - inversion H as [|? ? _ Hall]; subst.
    rewrite Forall_forall in *. intros y Hy. apply Hall.
    eapply firstn_In; eauto.
Qed.

Lemma StronglySorted_snoc (A : Type) (R : A -> A -> Prop) (l : list A) (y : A) :
  StronglySorted R l -> Forall (fun x => R x y) l -> StronglySorted R (l ++ [y]).
Proof.
  induction 1 as [|x l Hs IH Hx]; intro Hall; simpl.
  - constructor; constructor.
  - inversion Hall; subst. constructor; [now apply IH|].
    apply Forall_app. split; [exact Hx|]. constructor; [assumption|constructor].
Qed.

Lemma sliceTo_firstn (A : Type) (stop : Z) (l : list A) :
  exists k, sliceTo stop l = firstn k l.
Proof. unfold sliceTo. destruct (stop <? 0)%Z; eexists; reflexivity. Qed.

Variable generateEmbedding : string -> list float.
Variable query : string.
Variable db : Db.

Lemma ranked_passing (lim : Z) (thr : float) (c : Scored) :
  In c (ranked generateEmbedding query lim thr db) ->
  In c (passing thr (similarities generateEmbedding query db)).
Proof.
  unfold ranked. intro H.
  destruct (sliceTo_firstn (lim * 2)
              (stableSort scoreBefore
                 (passing thr (similarities generateEmbedding query db))))
    as [k Hk].
  rewrite Hk in H. apply firstn_In in H. now apply stableSort_In in H.
Qed.

Lemma ranked_sorted (lim : Z) (thr : float) :
  StronglySorted scoredGe (ranked generateEmbedding query lim thr db).
Proof.
  unfold ranked.
  set (items := passing thr (similarities generateEmbedding query db)) in *.
  destruct (sliceTo_firstn (lim * 2) (stableSort scoreBefore items)) as [k Hk].
  rewrite Hk. apply StronglySorted_firstn.
  apply stableSort_sorted
    with (dom := fun c : Scored => PrimFloat.leb thr (snd c) = true).
  - intros x y z _ _ _ Hxy Hyz. unfold scoredGe in *.
    exact (float_leb_trans Hyz Hxy).
  - intros x y _ _ Hb. unfold scoredGe, scoreBefore in *.
    rewrite float_sub_negative in Hb. now apply float_ltb_leb.
  - intros x y Hx Hy Hb. unfold scoredGe, scoreBefore in *.
    rewrite float_sub_negative in Hb. exact (float_not_ltb_leb Hx Hy Hb).
  - apply Forall_forall. intros c Hc. unfold items, passing in Hc.
    apply filter_In in Hc. tauto.
Qed.

Section Collect.
Variable lim : Z.
Variable exts : option (list string).

Lemma toResult_score (file : File.t) (c : Scored) :
  score (toResult query file db c) = snd c.
Proof. destruct c. reflexivity. Qed.

Lemma collect_forall (P : float -> Prop) (cands : list Scored) :
  forall results,
    Forall (fun c => P (snd c)) cands ->
    Forall (fun r => P (score r)) results ->
    Forall (fun r => P (score r)) (collect query lim exts db cands results).
Proof.
  induction cands as [|c cands IH]; intros results Hc Hr; simpl; [exact Hr|].
  inversion Hc as [|? ? Hc1 Hc2]; subst.
  destruct (fileById (Embedding.fileId (fst c)) db) as [file|]; [|now apply IH].
  match goal with |- context [if negb ?w then _ else _] => destruct w end;
    simpl; [|now apply IH].
  assert (Hr' : Forall (fun r => P (score r))
                  (results ++ [toResult query file db c])).
  { apply Forall_app. split; [exact Hr|].
    constructor; [now rewrite toResult_score|constructor]. }
  match goal with |- context [if ?b then _ else _] => destruct b end;
    [exact Hr'|now apply IH].
Qed.

Lemma collect_sorted (cands : list Scored) :
  forall results,
    StronglySorted scoredGe cands ->
    StronglySorted resultGe results ->
    (forall r c, In r results -> In c cands ->
                 PrimFloat.leb (snd c) (score r) = true) ->
    StronglySorted resultGe (collect query lim exts db cands results).
Proof.
  induction cands as [|c cands IH]; intros results Hc Hr Hrc; simpl; [exact Hr|].
  inversion Hc as [|? ? Hc1 Hc2]; subst.
  assert (Hskip : StronglySorted resultGe (collect query lim exts db cands results)).
  { apply IH; auto. intros r c' Hin Hin'. apply Hrc; [exact Hin|now right]. }
  destruct (fileById (Embedding.fileId (fst c)) db) as [file|]; [|exact Hskip].
  match goal with |- context [if negb ?w then _ else _] => destruct w end;
    simpl; [|exact Hskip].
  assert (Hr' : StronglySorted resultGe (results ++ [toResult query file db c])).
  { apply StronglySorted_snoc; [exact Hr|].
    apply Forall_forall. intros r Hin. unfold resultGe.
    rewrite toResult_score. apply Hrc; [exact Hin|now left]. }
  match goal with |- context [if ?b then _ else _] => destruct b end;
    [exact Hr'|].
  apply IH; auto.
  intros r c' Hin Hin'. apply in_app_or in Hin. destruct Hin as [Hin|[<-|[]]].
  - apply Hrc; [exact Hin|now right].
  - rewrite toResult_score. rewrite Forall_forall in Hc2. now apply Hc2.
Qed.

Lemma collect_length (cands : list Scored) :
  forall results,
    (Z.of_nat (List.length results) < lim)%Z \/ cands = [] ->
    (Z.of_nat (List.length (collect query lim exts db cands results))
     <= Z.max lim (Z.of_nat (List.length results)))%Z.
Proof.
  induction cands as [|c cands IH]; intros results H; simpl; [lia|].
  destruct H as [H|H]; [|discriminate].
  assert (Hskip : (Z.of_nat (List.length (collect query lim exts db cands results))
                   <= Z.max lim (Z.of_nat (List.length results)))%Z)
    by (apply IH; now left).
  destruct (fileById (Embedding.fileId (fst c)) db) as [file|]; [|exact Hskip].
  match goal with |- context [if negb ?w then _ else _] => destruct w end;
    simpl; [|exact Hskip].
  destruct (lim <=? Z.of_nat (List.length (results ++ [toResult query file db c])))%Z
    eqn:E.
  - rewrite length_app in *. simpl in *. lia.
  - apply Z.leb_gt in E.
    specialize (IH (results ++ [toResult query file db c]) (or_introl E)).
    rewrite length_app in *. simpl in *. lia.
Qed.
End Collect.

(** C5.  The results of [searchCode] all score at or above the threshold;
    for a limit that is not negative there are at most [limit] of them; and
    they are in non-increasing order of score. *)
Theorem C5_searchCode_ranked :
  forall options : SearchOptions,
    let results := searchCode generateEmbedding query options db in
    Forall (fun r => PrimFloat.leb (thresholdOf options) (score r) = true) results
    /\ ((0 <= limitOf options)%Z ->
        (Z.of_nat (List.length results) <= limitOf options)%Z)
    /\ StronglySorted resultGe results.
Proof.
  intros options results. subst results. unfold searchCode.
  set (lim := limitOf options). set (thr := thresholdOf options).
  assert (Hpass : Forall (fun c : Scored => PrimFloat.leb thr (snd c) = true)
                    (ranked generateEmbedding query lim thr db)).
  { apply Forall_forall. intros c Hc. apply ranked_passing in Hc.
    unfold passing in Hc. apply filter_In in Hc. tauto. }
  repeat split.
  - apply (collect_forall lim (fileExtensions options)
             (fun s => PrimFloat.leb thr s = true)); [exact Hpass|constructor].
  - intro Hlim.
    pose proof (@collect_length lim (fileExtensions options)
                  (ranked generateEmbedding query lim thr db) []) as H.
    simpl in H. rewrite Z.max_l in H by lia. apply H.
    destruct (Z.eq_dec lim 0) as [E|E]; [right|left; lia].
    unfold ranked, sliceTo. rewrite E. reflexivity.
  - apply collect_sorted.
    + apply ranked_sorted.
    + constructor.
    + intros r c [].
Qed.
End Ranking.

(** ** References (C7) *)

Section References.
Import DatabaseManager SearchEngine.

Variable newRegExp : string -> result RegExp.

Lemma isDefinition_false (symbols : list Symbol.t) (file : File.t) (lineIndex : nat) :
  isDefinition symbols file lineIndex = false ->
  forall s, In s symbols -> Symbol.fileId s = File.id file ->
    ~ (Symbol.startLine s <= lineIndex + 1 /\ lineIndex + 1 <= Symbol.endLine s).
Proof.
  unfold isDefinition. intros H s Hs Hid [H1 H2].
  assert (Hex : existsb
                  (fun s => (Symbol.fileId s =? File.id file)
                            && (Symbol.startLine s <=? lineIndex + 1)
                            && (lineIndex + 1 <=? Symbol.endLine s)) symbols = true).
  { apply existsb_exists. exists s. split; [exact Hs|].
    apply Nat.eqb_eq in Hid. apply Nat.leb_le in H1, H2.
    now rewrite Hid, H1, H2. }
  rewrite Hex in H. discriminate.
Qed.

Lemma usagesInLine_outside (symbolRegex : RegExp) (symbols : list Symbol.t)
  (file : File.t) (lineIndex : nat) (line : string) (fuel : nat) :
  forall lastIndex results out,
    Forall (outsideDefinitions symbols) results ->
    usagesInLine fuel symbolRegex symbols file lineIndex line lastIndex results
    = Some out ->
    Forall (outsideDefinitions symbols) out.
Proof.
  induction fuel as [|fuel IH]; intros lastIndex results out Hres H; simpl in H.
  - discriminate.
  - destruct (symbolRegex line lastIndex) as [[matchIndex lastIndex']|].
    + eapply IH; [|exact H].
      destruct (isDefinition symbols file lineIndex) eqn:E; simpl; [exact Hres|].
      apply Forall_app. split; [exact Hres|]. constructor; [|constructor].
      intros _ s Hs Hid. simpl in *.
      exact (@isDefinition_false symbols file lineIndex E s Hs Hid).
    + injection H as <-. exact Hres.
Qed.

Lemma usagesInLines_outside (symbolRegex : RegExp) (symbols : list Symbol.t)
  (file : File.t) (fuel : nat) (numbered : list (nat * string)) :
  forall results out,
    Forall (outsideDefinitions symbols) results ->
    usagesInLines fuel symbolRegex symbols file numbered results = Some out ->
    Forall (outsideDefinitions symbols) out.
Proof.
  induction numbered as [|[lineIndex line] numbered IH];
    intros results out Hres H; simpl in H.
  - injection H as <-. exact Hres.
  - destruct (usagesInLine fuel symbolRegex symbols file lineIndex line 0 results)
      as [results'|] eqn:E; [|discriminate].
    eapply IH; [|exact H]. eapply usagesInLine_outside; eauto.
Qed.

Lemma usagesInFiles_outside (symbolRegex : RegExp) (symbols : list Symbol.t)
  (fuel : nat) (allFiles : list File.t) :
  forall results out,
    Forall (outsideDefinitions symbols) results ->
    usagesInFiles fuel symbolRegex symbols allFiles results = Some out ->
    Forall (outsideDefinitions symbols) out.
Proof.
  induction allFiles as [|file allFiles IH]; intros results out Hres H; simpl in H.
  - injection H as <-. exact Hres.
  - destruct (usagesInLines fuel symbolRegex symbols file
                (indexed (JsString.lines (File.content file))) results)
      as [results'|] eqn:E; [|discriminate].
    eapply IH; [|exact H]. eapply usagesInLines_outside; eauto.
Qed.

Lemma definitions_type (symbols : list Symbol.t) (filePath : option string)
  (db : Db) (r : ReferenceResult) :
  In r (definitions symbols filePath db) -> refType r = Definition_.
Proof.
  unfold definitions. intro H. apply in_flat_map in H.
  destruct H as [s [_ H]].
  destruct (fileById (Symbol.fileId s) db) as [file|]; [|contradiction].
  destruct filePath as [wanted|].
  - destruct (negb (JsString.isEmpty wanted) && negb (String.eqb (File.path file) wanted));
      [contradiction|].
    destruct H as [<-|[]]. reflexivity.
  - destruct H as [<-|[]]. reflexivity.
Qed.

Lemma usagesInLine_ends (symbolRegex : RegExp) (symbols : list Symbol.t)
  (file : File.t) (lineIndex : nat) (line : string) :
  advances symbolRegex ->
  forall fuel lastIndex results,
    String.length line + 1 - lastIndex < fuel ->
    exists out,
      usagesInLine fuel symbolRegex symbols file lineIndex line lastIndex results
      = Some out.
Proof.
  intro Hadv. induction fuel as [|fuel IH]; intros lastIndex results Hfuel; [lia|].
  simpl. destruct (symbolRegex line lastIndex) as [[matchIndex lastIndex']|] eqn:E.
  - apply Hadv in E. apply IH. lia.
  - eexists. reflexivity.
Qed.

Lemma usagesInLines_ends (symbolRegex : RegExp) (symbols : list Symbol.t)
  (file : File.t) (fuel : nat) :
  advances symbolRegex ->
  forall numbered results,
    Forall (fun il : nat * string => String.length (snd il) + 1 < fuel) numbered ->
    exists out,
      usagesInLines fuel symbolRegex symbols file numbered results = Some out.
Proof.
  intro Hadv. induction numbered as [|[lineIndex line] numbered IH];
    intros results Hlen; simpl.
  - eexists. reflexivity.
  - inversion Hlen as [|? ? Hline Hrest]; subst. simpl in Hline.
    destruct (@usagesInLine_ends symbolRegex symbols file lineIndex line Hadv
                fuel 0 results) as [out E]; [lia|].
    rewrite E. now apply IH.
Qed.

(** [getReferences] returns when the expression of the name matches no
    empty string: enough turns are a few more than the longest line. *)
Lemma getReferences_returns (fuel : nat) (symbolName : string)
  (filePath : option string) (db : Db) :
  (forall symbolRegex, newRegExp symbolName = Ok symbolRegex -> advances symbolRegex) ->
  Forall
    (fun f => Forall (fun line => String.length line + 1 < fuel)
                (JsString.lines (File.content f)))
    (getAllFiles db) ->
  exists results, getReferences newRegExp fuel symbolName filePath db = Some results.
Proof.
  intros Hadv Hlen. unfold getReferences.
  destruct (newRegExp symbolName) as [symbolRegex|e]; [|eexists; reflexivity].
  specialize (Hadv symbolRegex eq_refl).
  generalize (definitions (findSymbolsByName symbolName None db) filePath db).
  induction Hlen as [|file allFiles Hfile _ IH]; intro results; simpl.
  - eexists. reflexivity.
  - destruct (@usagesInLines_ends symbolRegex
                (findSymbolsByName symbolName None db) file fuel Hadv
                (indexed (JsString.lines (File.content file))) results)
      as [out E].
    + apply Forall_forall. intros [i line] Hin. simpl.
      unfold indexed in Hin. apply in_combine_r in Hin.
      rewrite Forall_forall in Hfile. now apply Hfile.
    + rewrite E. apply IH.
Qed.
(** C7.  No result of [getReferences] of type 'usage' lies on a line inside
    the span of a definition of the symbol in the same file; and
    [getReferences] does return its results, when the expression of the
    name matches no empty string. *)
Theorem C7_usages_outside_definitions :
  forall (fuel : nat) (symbolName : string) (filePath : option string) (db : Db),
    (forall results : list ReferenceResult,
        getReferences newRegExp fuel symbolName filePath db = Some results ->
        forall r, In r results -> refType r = Usage ->
        forall s, In s (findSymbolsByName symbolName None db) ->
          Symbol.fileId s = File.id (refFile r) ->
          ~ (Symbol.startLine s <= refLine r /\ refLine r <= Symbol.endLine s))
    /\ ((forall symbolRegex,
            newRegExp symbolName = Ok symbolRegex -> advances symbolRegex) ->
        Forall
          (fun f => Forall (fun line => String.length line + 1 < fuel)
                      (JsString.lines (File.content f)))
          (getAllFiles db) ->
        exists results,
          getReferences newRegExp fuel symbolName filePath db = Some results).
Proof.
  intros fuel symbolName filePath db. split.
  - intros results H r Hr Hu.
    unfold getReferences in H.
    assert (Hall : Forall (outsideDefinitions (findSymbolsByName symbolName None db))
                     results).
    { destruct (newRegExp symbolName) as [symbolRegex|e].
      - eapply usagesInFiles_outside; [|exact H].
        apply Forall_forall. intros d Hd Hdu.
        apply definitions_type in Hd. congruence.
      - injection H as <-. constructor. }
    rewrite Forall_forall in Hall. exact (Hall r Hr Hu).
  - apply getReferences_returns.
Qed.

End References.

(** ** The chunks of a file and their indices (C6) *)

Section ChunksOfAFile.
Import JsString DatabaseManager CodeIndexer.

(** A text of one line of 501 letters is one chunk of 501 characters: a
    line is never split, so a chunk can be longer than the maximum. *)
Lemma C6_long_line_counterexample :
  exists c,
    splitIntoChunks (Example.letters 501) "javascript" = [c]
    /\ startLine c = 1 /\ endLine c = 1
    /\ String.length (content c) = 501
    /\ maxChunkSize < String.length (content c).
Proof.
  eexists. split; [vm_compute; reflexivity|].
  vm_compute. repeat split. repeat constructor.
Qed.

(** C6, amended.  The chunks of a text cover consecutive ranges of whole
    lines from line 1 on; the text of a chunk is the text of its lines
    (without the empty lines at its head), joined by line feeds and
    trimmed; the lines of a chunk hold at most 500 characters, unless the
    chunk has at most one non-empty line.  After [indexFile] of a readable
    file the embeddings stored for it carry the chunk indices 0, 1, ...,
    k - 1 for some k. *)
Theorem C6_chunks_cover_whole_lines :
  (forall text language : string,
      (exists next,
          consecutive 1 (splitIntoChunks text language) next
          /\ next <= S (List.length (lines text)))
      /\ Forall (chunkOk (lines text)) (splitIntoChunks text language))
  /\ (forall (fs : Fs.t) (sha256 : string -> string)
             (generateEmbedding : string -> list float)
             (filePath repoPath : string) (now : nat) (db : Db) (entry : Fs.Entry),
         Fs.lookup fs filePath = Some entry ->
         exists row k,
           getFile (Path.relative repoPath filePath)
             (snd (indexFile fs sha256 generateEmbedding filePath repoPath now db))
           = Some row
           /\ k <= List.length
                     (splitIntoChunks (Fs.text entry)
                        (LanguageParser.detectLanguage filePath))
           /\ map Embedding.chunkIndex
                (getEmbeddingsByFile (File.id row)
                   (snd (indexFile fs sha256 generateEmbedding filePath repoPath
                           now db)))
              = seq 0 k).
Proof.
  split.
  - intros text language. apply splitIntoChunks_spec.
  - intros. now apply indexFile_chunk_indices.
Qed.

Lemma C6_witness :
  Forall (chunkOk (lines Example.bText)) (splitIntoChunks Example.bText "javascript")
  /\ exists row k,
       getFile (Path.relative "/repo" "/repo/b.js")
         (snd (indexFile Example.tree (fun s => s) Example.embed
                 "/repo/b.js" "/repo" 10 initialize))
       = Some row
       /\ k <= List.length
                 (splitIntoChunks Example.bText
                    (LanguageParser.detectLanguage "/repo/b.js"))
       /\ map Embedding.chunkIndex
            (getEmbeddingsByFile (File.id row)
               (snd (indexFile Example.tree (fun s => s) Example.embed
                       "/repo/b.js" "/repo" 10 initialize)))
          = seq 0 k.
Proof.
  split.
  - exact (proj2 (proj1 C6_chunks_cover_whole_lines Example.bText "javascript")).
  - refine (proj2 C6_chunks_cover_whole_lines Example.tree (fun s => s)
              Example.embed "/repo/b.js" "/repo" 10 initialize
              {| Fs.text := Example.bText;
                 Fs.stats := {| Fs.size := 61; Fs.mtime := 2000 |} |} _).
    vm_compute. reflexivity.
Defined.
End ChunksOfAFile.

(** ** The example repository, searched *)

Section Searched.
Import DatabaseManager SearchEngine.

Lemma C5_witness :
  Forall (fun r => PrimFloat.leb defaultThreshold (score r) = true)
    (searchCode Example.embed "add"
       {| limit := None; fileExtensions := None; threshold := None |}
       (Example.indexed (fun s => s) Example.embed "/repo"))
  /\ (Z.of_nat
        (List.length
           (searchCode Example.embed "add"
              {| limit := None; fileExtensions := None; threshold := None |}
              (Example.indexed (fun s => s) Example.embed "/repo")))
      <= 10)%Z
  /\ StronglySorted resultGe
       (searchCode Example.embed "add"
          {| limit := None; fileExtensions := None; threshold := None |}
          (Example.indexed (fun s => s) Example.embed "/repo")).
Proof.
  destruct (C5_searchCode_ranked Example.embed "add"
              (Example.indexed (fun s => s) Example.embed "/repo")
              {| limit := None; fileExtensions := None; threshold := None |})
    as (H1 & H2 & H3).
  split; [exact H1|]. split; [|exact H3].
  apply H2. vm_compute. discriminate.
Defined.

(** In the example the search for [add] returns the chunk of [a.js], with
    score 0.8; the chunk of [b.js] scores 0.6 and is left out. *)
Lemma searchCode_example :
  map (fun r => (File.path (file r), score r))
    (searchCode Example.embed "add"
       {| limit := None; fileExtensions := None; threshold := None |}
       (Example.indexed (fun s => s) Example.embed "/repo"))
  = [("a.js", PrimFloat.div 4 5)].
Proof. vm_compute. reflexivity. Qed.

Lemma C7_witness :
  exists results,
    getReferences Example.wordRegExp 100 "add" None
      (Example.indexed (fun s => s) Example.embed "/repo") = Some results
    /\ map (fun r => (File.path (refFile r), refLine r, refType r)) results
       = [("a.js", 1, Definition_); ("b.js", 1, Usage); ("b.js", 2, Usage)]
    /\ forall r, In r results -> refType r = Usage ->
       forall s,
         In s (findSymbolsByName "add" None
                 (Example.indexed (fun s => s) Example.embed "/repo")) ->
         Symbol.fileId s = File.id (refFile r) ->
         ~ (Symbol.startLine s <= refLine r /\ refLine r <= Symbol.endLine s).
Proof.
  eexists. split; [vm_compute; reflexivity|].
  split; [vm_compute; reflexivity|].
  refine (proj1 (C7_usages_outside_definitions Example.wordRegExp 100 "add" None
                   (Example.indexed (fun s => s) Example.embed "/repo")) _ _).
  vm_compute. reflexivity.
Defined.
End Searched.

(* ================================================================== *)
(** * Further properties of the code *)
(* ================================================================== *)

(** ** Files: insert, find, delete *)

Section Files.
Import DatabaseManager.

Lemma updateRow_path (file : FileInput.t) (now : nat) (row : File.t) :
  File.path (updateRow file now row) = File.path row.
Proof. unfold updateRow. now destruct (String.eqb _ _). Qed.

Lemma updateRow_id (file : FileInput.t) (now : nat) (row : File.t) :
  File.id (updateRow file now row) = File.id row.
Proof. unfold updateRow. now destruct (String.eqb _ _). Qed.

Lemma find_path_updateRow (file : FileInput.t) (now : nat) (rows : list File.t) :
  forall old,
    find (fun f => String.eqb (File.path f) (FileInput.path file)) rows = Some old ->
    find (fun f => String.eqb (File.path f) (FileInput.path file))
      (map (updateRow file now) rows)
    = Some (rowOf (File.id old) file now).
Proof.
  induction rows as [|r rows IH]; intros old H; simpl in *; [discriminate|].
  rewrite updateRow_path.
  destruct (String.eqb (File.path r) (FileInput.path file)) eqn:E.
  - injection H as <-. unfold updateRow. rewrite E.
    apply String.eqb_eq in E. unfold rowOf. now rewrite E.
  - now apply IH.
Qed.

Lemma find_other_updateRow (file : FileInput.t) (now : nat) (p : string)
  (rows : list File.t) :
  p <> FileInput.path file ->
  find (fun f => String.eqb (File.path f) p) (map (updateRow file now) rows)
  = find (fun f => String.eqb (File.path f) p) rows.
Proof.
  intro Hp. induction rows as [|r rows IH]; simpl; [reflexivity|].
  rewrite updateRow_path.
  destruct (String.eqb (File.path r) p) eqn:E; [|exact IH].
  unfold updateRow.
  destruct (String.eqb (File.path r) (FileInput.path file)) eqn:E'; [|reflexivity].
  apply String.eqb_eq in E, E'. congruence.
Qed.

Lemma find_snoc_none (A : Type) (p : A -> bool) (l : list A) (x : A) :
  find p l = None -> find p (l ++ [x]) = if p x then Some x else None.
Proof.
  induction l as [|a l IH]; simpl; intro H; [reflexivity|].
  destruct (p a); [discriminate|now apply IH].
Qed.

Lemma find_snoc_other (A : Type) (p : A -> bool) (l : list A) (x : A) :
  p x = false -> find p (l ++ [x]) = find p l.
Proof.
  intro Hx. induction l as [|a l IH]; simpl; [now rewrite Hx|].
  now destruct (p a).
Qed.

(** X1.  What [insertFile] writes is what [getFile] reads back under the
    same path, the rows of the other paths are as before, and a path that
    was stored keeps its id and adds no row. *)
Theorem X1_insertFile_then_getFile :
  forall (file : FileInput.t) (now : nat) (db : Db),
    let id := fst (insertFile file now db) in
    let db' := snd (insertFile file now db) in
    getFile (FileInput.path file) db' = Some (rowOf id file now)
    /\ (forall p, p <> FileInput.path file -> getFile p db' = getFile p db)
    /\ match getFile (FileInput.path file) db with
       | Some old =>
           id = File.id old /\ List.length (files db') = List.length (files db)
       | None =>
           id = nextFileId db
           /\ List.length (files db') = S (List.length (files db))
       end.
Proof.
  intros file now db. unfold insertFile.
  destruct (getFile (FileInput.path file) db) as [old|] eqn:E; simpl.
  - unfold getFile in *; simpl. repeat split.
    + now apply find_path_updateRow.
    + intros p Hp. now apply find_other_updateRow.
    + now rewrite length_map.
  - unfold getFile in *; simpl. repeat split.
    + rewrite (find_snoc_none _ _ _ E). simpl. now rewrite String.eqb_refl.
    + intros p Hp. apply find_snoc_other. simpl.
      apply String.eqb_neq. congruence.
    + rewrite length_app. simpl. lia.
Qed.

Lemma find_none_forall (A : Type) (p : A -> bool) (l : list A) :
  find p l = None -> forall x, In x l -> p x = false.
Proof.
  induction l as [|a l IH]; simpl; intros H x Hx; [contradiction|].
  destruct (p a) eqn:E; [discriminate|].
  destruct Hx as [<-|Hx]; auto.
Qed.

Lemma NoDup_snoc (A : Type) (l : list A) (x : A) :
  NoDup l -> ~ In x l -> NoDup (l ++ [x]).
Proof.
  intros Hl Hx. apply NoDup_app; [exact Hl|constructor; [intros []|constructor]|].
  intros a Ha [<-|[]]. contradiction.
Qed.

(** A column without duplicates has none after rows are deleted. *)
Lemma column_NoDup_filter (B : Type) (column : File.t -> B) (keep : File.t -> bool)
  (rows : list File.t) :
  NoDup (map column rows) -> NoDup (map column (filter keep rows)).
Proof.
  intro Hrows. induction rows as [|row rows IH]; simpl; [constructor|].
  inversion Hrows as [|? ? Hnot Hrest]; subst.
  destruct (keep row); simpl; [|now apply IH].
  constructor; [|now apply IH].
  intro Hin. apply Hnot. apply in_map_iff in Hin.
  destruct Hin as [x [Hfx Hx]]. apply filter_In in Hx.
  apply in_map_iff. exists x. tauto.
Qed.

Lemma deleteFile_files (path : string) (db : Db) :
  files (deleteFile path db)
  = filter (fun f => negb (String.eqb (File.path f) path)) (files db).
Proof. unfold deleteFile. now destruct (foreignKeys db). Qed.

Lemma deleteFile_nextFileId (path : string) (db : Db) :
  nextFileId (deleteFile path db) = nextFileId db.
Proof. unfold deleteFile. now destruct (foreignKeys db). Qed.

(** X2.  The table of files keeps its shape: it starts with, and
    [insertFile] and [deleteFile] keep, distinct paths, distinct ids and
    ids below the next id. *)
Theorem X2_files_table_invariant :
  filesOk initialize
  /\ (forall file now db, filesOk db -> filesOk (snd (insertFile file now db)))
  /\ (forall path db, filesOk db -> filesOk (deleteFile path db)).
Proof.
  split; [|split].
  - repeat split; constructor.
  - intros file now db (Hpaths & Hids & Hlt). unfold insertFile.
    destruct (getFile (FileInput.path file) db) as [old|] eqn:E;
      unfold filesOk; simpl.
    + rewrite !map_map.
      rewrite (map_ext (fun x => File.path (updateRow file now x)) File.path)
        by (intro; apply updateRow_path).
      rewrite (map_ext (fun x => File.id (updateRow file now x)) File.id)
        by (intro; apply updateRow_id).
      repeat split; auto.
      rewrite Forall_forall in *. intros x Hx.
      apply in_map_iff in Hx. destruct Hx as [r [<- Hr]].
      rewrite updateRow_id. now apply Hlt.
    + rewrite !map_app. simpl. repeat split.
      * apply NoDup_snoc; [exact Hpaths|].
        intro Hin. apply in_map_iff in Hin. destruct Hin as [r [Hp Hr]].
        pose proof (find_none_forall _ _ E r Hr) as Hne. simpl in Hne.
        apply String.eqb_neq in Hne. contradiction.
      * apply NoDup_snoc; [exact Hids|].
        intro Hin. apply in_map_iff in Hin. destruct Hin as [r [Hp Hr]].
        rewrite Forall_forall in Hlt. specialize (Hlt r Hr). lia.
      * apply Forall_app. split.
        -- eapply Forall_impl; [|exact Hlt]. simpl. intros; lia.
        -- constructor; [simpl; lia|constructor].
  - intros path db (Hpaths & Hids & Hlt). unfold filesOk.
    rewrite deleteFile_files, deleteFile_nextFileId. repeat split.
    + now apply column_NoDup_filter.
    + now apply column_NoDup_filter.
    + rewrite Forall_forall in *. intros x Hx. apply filter_In in Hx. now apply Hlt.
Qed.

Lemma X2_witness :
  filesOk
    (snd (insertFile
            {| FileInput.path := "a.js"; FileInput.content := "x";
               FileInput.hash := "h"; FileInput.size := 1;
               FileInput.language := "javascript";
               FileInput.lastModified := 7 |} 10
            (deleteFile "a.js"
               (snd (insertFile
                       {| FileInput.path := "a.js"; FileInput.content := "";
                          FileInput.hash := ""; FileInput.size := 0;
                          FileInput.language := "javascript";
                          FileInput.lastModified := 5 |} 9 initialize))))).
Proof.
  destruct X2_files_table_invariant as (H0 & Hins & Hdel).
  apply Hins, Hdel, Hins, H0.
Defined.

Lemma filter_all_true (A : Type) (p : A -> bool) (l : list A) :
  (forall x, In x l -> p x = true) -> filter p l = l.
Proof.
  induction l as [|a l IH]; simpl; intro H; [reflexivity|].
  rewrite (H a (or_introl eq_refl)). f_equal. apply IH. intros; apply H; now right.
Qed.

Lemma find_filter_other (p : string) (path : string) (rows : list File.t) :
  p <> path ->
  find (fun f => String.eqb (File.path f) p)
    (filter (fun f => negb (String.eqb (File.path f) path)) rows)
  = find (fun f => String.eqb (File.path f) p) rows.
Proof.
  intro Hp. induction rows as [|r rows IH]; simpl; [reflexivity|].
  destruct (String.eqb (File.path r) path) eqn:E; simpl.
  - destruct (String.eqb (File.path r) p) eqn:E'; [|exact IH].
    apply String.eqb_eq in E, E'. congruence.
  - now destruct (String.eqb (File.path r) p).
Qed.

Lemma find_filter_same (path : string) (rows : list File.t) :
  find (fun f => String.eqb (File.path f) path)
    (filter (fun f => negb (String.eqb (File.path f) path)) rows) = None.
Proof.
  induction rows as [|r rows IH]; simpl; [reflexivity|].
  destruct (String.eqb (File.path r) path) eqn:E; simpl; [exact IH|].
  now rewrite E.
Qed.

(** X3.  After [deleteFile] the path is not found and every other path is
    found as before; deleting a path that is not stored changes nothing. *)
Theorem X3_deleteFile_then_getFile :
  forall (path : string) (db : Db),
    getFile path (deleteFile path db) = None
    /\ (forall p, p <> path -> getFile p (deleteFile path db) = getFile p db)
    /\ (getFile path db = None -> deleteFile path db = db).
Proof.
  intros path db. unfold getFile. rewrite !deleteFile_files. repeat split.
  - apply find_filter_same.
  - intros p Hp. now apply find_filter_other.
  - intro Hnone.
    assert (Hkeep : filter (fun f => negb (String.eqb (File.path f) path)) (files db)
                    = files db).
    { apply filter_all_true. intros x Hx.
      now rewrite (find_none_forall _ _ Hnone x Hx). }
    assert (Hgone : filter (fun f => String.eqb (File.path f) path) (files db) = []).
    { apply filter_nil_iff. intros x Hx. exact (find_none_forall _ _ Hnone x Hx). }
    unfold deleteFile. rewrite Hkeep, Hgone. simpl.
    destruct db as [fk fs ss es ds n1 n2 n3 n4]; simpl in *.
    destruct fk; [|reflexivity].
    unfold cascadeDelete; simpl. f_equal.
    + apply filter_all_true. reflexivity.
    + assert (Hss : filter (fun _ : Symbol.t => false) ss = [])
        by (now apply filter_nil_iff).
      rewrite Hss. apply filter_all_true. intros e _.
      destruct (Embedding.symbolId e); reflexivity.
    + apply filter_all_true. intros d _.
      destruct (Dependency.targetFileId d); reflexivity.
Qed.
End Files.

(** ** Clearing the rows of a file *)

Section Cleared.
Import DatabaseManager.

Lemma filter_negb_same (A : Type) (p : A -> bool) (l : list A) :
  filter p (filter (fun x => negb (p x)) l) = [].
Proof.
  apply filter_nil_iff. intros x Hx. apply filter_In in Hx.
  destruct Hx as [_ Hx]. now apply negb_true_iff in Hx.
Qed.

Lemma filter_negb_other (A : Type) (key : A -> nat) (id other : nat) (l : list A) :
  other <> id ->
  filter (fun x => key x =? other) (filter (fun x => negb (key x =? id)) l)
  = filter (fun x => key x =? other) l.
Proof.
  intro Hne. induction l as [|a l IH]; simpl; [reflexivity|].
  destruct (key a =? id) eqn:E; simpl.
  - apply Nat.eqb_eq in E.
    destruct (key a =? other) eqn:E'; [|exact IH].
    apply Nat.eqb_eq in E'. congruence.
  - destruct (key a =? other); [now rewrite IH|exact IH].
Qed.

Lemma clearSymbolsByFile_symbols (fileId : nat) (db : Db) :
  symbols (clearSymbolsByFile fileId db)
  = filter (fun s => negb (Symbol.fileId s =? fileId)) (symbols db).
Proof. unfold clearSymbolsByFile. now destruct (foreignKeys db). Qed.

(** X4.  After [clearSymbolsByFile], [clearDependenciesByFile] and
    [clearEmbeddingsByFile] the query of the same table for that file is
    empty, and the query for any other file answers as before. *)
Theorem X4_clear_by_file :
  forall (fileId : nat) (db : Db),
    getSymbolsByFile fileId (clearSymbolsByFile fileId db) = []
    /\ getDependenciesByFile fileId (clearDependenciesByFile fileId db) = []
    /\ getEmbeddingsByFile fileId (clearEmbeddingsByFile fileId db) = []
    /\ forall other, other <> fileId ->
         getSymbolsByFile other (clearSymbolsByFile fileId db)
         = getSymbolsByFile other db
         /\ getDependenciesByFile other (clearDependenciesByFile fileId db)
            = getDependenciesByFile other db
         /\ getEmbeddingsByFile other (clearEmbeddingsByFile fileId db)
            = getEmbeddingsByFile other db.
Proof.
  intros fileId db.
  unfold getSymbolsByFile, getDependenciesByFile, getEmbeddingsByFile.
  rewrite !clearSymbolsByFile_symbols.
  unfold clearDependenciesByFile, clearEmbeddingsByFile. simpl.
  repeat split.
  - now rewrite (filter_negb_same (fun s => Symbol.fileId s =? fileId)).
  - apply (filter_negb_same (fun d => Dependency.sourceFileId d =? fileId)).
  - now rewrite (filter_negb_same (fun e => Embedding.fileId e =? fileId)).
  - f_equal. now apply (filter_negb_other Symbol.fileId).
  - now apply (filter_negb_other Dependency.sourceFileId).
  - f_equal. now apply (filter_negb_other Embedding.fileId).
Qed.
End Cleared.

(** ** The symbols of a text *)

Section Locations.
Import JsString LanguageParser.

Lemma findEndFrom_le (o c : ascii) (rest : list string) :
  forall (i : nat) (depth : Z) (found : bool) (n : nat),
    findEndFrom o c rest i depth found = Some n -> n <= i + List.length rest.
Proof.
  induction rest as [|line rest IH]; intros i depth found n H; simpl in H.
  - discriminate.
  - destruct (scanBraces o c line depth found) as [[d f]|].
    + apply IH in H. simpl. lia.
    + injection H as <-. simpl. lia.
Qed.

Lemma findEndLine_le (lines : list string) (startIndex : nat) (o c : ascii) :
  startIndex < List.length lines ->
  findEndLine lines startIndex o c <= List.length lines.
Proof.
  intro Hlt. unfold findEndLine.
  destruct (findEndFrom o c (skipn startIndex lines) startIndex 0 false) eqn:E.
  - apply findEndFrom_le in E. rewrite length_skipn in E. lia.
  - lia.
Qed.

Lemma pythonBlockEndFrom_le (rest : list string) :
  forall (i baseIndent n : nat),
    pythonBlockEndFrom rest i baseIndent = Some n -> n < i + List.length rest.
Proof.
  induction rest as [|line rest IH]; intros i baseIndent n H; simpl in H.
  - discriminate.
  - destruct (isEmpty (trim line)).
    + apply IH in H. simpl. lia.
    + destruct ((indentOf line <=? baseIndent) && negb false).
      * injection H as <-. simpl. lia.
      * apply IH in H. simpl. lia.
Qed.

Lemma findPythonBlockEnd_le (lines : list string) (startIndex baseIndent : nat) :
  startIndex < List.length lines ->
  findPythonBlockEnd lines startIndex baseIndent <= List.length lines.
Proof.
  intro Hlt. unfold findPythonBlockEnd.
  destruct (pythonBlockEndFrom (skipn (startIndex + 1) lines) (startIndex + 1)
              baseIndent) eqn:E; [|lia].
  apply pythonBlockEndFrom_le in E. rewrite length_skipn in E. lia.
Qed.

Lemma orElse_le (hi n fallback : nat) :
  n <= hi -> fallback <= hi -> orElse n fallback <= hi.
Proof. intros. unfold orElse. destruct (n =? 0); assumption. Qed.

Lemma indexOfFrom_le (p s : string) :
  forall i n, indexOfFrom p s i = Some n -> n <= i + String.length s.
Proof.
  induction s as [|c s IH]; intros i n H.
  - simpl in H. destruct (startsWith p EmptyString); [|discriminate].
    injection H as <-. simpl. lia.
  - cbn [indexOfFrom] in H. destruct (startsWith p (String c s)).
    + injection H as <-. lia.
    + apply IH in H. simpl. lia.
Qed.

Lemma indexOfPlus1_le (p s : string) : indexOfPlus1 p s <= String.length s + 1.
Proof.
  unfold indexOfPlus1, indexOf.
  destruct (indexOfFrom p s 0) eqn:E; [|lia].
  apply indexOfFrom_le in E. lia.
Qed.

Ltac eachPush :=
  repeat match goal with
    | H : In _ (_ ++ _) |- _ => apply in_app_or in H; destruct H as [H|H]
    | H : In _ (pushIf _ _ _) |- _ =>
        apply pushIf_In in H; destruct H as [? ->]
    end.

Ltac located lines i Hi :=
  unfold locatedAt; simpl;
  repeat split;
  first [ lia
        | apply indexOfPlus1_le
        | apply (findEndLine_le lines "{" "}" Hi)
        | apply orElse_le; [apply (findEndLine_le lines "{" "}" Hi)|lia]
        | apply (findPythonBlockEnd_le lines _ Hi) ].

Lemma javaScriptSymbolsAt_located (lines : list string) (i : nat) (line : string)
  (s : ParsedSymbol) :
  i < List.length lines ->
  In s (javaScriptSymbolsAt lines i line) -> locatedAt lines i line s.
Proof. unfold javaScriptSymbolsAt. intros Hi H. eachPush; located lines i Hi. Qed.

Lemma javaSymbolsAt_located (lines : list string) (i : nat) (line : string)
  (s : ParsedSymbol) :
  i < List.length lines ->
  In s (javaSymbolsAt lines i line) -> locatedAt lines i line s.
Proof. unfold javaSymbolsAt. intros Hi H. eachPush; located lines i Hi. Qed.

Lemma cppSymbolsAt_located (lines : list string) (i : nat) (line : string)
  (s : ParsedSymbol) :
  i < List.length lines ->
  In s (cppSymbolsAt lines i line) -> locatedAt lines i line s.
Proof. unfold cppSymbolsAt. intros Hi H. eachPush; located lines i Hi. Qed.

Lemma pythonSymbolsAt_located (lines : list string) (i : nat) (line : string)
  (s : ParsedSymbol) :
  i < List.length lines ->
  In s (pythonSymbolsAt lines i line) -> locatedAt lines i line s.
Proof. unfold pythonSymbolsAt. intros Hi H. eachPush; located lines i Hi. Qed.

Lemma combine_seq_nth (A : Type) (l : list A) :
  forall k i x, In (i, x) (combine (seq k (List.length l)) l) ->
                k <= i /\ nth_error l (i - k) = Some x.
Proof.
  induction l as [|a l IH]; intros k i x H; simpl in H; [contradiction|].
  destruct H as [H|H].
  - injection H as <- <-. rewrite Nat.sub_diag. split; [lia|reflexivity].
  - apply IH in H. destruct H as [Hk Hn]. split; [lia|].
    replace (i - k) with (S (i - S k)) by lia. exact Hn.
Qed.

Lemma indexed_nth (A : Type) (l : list A) (i : nat) (x : A) :
  In (i, x) (indexed l) -> nth_error l i = Some x.
Proof.
  intro H. apply combine_seq_nth in H. now rewrite Nat.sub_0_r in H.
Qed.

Lemma eachLine_located (body : list string -> nat -> string -> list ParsedSymbol)
  (lines : list string) :
  (forall i line s, i < List.length lines -> In s (body lines i line) ->
                    locatedAt lines i line s) ->
  Forall (locatedIn lines) (eachLine body lines).
Proof.
  intro H. apply Forall_forall. intros s Hs.
  unfold eachLine in Hs. apply in_flat_map in Hs.
  destruct Hs as [[i line] [Hil Hs]]. simpl in Hs.
  pose proof (indexed_nth _ _ _ Hil) as Hnth.
  exists i, line. split; [exact Hnth|].
  apply H; [|exact Hs].
  apply nth_error_Some. congruence.
Qed.

(** The symbols of a loop over the lines come in the order of the lines. *)
Lemma flat_map_ordered (A : Type) (key : A -> nat) (body : nat * string -> list A)
  (numbered : list (nat * string)) :
  (forall il s, In il numbered -> In s (body il) -> key s = fst il + 1) ->
  StronglySorted (fun a b => fst a <= fst b) numbered ->
  StronglySorted (fun a b => key a <= key b) (flat_map body numbered).
Proof.
  intros Hkey Hsorted. induction Hsorted as [|il numbered Hs IH Hall]; simpl.
  - constructor.
  - assert (Hrest : StronglySorted (fun a b => key a <= key b)
                      (flat_map body numbered)).
    { apply IH. intros; apply Hkey; auto. now right. }
    assert (Hhere : forall s, In s (body il) -> key s = fst il + 1).
    { intros s Hs'. apply Hkey; auto. now left. }
    assert (Hlater : Forall (fun b => fst il + 1 <= key b) (flat_map body numbered)).
    { apply Forall_forall. intros b Hb. apply in_flat_map in Hb.
      destruct Hb as [jl [Hjl Hb]].
      rewrite (Hkey jl b (or_intror Hjl) Hb).
      rewrite Forall_forall in Hall. specialize (Hall jl Hjl). lia. }
    clear IH Hkey Hs Hall.
    induction (body il) as [|s ss IHs]; simpl; [exact Hrest|].
    constructor.
    + apply IHs. intros; apply Hhere. now right.
    + apply Forall_app. split.
      * apply Forall_forall. intros b Hb.
        rewrite (Hhere s (or_introl eq_refl)), (Hhere b (or_intror Hb)). lia.
      * eapply Forall_impl; [|exact Hlater]. intros b Hb. simpl in Hb.
        rewrite (Hhere s (or_introl eq_refl)). exact Hb.
Qed.

Lemma combine_seq_sorted (A : Type) (l : list A) :
  forall k, StronglySorted (fun a b : nat * A => fst a <= fst b)
              (combine (seq k (List.length l)) l).
Proof.
  induction l as [|a l IH]; intro k; simpl; constructor; [apply IH|].
  apply Forall_forall. intros [i x] H. apply in_combine_l in H.
  apply in_seq in H. simpl. lia.
Qed.

Lemma eachLine_ordered (body : list string -> nat -> string -> list ParsedSymbol)
  (lines : list string) :
  (forall i line s, i < List.length lines -> In s (body lines i line) ->
                    locatedAt lines i line s) ->
  StronglySorted (fun a b => startLine a <= startLine b) (eachLine body lines).
Proof.
  intro H. unfold eachLine. apply flat_map_ordered.
  - intros [i line] s Hil Hs. simpl in *.
    pose proof (indexed_nth _ _ _ Hil) as Hnth.
    assert (Hi : i < List.length lines) by (apply nth_error_Some; congruence).
    exact (proj1 (H i line s Hi Hs)).
  - apply combine_seq_sorted.
Qed.

(** What holds of the symbols of each language holds of [parseSymbols]. *)
Lemma parseSymbols_each (P : list string -> list ParsedSymbol -> Prop) :
  (forall ls, P ls []) ->
  (forall body ls,
      (forall i line s, i < List.length ls -> In s (body ls i line) ->
                        locatedAt ls i line s) ->
      P ls (eachLine body ls)) ->
  forall text language symbols,
    parseSymbols (Some text) language = Ok symbols -> P (lines text) symbols.
Proof.
  intros Hnil Heach text language symbols. unfold parseSymbols. simpl falsy.
  destruct (isEmpty text); [intro H; injection H as <-; apply Hnil|].
  destruct (String.eqb language "javascript" || String.eqb language "typescript").
  { intro H. injection H as <-. apply Heach.
    intros; now apply javaScriptSymbolsAt_located. }
  destruct (String.eqb language "python").
  { intro H. injection H as <-. apply Heach.
    intros; now apply pythonSymbolsAt_located. }
  destruct (String.eqb language "java").
  { intro H. injection H as <-. apply Heach.
    intros; now apply javaSymbolsAt_located. }
  destruct (String.eqb language "cpp" || String.eqb language "c").
  { intro H. injection H as <-. apply Heach.
    intros; now apply cppSymbolsAt_located. }
  intro H. injection H as <-. apply Hnil.
Qed.

Lemma parseSymbols_located (text language : string) (symbols : list ParsedSymbol) :
  parseSymbols (Some text) language = Ok symbols ->
  Forall (locatedIn (lines text)) symbols.
Proof.
  apply (parseSymbols_each (fun ls symbols => Forall (locatedIn ls) symbols)).
  - constructor.
  - intros. now apply eachLine_located.
Qed.

Lemma parseSymbols_ordered (text language : string) (symbols : list ParsedSymbol) :
  parseSymbols (Some text) language = Ok symbols ->
  StronglySorted (fun a b => startLine a <= startLine b) symbols.
Proof.
  apply (parseSymbols_each
           (fun _ symbols =>
              StronglySorted (fun a b => startLine a <= startLine b) symbols)).
  - constructor.
  - intros. now apply eachLine_ordered.
Qed.

Lemma parseSymbols_returns (text language : string) :
  exists symbols, parseSymbols (Some text) language = Ok symbols.
Proof.
  unfold parseSymbols. simpl falsy.
  destruct (isEmpty text); [eexists; reflexivity|].
  repeat match goal with
         | |- context [if ?c then _ else _] => destruct c
         end; eexists; reflexivity.
Qed.

(** X5.  [parseSymbols] of a text does not throw, and every symbol that it
    reports lies inside the text: it starts on a line of the text, it ends
    no later than the last line, and its columns run from a column of its
    first line to one past the end of that line.  The symbols come in the
    order of their start lines. *)
Theorem X5_symbols_lie_inside_the_text :
  forall text language : string,
  exists symbols,
    parseSymbols (Some text) language = Ok symbols
    /\ Forall
         (fun s =>
            exists line,
              nth_error (lines text) (startLine s - 1) = Some line
              /\ 1 <= startLine s <= List.length (lines text)
              /\ endLine s <= List.length (lines text)
              /\ startColumn s <= endColumn s
              /\ endColumn s = String.length line + 1)
         symbols
    /\ StronglySorted (fun a b => startLine a <= startLine b) symbols.
Proof.
  intros text language.
  destruct (parseSymbols_returns text language) as [symbols H].
  exists symbols. split; [exact H|].
  split; [|now apply parseSymbols_ordered in H].
  apply parseSymbols_located in H.
  eapply Forall_impl; [|exact H].
  intros s (i & line & Hnth & Hstart & Hend & Hcol & Hcols).
  exists line. rewrite Hstart.
  replace (i + 1 - 1) with i by lia.
  assert (Hi : i < List.length (lines text)) by (apply nth_error_Some; congruence).
  repeat split; auto; lia.
Qed.
End Locations.

(** ** The dependencies of a text *)

Section Flags.
Import JsString LanguageParser.

Ltac made :=
  repeat match goal with
    | H : In _ (_ ++ _) |- _ => apply in_app_or in H; destruct H as [H|H]
    | H : In _ (pushIf _ _ _) |- _ =>
        apply pushIf_In in H; destruct H as [? ->]
    end.

(** X6.  A dependency that [parseDependencies] reports is never of the
    type [include].  In JavaScript and TypeScript it is external exactly
    when its path starts with neither a dot nor a slash, in Python exactly
    when its path does not start with a dot, and in Java exactly when its
    path does not start with the name of the package of the text (so never
    in a text without a package declaration).  For any other language
    nothing is reported. *)
Theorem X6_dependency_flags :
  forall (text language filePath : string),
  exists dependencies,
    parseDependencies (Some text) language filePath = Ok dependencies
    /\ Forall
         (fun d =>
            importType d <> ByInclude
            /\ isExternal d
               = if String.eqb language "javascript" || String.eqb language "typescript"
                 then negb (startsWith "." (importPath d))
                      && negb (startsWith "/" (importPath d))
                 else if String.eqb language "python"
                 then negb (startsWith "." (importPath d))
                 else negb (startsWith (getCurrentPackage text) (importPath d)))
         dependencies
    /\ (String.eqb language "javascript" || String.eqb language "typescript"
        || String.eqb language "python" || String.eqb language "java" = false ->
        dependencies = []).
Proof.
  intros text language filePath. unfold parseDependencies.
  destruct (String.eqb language "javascript" || String.eqb language "typescript").
  { eexists. split; [reflexivity|]. split; [|discriminate].
    apply Forall_forall. intros d Hd. apply in_flat_map in Hd.
    destruct Hd as [line [_ Hd]]. unfold javaScriptDependenciesAt in Hd.
    made; simpl; (split; [discriminate|reflexivity]). }
  destruct (String.eqb language "python").
  { eexists. split; [reflexivity|]. split; [|discriminate].
    apply Forall_forall. intros d Hd. apply in_flat_map in Hd.
    destruct Hd as [line [_ Hd]]. unfold pythonDependenciesAt in Hd.
    made; simpl; (split; [discriminate|reflexivity]). }
  destruct (String.eqb language "java").
  { eexists. split; [reflexivity|]. split; [|discriminate].
    apply Forall_forall. intros d Hd. apply in_flat_map in Hd.
    destruct Hd as [line [_ Hd]]. unfold javaDependenciesAt in Hd.
    made; simpl; (split; [discriminate|reflexivity]). }
  exists []. repeat split. constructor.
Qed.
End Flags.

(** ** Indexing one file *)

Section IndexedFile.
Import JsString DatabaseManager CodeIndexer Run.

Lemma fileExists_In (db : Db) (f : File.t) :
  In f (files db) -> fileExists db (File.id f) = true.
Proof.
  intro H. unfold fileExists. apply existsb_exists. exists f.
  split; [exact H|apply Nat.eqb_refl].
Qed.

Lemma getFile_fileExists (db : Db) (p : string) (f : File.t) :
  getFile p db = Some f -> fileExists db (File.id f) = true.
Proof.
  intro H. apply find_some in H. now apply fileExists_In.
Qed.

Lemma insertSymbols_run (fileId : nat) (parsed : list LanguageParser.ParsedSymbol) :
  forall db,
    fileExists db fileId = true ->
    forEach parsed (fun symbol => insert (insertSymbol fileId symbol) ;;; ret tt) db
    = (Ok tt,
       setSymbols (symbols db ++ symbolRows fileId (nextSymbolId db) parsed)
         (nextSymbolId db + List.length parsed) db).
Proof.
  induction parsed as [|symbol parsed IH]; intros db Hex; simpl.
  - unfold ret. f_equal. rewrite app_nil_r, Nat.add_0_r.
    now destruct db.
  - unfold bindM at 1. unfold bindM at 1. unfold insert, insertSymbol.
    rewrite Hex, andb_false_r. simpl.
    rewrite IH by exact Hex. simpl. f_equal.
    unfold setSymbols. simpl. f_equal.
    + now rewrite <- app_assoc.
    + lia.
Qed.

Lemma dependencyRows_ext (fileId : nat) (f g : string -> option File.t)
  (parsed : list LanguageParser.ParsedDependency) :
  (forall p, f p = g p) ->
  forall first,
    dependencyRows fileId first f parsed = dependencyRows fileId first g parsed.
Proof.
  intro H. induction parsed as [|d parsed IH]; intro first; simpl; [reflexivity|].
  now rewrite H, IH.
Qed.

Lemma insertDependencies_run (fileId : nat)
  (parsed : list LanguageParser.ParsedDependency) :
  forall db,
    fileExists db fileId = true ->
    forEach parsed
      (fun dependency =>
         targetFileRecord <-- query (getFile (LanguageParser.importPath dependency)) ;;;
         insert (insertDependency fileId (option_map File.id targetFileRecord)
                   dependency) ;;;
         ret tt) db
    = (Ok tt,
       setDependencies
         (dependencies db
          ++ dependencyRows fileId (nextDependencyId db) (fun p => getFile p db) parsed)
         (nextDependencyId db + List.length parsed) db).
Proof.
  induction parsed as [|dependency parsed IH]; intros db Hex; simpl.
  - unfold ret. f_equal. rewrite app_nil_r, Nat.add_0_r.
    now destruct db.
  - unfold bindM at 1. unfold query at 1. unfold bindM at 1. unfold bindM at 1.
    unfold insert, insertDependency.
    rewrite Hex. simpl negb. rewrite orb_false_l.
    assert (Htarget :
              match orNull (option_map File.id
                              (getFile (LanguageParser.importPath dependency) db)) with
              | Some tid => negb (fileExists db tid)
              | None => false
              end = false).
    { destruct (getFile (LanguageParser.importPath dependency) db) as [f|] eqn:E;
        simpl; [|reflexivity].
      destruct (File.id f) as [|n] eqn:En; simpl; [reflexivity|].
      rewrite <- En. now rewrite (getFile_fileExists _ _ E). }
    rewrite Htarget, andb_false_r. simpl.
    rewrite IH by exact Hex. simpl. f_equal.
    unfold setDependencies. simpl. f_equal.
    + rewrite <- app_assoc. reflexivity.
    + lia.
Qed.

Variable generateEmbedding : string -> list float.

Lemma storeChunks_run (fileId : nat) (language : string) (chunks : list Chunk) :
  forall index db,
    fileExists db fileId = true ->
    Forall (fun c => symbolId c = None) chunks ->
    forEach (combine (seq index (List.length chunks)) chunks)
      (storeChunk generateEmbedding fileId language) db
    = (Ok tt,
       setEmbeddings
         (embeddings db
          ++ embeddingRows generateEmbedding fileId (nextEmbeddingId db) index
               language chunks)
         (nextEmbeddingId db + List.length chunks) db).
Proof.
  induction chunks as [|chunk chunks IH]; intros index db Hex Hsym; simpl.
  - unfold ret. f_equal. rewrite app_nil_r, Nat.add_0_r. now destruct db.
  - inversion Hsym as [|? ? Hc Hrest]; subst.
    unfold bindM at 1. unfold storeChunk at 1. unfold bindM at 1.
    unfold insert, insertEmbedding. simpl. rewrite Hc. simpl.
    rewrite Hex. simpl. rewrite andb_false_r. simpl.
    rewrite IH by assumption. simpl. f_equal.
    unfold setEmbeddings. simpl. f_equal.
    + rewrite <- app_assoc. reflexivity.
    + lia.
Qed.

Lemma parseDependencies_returns (text language : string) :
  exists dependencies,
    forall filePath,
      LanguageParser.parseDependencies (Some text) language filePath
      = Ok dependencies.
Proof.
  unfold LanguageParser.parseDependencies.
  repeat match goal with
         | |- context [if ?c then _ else _] => destruct c
         end; eexists; reflexivity.
Qed.

Lemma parsedAs_exists (text language : string) :
  exists symbols dependencies, parsedAs text language symbols dependencies.
Proof.
  unfold parsedAs. destruct (LanguageParser.isSupported language).
  - destruct (parseSymbols_returns text language) as [symbols Hs].
    destruct (parseDependencies_returns text language) as [dependencies Hd].
    now exists symbols, dependencies.
  - now exists [], [].
Qed.

Lemma insertFile_row (file : FileInput.t) (now : nat) (db : Db) :
  getFile (FileInput.path file) (snd (insertFile file now db))
  = Some (rowOf (fst (insertFile file now db)) file now).
Proof.
  unfold insertFile.
  destruct (getFile (FileInput.path file) db) as [old|] eqn:E; simpl;
    unfold getFile in *; simpl.
  - now apply find_path_updateRow.
  - rewrite (find_snoc_none _ _ _ E). simpl. now rewrite String.eqb_refl.
Qed.

Lemma insertFile_tables (file : FileInput.t) (now : nat) (db : Db) :
  symbols (snd (insertFile file now db)) = symbols db
  /\ dependencies (snd (insertFile file now db)) = dependencies db
  /\ embeddings (snd (insertFile file now db)) = embeddings db
  /\ nextSymbolId (snd (insertFile file now db)) = nextSymbolId db
  /\ nextDependencyId (snd (insertFile file now db)) = nextDependencyId db
  /\ nextEmbeddingId (snd (insertFile file now db)) = nextEmbeddingId db
  /\ foreignKeys (snd (insertFile file now db)) = foreignKeys db.
Proof. unfold insertFile. destruct (getFile _ db); simpl; repeat split. Qed.

Variable fs : Fs.t.
Variable sha256 : string -> string.

(** The database that [indexFile] leaves, table by table. *)
Lemma indexFile_result (filePath repoPath : string) (now : nat) (db : Db)
  (entry : Fs.Entry) :
  Fs.lookup fs filePath = Some entry ->
  let record := recordOf sha256 filePath repoPath entry in
  let language := LanguageParser.detectLanguage filePath in
  let id := fst (insertFile record now db) in
  forall parsed dependencies,
    parsedAs (Fs.text entry) language parsed dependencies ->
    exists db' kept,
      indexFile fs sha256 generateEmbedding filePath repoPath now db = (Ok tt, db')
      /\ files db' = files (snd (insertFile record now db))
      /\ symbols db'
         = filter (fun s => negb (Symbol.fileId s =? id)) (symbols db)
           ++ symbolRows id (nextSymbolId db) parsed
      /\ DatabaseManager.dependencies db'
         = filter (fun d => negb (Dependency.sourceFileId d =? id))
             (DatabaseManager.dependencies db)
           ++ dependencyRows id (nextDependencyId db)
                (fun p => getFile p (snd (insertFile record now db))) dependencies
      /\ embeddings db'
         = kept
           ++ embeddingRows generateEmbedding id (nextEmbeddingId db) 0 language
                (splitIntoChunks (Fs.text entry) language)
      /\ filter (fun e => Embedding.fileId e =? id) kept = []
      /\ (foreignKeys db = false ->
          kept = filter (fun e => negb (Embedding.fileId e =? id)) (embeddings db)).
Proof.
  intros Hentry record language id parsed dependencies Hparsed.
  unfold indexFile.
  unfold bindM at 1. unfold pure at 1. unfold Fs.readFile. rewrite Hentry.
  unfold bindM at 1. unfold pure at 1. unfold Fs.stat. rewrite Hentry.
  fold language. change
    {| FileInput.path := Path.relative repoPath filePath;
       FileInput.content := Fs.text entry;
       FileInput.hash := sha256 (Fs.text entry);
       FileInput.size := Fs.size (Fs.stats entry);
       FileInput.language := language;
       FileInput.lastModified := Fs.mtime (Fs.stats entry) |} with record.
  unfold bindM at 1.
  pose proof (insertFile_row record now db) as Hrow.
  destruct (insertFile_tables record now db)
    as (Hs1 & Hd1 & He1 & Hns1 & Hnd1 & Hne1 & Hfk1).
  fold id in Hrow.
  destruct (insertFile record now db) as [id' db1] eqn:Eins.
  simpl in id, Hrow, Hs1, Hd1, He1, Hns1, Hnd1, Hne1, Hfk1.
  subst id. rename id' into id.
  simpl snd.
  unfold bindM at 1. unfold exec at 1.
  unfold bindM at 1. unfold exec at 1.
  unfold bindM at 1. unfold exec at 1.
  set (db4 := clearEmbeddingsByFile id
                (clearDependenciesByFile id (clearSymbolsByFile id db1))).
  assert (Hf4 : files db4 = files db1).
  { unfold db4, clearEmbeddingsByFile, clearDependenciesByFile, clearSymbolsByFile.
    destruct (foreignKeys db1); reflexivity. }
  assert (Hs4 : symbols db4 = filter (fun s => negb (Symbol.fileId s =? id)) (symbols db)).
  { rewrite <- Hs1.
    unfold db4, clearEmbeddingsByFile, clearDependenciesByFile, clearSymbolsByFile.
    destruct (foreignKeys db1); reflexivity. }
  assert (Hd4 : DatabaseManager.dependencies db4
                = filter (fun d => negb (Dependency.sourceFileId d =? id))
                    (DatabaseManager.dependencies db)).
  { rewrite <- Hd1.
    unfold db4, clearEmbeddingsByFile, clearDependenciesByFile, clearSymbolsByFile.
    destruct (foreignKeys db1); reflexivity. }
  assert (Hn4 : nextSymbolId db4 = nextSymbolId db
                /\ nextDependencyId db4 = nextDependencyId db
                /\ nextEmbeddingId db4 = nextEmbeddingId db).
  { rewrite <- Hns1, <- Hnd1, <- Hne1.
    unfold db4, clearEmbeddingsByFile, clearDependenciesByFile, clearSymbolsByFile.
    destruct (foreignKeys db1); repeat split. }
  destruct Hn4 as (Hns4 & Hnd4 & Hne4).
  assert (Hnone4 : filter (fun e => Embedding.fileId e =? id) (embeddings db4) = [])
    by apply clearEmbeddingsByFile_none.
  assert (Hkept4 : foreignKeys db = false ->
                   embeddings db4
                   = filter (fun e => negb (Embedding.fileId e =? id)) (embeddings db)).
  { intro Hfk. rewrite <- He1.
    unfold db4, clearEmbeddingsByFile, clearDependenciesByFile, clearSymbolsByFile.
    rewrite Hfk1, Hfk. reflexivity. }
  assert (Hex4 : fileExists db4 id = true).
  { unfold fileExists. rewrite Hf4.
    apply find_some in Hrow. destruct Hrow as [Hin _].
    apply existsb_exists. eexists. split; [exact Hin|]. simpl. apply Nat.eqb_refl. }
  assert (Hget4 : forall p, getFile p db4 = getFile p db1).
  { intro p. unfold getFile. now rewrite Hf4. }
  clearbody db4.
  assert (Hsym : Forall (fun c => symbolId c = None)
                   (splitIntoChunks (Fs.text entry) language))
    by apply splitIntoChunks_symbolId.
  unfold bindM at 1.
  unfold parsedAs in Hparsed.
  destruct (LanguageParser.isSupported language).
  - destruct Hparsed as [Hps Hpd].
    unfold bindM at 1. unfold pure at 1. rewrite Hps.
    unfold bindM at 1. rewrite (@insertSymbols_run id parsed db4 Hex4).
    set (db5 := setSymbols _ _ db4).
    assert (Hex5 : fileExists db5 id = true) by exact Hex4.
    unfold bindM at 1. unfold pure at 1. rewrite Hpd.
    rewrite (@insertDependencies_run id dependencies db5 Hex5).
    set (db6 := setDependencies _ _ db5).
    assert (Hex6 : fileExists db6 id = true) by exact Hex4.
    unfold generateFileEmbeddings, swallow, indexed.
    rewrite (@storeChunks_run id language _ 0 db6 Hex6 Hsym). simpl snd.
    eexists. exists (embeddings db4).
    split; [reflexivity|]. simpl.
    rewrite Hs4, Hd4, Hns4, Hnd4, Hne4.
    repeat split; auto.
    f_equal. apply dependencyRows_ext. intro p. exact (Hget4 p).
  - destruct Hparsed as [-> ->].
    unfold ret at 1.
    unfold generateFileEmbeddings, swallow, indexed.
    rewrite (@storeChunks_run id language _ 0 db4 Hex4 Hsym). simpl snd.
    eexists. exists (embeddings db4).
    split; [reflexivity|]. simpl.
    rewrite Hs4, Hd4, Hne4, !app_nil_r.
    repeat split; auto.
Qed.

Lemma insertFile_other (file : FileInput.t) (now : nat) (db : Db) (p : string) :
  p <> FileInput.path file ->
  getFile p (snd (insertFile file now db)) = getFile p db.
Proof.
  intro Hp. unfold insertFile.
  destruct (getFile (FileInput.path file) db) as [old|] eqn:E; simpl;
    unfold getFile in *; simpl.
  - now apply find_other_updateRow.
  - apply find_snoc_other. simpl. apply String.eqb_neq. congruence.
Qed.

Lemma symbolRows_fileId (fileId : nat) (parsed : list LanguageParser.ParsedSymbol) :
  forall first, Forall (fun r => Symbol.fileId r = fileId) (symbolRows fileId first parsed).
Proof. induction parsed; intro first; simpl; constructor; auto. Qed.

Lemma symbolRows_startLine (fileId : nat) (parsed : list LanguageParser.ParsedSymbol) :
  forall first,
    map Symbol.startLine (symbolRows fileId first parsed)
    = map LanguageParser.startLine parsed.
Proof. induction parsed; intro first; simpl; [reflexivity|]. now rewrite IHparsed. Qed.

Lemma dependencyRows_source (fileId : nat) (stored : string -> option File.t)
  (parsed : list LanguageParser.ParsedDependency) :
  forall first,
    Forall (fun r => Dependency.sourceFileId r = fileId)
      (dependencyRows fileId first stored parsed).
Proof. induction parsed; intro first; simpl; constructor; auto. Qed.

Lemma embeddingRows_fileId (fileId : nat) (language : string) (chunks : list Chunk) :
  forall first index,
    Forall (fun r => Embedding.fileId r = fileId)
      (embeddingRows generateEmbedding fileId first index language chunks).
Proof. induction chunks; intros first index; simpl; constructor; auto. Qed.

Lemma embeddingRows_chunkIndex (fileId : nat) (language : string)
  (chunks : list Chunk) :
  forall first index,
    map Embedding.chunkIndex
      (embeddingRows generateEmbedding fileId first index language chunks)
    = seq index (List.length chunks).
Proof.
  induction chunks; intros first index; simpl; [reflexivity|]. now rewrite IHchunks.
Qed.

Lemma filter_same (A : Type) (key : A -> nat) (id : nat) (l : list A) :
  Forall (fun x => key x = id) l -> filter (fun x => key x =? id) l = l.
Proof.
  intro H. apply filter_all. eapply Forall_impl; [|exact H].
  intros x Hx. simpl in Hx. rewrite Hx. apply Nat.eqb_refl.
Qed.

Lemma filter_different (A : Type) (key : A -> nat) (id other : nat) (l : list A) :
  other <> id ->
  Forall (fun x => key x = id) l -> filter (fun x => key x =? other) l = [].
Proof.
  intros Hne H. apply filter_nil_iff. intros x Hx.
  rewrite Forall_forall in H. rewrite (H x Hx). apply Nat.eqb_neq. congruence.
Qed.

Lemma sorted_ordered (A : Type) (key : A -> nat) (l : list A) :
  StronglySorted (fun a b => key a <= key b) l ->
  ForallOrdPairs (fun a b => (key b <? key a) = false) l.
Proof.
  induction 1 as [|a l Hs IH Hall]; constructor; [|exact IH].
  eapply Forall_impl; [|exact Hall]. intros b Hb. simpl in Hb.
  apply Nat.ltb_ge. exact Hb.
Qed.

Lemma sorted_map (A B : Type) (key : A -> nat) (key' : B -> nat)
  (l : list A) (l' : list B) :
  map key' l' = map key l ->
  StronglySorted (fun a b => key a <= key b) l ->
  StronglySorted (fun a b => key' a <= key' b) l'.
Proof.
  intros Hmap Hs. revert l' Hmap.
  induction Hs as [|a l Hs IH Hall]; intros [|b l'] Hmap; try discriminate;
    constructor.
  - apply IH. now injection Hmap.
  - injection Hmap as Hb Hrest. rewrite Hb.
    apply Forall_forall. intros y Hy.
    apply (in_map key') in Hy. rewrite Hrest in Hy.
    apply in_map_iff in Hy. destruct Hy as [x [<- Hx]].
    rewrite Forall_forall in Hall. now apply Hall.
Qed.

Section OneFile.
Variable filePath repoPath : string.
Variable now : nat.
Variable db : Db.
Variable entry : Fs.Entry.
Hypothesis readable : Fs.lookup fs filePath = Some entry.

Let record := recordOf sha256 filePath repoPath entry.
Let language := LanguageParser.detectLanguage filePath.
Let id := fst (insertFile record now db).
Let text := Fs.text entry.

Lemma indexFile_file :
  exists db',
    indexFile fs sha256 generateEmbedding filePath repoPath now db = (Ok tt, db')
    /\ getFile (Path.relative repoPath filePath) db' = Some (rowOf id record now)
    /\ (forall p, p <> Path.relative repoPath filePath -> getFile p db' = getFile p db).
Proof.
  destruct (parsedAs_exists text language) as (parsed & dependencies & Hp).
  destruct (@indexFile_result filePath repoPath now db entry readable
              parsed dependencies Hp) as (db' & kept & Hrun & Hf & _).
  exists db'. split; [exact Hrun|]. unfold getFile. rewrite Hf. split.
  - exact (insertFile_row record now db).
  - intros p Hp'. now apply (@insertFile_other record now db p).
Qed.

Lemma indexFile_symbols :
  exists db' parsed dependencies,
    indexFile fs sha256 generateEmbedding filePath repoPath now db = (Ok tt, db')
    /\ parsedAs text language parsed dependencies
    /\ getSymbolsByFile id db' = symbolRows id (nextSymbolId db) parsed
    /\ getDependenciesByFile id db'
       = dependencyRows id (nextDependencyId db) (fun p => getFile p db') dependencies
    /\ getEmbeddingsByFile id db'
       = embeddingRows generateEmbedding id (nextEmbeddingId db) 0 language
           (splitIntoChunks text language).
Proof.
  unfold id, language, text, record.
  destruct (parsedAs_exists (Fs.text entry) (LanguageParser.detectLanguage filePath))
    as (parsed & dependencies & Hp).
  destruct (@indexFile_result filePath repoPath now db entry readable
              parsed dependencies Hp)
    as (db' & kept & Hrun & Hf & Hs & Hd & He & Hnone & _).
  exists db', parsed, dependencies.
  split; [exact Hrun|]. split; [exact Hp|]. repeat split.
  - unfold getSymbolsByFile. rewrite Hs, filter_app.
    rewrite (filter_negb_same (fun s => Symbol.fileId s =? _)). simpl.
    rewrite (filter_same Symbol.fileId (symbolRows_fileId _ parsed _)).
    apply stableSort_ordered. apply sorted_ordered.
    apply (@sorted_map _ _ LanguageParser.startLine Symbol.startLine parsed);
      [apply symbolRows_startLine|].
    unfold parsedAs in Hp. destruct (LanguageParser.isSupported _).
    + destruct Hp as [Hp _]. now apply parseSymbols_ordered in Hp.
    + destruct Hp as [-> _]. constructor.
  - unfold getDependenciesByFile. rewrite Hd, filter_app.
    rewrite (filter_negb_same (fun d => Dependency.sourceFileId d =? _)). simpl.
    rewrite (filter_same Dependency.sourceFileId (dependencyRows_source _ _ dependencies _)).
    apply dependencyRows_ext. intro p. unfold getFile. now rewrite Hf.
  - unfold getEmbeddingsByFile. rewrite He, filter_app.
    rewrite Hnone. simpl.
    rewrite (filter_same Embedding.fileId (embeddingRows_fileId _ _ _ _ _)).
    apply stableSort_ordered.
    exact (increasing_ordered _ _ _ (embeddingRows_chunkIndex _ _ _ _ _)).
Qed.

Lemma indexFile_others (other : nat) :
  other <> id ->
  exists db',
    indexFile fs sha256 generateEmbedding filePath repoPath now db = (Ok tt, db')
    /\ getSymbolsByFile other db' = getSymbolsByFile other db
    /\ getDependenciesByFile other db' = getDependenciesByFile other db
    /\ (foreignKeys db = false ->
        getEmbeddingsByFile other db' = getEmbeddingsByFile other db).
Proof.
  unfold id, language, text, record. intro Hne.
  destruct (parsedAs_exists (Fs.text entry) (LanguageParser.detectLanguage filePath))
    as (parsed & dependencies & Hp).
  destruct (@indexFile_result filePath repoPath now db entry readable
              parsed dependencies Hp)
    as (db' & kept & Hrun & Hf & Hs & Hd & He & Hnone & Hkept).
  exists db'. split; [exact Hrun|]. repeat split.
  - unfold getSymbolsByFile. rewrite Hs, filter_app.
    rewrite (filter_different Symbol.fileId Hne (symbolRows_fileId _ parsed _)).
    rewrite app_nil_r. f_equal.
    exact (filter_negb_other Symbol.fileId (symbols db) Hne).
  - unfold getDependenciesByFile. rewrite Hd, filter_app.
    rewrite (filter_different Dependency.sourceFileId Hne
               (dependencyRows_source _ _ dependencies _)).
    rewrite app_nil_r.
    exact (filter_negb_other Dependency.sourceFileId
             (DatabaseManager.dependencies db) Hne).
  - intro Hfk. unfold getEmbeddingsByFile. rewrite He, filter_app.
    rewrite (filter_different Embedding.fileId Hne (embeddingRows_fileId _ _ _ _ _)).
    rewrite app_nil_r, (Hkept Hfk). f_equal.
    exact (filter_negb_other Embedding.fileId (embeddings db) Hne).
Qed.
End OneFile.

(** X7.  [indexFile] of a file that can be read does not throw; the row
    found afterwards under the path relative to the root holds the text
    read, its digest, its size, the language of its extension, its
    modification time and the time of the write; a path stored before
    keeps its id; and the rows of the other paths are as before. *)
Theorem X7_indexFile_stores_the_file :
  forall (filePath repoPath : string) (now : nat) (db : Db) (entry : Fs.Entry),
    Fs.lookup fs filePath = Some entry ->
    let out := indexFile fs sha256 generateEmbedding filePath repoPath now db in
    let relativePath := Path.relative repoPath filePath in
    fst out = Ok tt
    /\ (exists id,
          getFile relativePath (snd out)
          = Some {| File.id := id;
                    File.path := relativePath;
                    File.content := Fs.text entry;
                    File.hash := sha256 (Fs.text entry);
                    File.size := Fs.size (Fs.stats entry);
                    File.language := LanguageParser.detectLanguage filePath;
                    File.lastModified := Fs.mtime (Fs.stats entry);
                    File.indexedAt := now |}
          /\ id = match getFile relativePath db with
                  | Some old => File.id old
                  | None => nextFileId db
                  end)
    /\ (forall p, p <> relativePath -> getFile p (snd out) = getFile p db).
Proof.
  intros filePath repoPath now db entry Hentry out relativePath.
  destruct (@indexFile_file filePath repoPath now db entry Hentry)
    as (db' & Hrun & Hrow & Hother).
  subst out. rewrite Hrun. simpl. split; [reflexivity|]. split; [|exact Hother].
  eexists. split; [exact Hrow|].
  unfold insertFile. simpl.
  fold relativePath. now destruct (getFile relativePath db).
Qed.

(** X8.  After [indexFile] the symbols stored for the file are the
    symbols parsed from the text read, in the order of the parser, with
    consecutive new ids: what was stored for the file before is gone.  For
    a language that is not supported there are none. *)
Theorem X8_indexFile_replaces_the_symbols :
  forall (filePath repoPath : string) (now : nat) (db : Db) (entry : Fs.Entry),
    Fs.lookup fs filePath = Some entry ->
    let out := indexFile fs sha256 generateEmbedding filePath repoPath now db in
    let language := LanguageParser.detectLanguage filePath in
    exists row parsed,
      getFile (Path.relative repoPath filePath) (snd out) = Some row
      /\ (if LanguageParser.isSupported language
          then LanguageParser.parseSymbols (Some (Fs.text entry)) language = Ok parsed
          else parsed = [])
      /\ getSymbolsByFile (File.id row) (snd out)
         = symbolRows (File.id row) (nextSymbolId db) parsed.
Proof.
  intros filePath repoPath now db entry Hentry out language.
  destruct (@indexFile_file filePath repoPath now db entry Hentry)
    as (db0 & Hrun0 & Hrow & _).
  destruct (@indexFile_symbols filePath repoPath now db entry Hentry)
    as (db' & parsed & dependencies & Hrun & Hp & Hs & _).
  subst out. rewrite Hrun in *. injection Hrun0 as <-. simpl.
  eexists. exists parsed. split; [exact Hrow|]. split; [|exact Hs].
  unfold parsedAs in Hp. fold language in Hp.
  destruct (LanguageParser.isSupported language); tauto.
Qed.

(** X9.  After [indexFile] the dependencies stored for the file are the
    dependencies parsed from the text read, in the order of the parser;
    the target of each is the stored file whose path is the path as
    written in the import, if there is one. *)
Theorem X9_indexFile_replaces_the_dependencies :
  forall (filePath repoPath : string) (now : nat) (db : Db) (entry : Fs.Entry),
    Fs.lookup fs filePath = Some entry ->
    let out := indexFile fs sha256 generateEmbedding filePath repoPath now db in
    let language := LanguageParser.detectLanguage filePath in
    exists row parsed,
      getFile (Path.relative repoPath filePath) (snd out) = Some row
      /\ (if LanguageParser.isSupported language
          then LanguageParser.parseDependencies (Some (Fs.text entry)) language
                 (Path.relative repoPath filePath) = Ok parsed
          else parsed = [])
      /\ getDependenciesByFile (File.id row) (snd out)
         = dependencyRows (File.id row) (nextDependencyId db)
             (fun importPath => getFile importPath (snd out)) parsed.
Proof.
  intros filePath repoPath now db entry Hentry out language.
  destruct (@indexFile_file filePath repoPath now db entry Hentry)
    as (db0 & Hrun0 & Hrow & _).
  destruct (@indexFile_symbols filePath repoPath now db entry Hentry)
    as (db' & parsed & dependencies & Hrun & Hp & _ & Hd & _).
  subst out. rewrite Hrun in *. injection Hrun0 as <-. simpl.
  eexists. exists dependencies. split; [exact Hrow|]. split; [|exact Hd].
  unfold parsedAs in Hp. fold language in Hp.
  destruct (LanguageParser.isSupported language); [|tauto].
  destruct Hp as [_ Hp]. apply Hp.
Qed.

(** X10.  After [indexFile] the embeddings stored for the file are one per
    chunk of the text read, in the order of the chunks: the chunk of index
    [i] is stored with index [i], its text, the embedding of its text and
    its lines. *)
Theorem X10_indexFile_embeds_every_chunk :
  forall (filePath repoPath : string) (now : nat) (db : Db) (entry : Fs.Entry),
    Fs.lookup fs filePath = Some entry ->
    let out := indexFile fs sha256 generateEmbedding filePath repoPath now db in
    let language := LanguageParser.detectLanguage filePath in
    exists row,
      getFile (Path.relative repoPath filePath) (snd out) = Some row
      /\ getEmbeddingsByFile (File.id row) (snd out)
         = embeddingRows generateEmbedding (File.id row) (nextEmbeddingId db) 0
             language (splitIntoChunks (Fs.text entry) language).
Proof.
  intros filePath repoPath now db entry Hentry out language.
  destruct (@indexFile_file filePath repoPath now db entry Hentry)
    as (db0 & Hrun0 & Hrow & _).
  destruct (@indexFile_symbols filePath repoPath now db entry Hentry)
    as (db' & parsed & dependencies & Hrun & _ & _ & _ & He).
  subst out. rewrite Hrun in *. injection Hrun0 as <-. simpl.
  eexists. split; [exact Hrow|exact He].
Qed.

(** X11.  [indexFile] leaves what is stored for the other files as it was:
    their symbols and their dependencies and, on a connection without
    foreign-key enforcement, their embeddings. *)
Theorem X11_indexFile_leaves_other_files :
  forall (filePath repoPath : string) (now : nat) (db : Db) (entry : Fs.Entry),
    Fs.lookup fs filePath = Some entry ->
    let out := indexFile fs sha256 generateEmbedding filePath repoPath now db in
    exists row,
      getFile (Path.relative repoPath filePath) (snd out) = Some row
      /\ forall other, other <> File.id row ->
           getSymbolsByFile other (snd out) = getSymbolsByFile other db
           /\ getDependenciesByFile other (snd out) = getDependenciesByFile other db
           /\ (foreignKeys db = false ->
               getEmbeddingsByFile other (snd out) = getEmbeddingsByFile other db).
Proof.
  intros filePath repoPath now db entry Hentry out.
  destruct (@indexFile_file filePath repoPath now db entry Hentry)
    as (db0 & Hrun0 & Hrow & _).
  subst out. rewrite Hrun0. simpl.
  eexists. split; [exact Hrow|].
  intros other Hne. simpl in Hne.
  destruct (@indexFile_others filePath repoPath now db entry Hentry other Hne)
    as (db' & Hrun & H).
  rewrite Hrun in Hrun0. injection Hrun0 as <-. exact H.
Qed.
End IndexedFile.

Section IndexedExample.
Import JsString DatabaseManager CodeIndexer Run.

Lemma X7_witness :
  fst (indexFile Example.tree (fun s => s) Example.embed "/repo/b.js" "/repo" 10
         initialize) = Ok tt
  /\ forall p, p <> "b.js" ->
       getFile p (snd (indexFile Example.tree (fun s => s) Example.embed
                         "/repo/b.js" "/repo" 10 initialize))
       = None.
Proof.
  refine (let H := @X7_indexFile_stores_the_file Example.embed Example.tree
                     (fun s => s) "/repo/b.js" "/repo" 10 initialize
                     {| Fs.text := Example.bText;
                        Fs.stats := {| Fs.size := 61; Fs.mtime := 2000 |} |} _ in
          conj (proj1 H) (proj2 (proj2 H))).
  vm_compute. reflexivity.
Defined.

Lemma X8_witness :
  exists row parsed,
    getFile "b.js"
      (snd (indexFile Example.tree (fun s => s) Example.embed "/repo/b.js" "/repo" 10
              (Example.indexed (fun s => s) Example.embed "/repo"))) = Some row
    /\ LanguageParser.parseSymbols (Some Example.bText) "javascript" = Ok parsed
    /\ getSymbolsByFile (File.id row)
         (snd (indexFile Example.tree (fun s => s) Example.embed "/repo/b.js" "/repo" 10
                 (Example.indexed (fun s => s) Example.embed "/repo")))
       = symbolRows (File.id row) 3 parsed.
Proof.
  refine (@X8_indexFile_replaces_the_symbols Example.embed Example.tree
            (fun s => s) "/repo/b.js" "/repo" 10
            (Example.indexed (fun s => s) Example.embed "/repo")
            {| Fs.text := Example.bText;
               Fs.stats := {| Fs.size := 61; Fs.mtime := 2000 |} |} _).
  vm_compute. reflexivity.
Defined.

Lemma X9_witness :
  exists row parsed,
    getFile "b.js"
      (snd (indexFile Example.tree (fun s => s) Example.embed "/repo/b.js" "/repo" 10
              (Example.indexed (fun s => s) Example.embed "/repo"))) = Some row
    /\ LanguageParser.parseDependencies (Some Example.bText) "javascript" "b.js"
       = Ok parsed
    /\ getDependenciesByFile (File.id row)
         (snd (indexFile Example.tree (fun s => s) Example.embed "/repo/b.js" "/repo" 10
                 (Example.indexed (fun s => s) Example.embed "/repo")))
       = dependencyRows (File.id row) 2
           (fun importPath =>
              getFile importPath
                (snd (indexFile Example.tree (fun s => s) Example.embed "/repo/b.js"
                        "/repo" 10
                        (Example.indexed (fun s => s) Example.embed "/repo"))))
           parsed.
Proof.
  refine (@X9_indexFile_replaces_the_dependencies Example.embed Example.tree
            (fun s => s) "/repo/b.js" "/repo" 10
            (Example.indexed (fun s => s) Example.embed "/repo")
            {| Fs.text := Example.bText;
               Fs.stats := {| Fs.size := 61; Fs.mtime := 2000 |} |} _).
  vm_compute. reflexivity.
Defined.

Lemma X10_witness :
  exists row,
    getFile "b.js"
      (snd (indexFile Example.tree (fun s => s) Example.embed "/repo/b.js" "/repo" 10
              (Example.indexed (fun s => s) Example.embed "/repo"))) = Some row
    /\ getEmbeddingsByFile (File.id row)
         (snd (indexFile Example.tree (fun s => s) Example.embed "/repo/b.js" "/repo" 10
                 (Example.indexed (fun s => s) Example.embed "/repo")))
       = embeddingRows Example.embed (File.id row) 3 0 "javascript"
           (splitIntoChunks Example.bText "javascript").
Proof.
  refine (@X10_indexFile_embeds_every_chunk Example.embed Example.tree
            (fun s => s) "/repo/b.js" "/repo" 10
            (Example.indexed (fun s => s) Example.embed "/repo")
            {| Fs.text := Example.bText;
               Fs.stats := {| Fs.size := 61; Fs.mtime := 2000 |} |} _).
  vm_compute. reflexivity.
Defined.

Lemma X11_witness :
  exists row,
    getFile "b.js"
      (snd (indexFile Example.tree (fun s => s) Example.embed "/repo/b.js" "/repo" 10
              (Example.indexed (fun s => s) Example.embed "/repo"))) = Some row
    /\ forall other, other <> File.id row ->
         getSymbolsByFile other
           (snd (indexFile Example.tree (fun s => s) Example.embed "/repo/b.js"
                   "/repo" 10 (Example.indexed (fun s => s) Example.embed "/repo")))
         = getSymbolsByFile other (Example.indexed (fun s => s) Example.embed "/repo")
         /\ getDependenciesByFile other
              (snd (indexFile Example.tree (fun s => s) Example.embed "/repo/b.js"
                      "/repo" 10 (Example.indexed (fun s => s) Example.embed "/repo")))
            = getDependenciesByFile other
                (Example.indexed (fun s => s) Example.embed "/repo")
         /\ (foreignKeys (Example.indexed (fun s => s) Example.embed "/repo") = false ->
             getEmbeddingsByFile other
               (snd (indexFile Example.tree (fun s => s) Example.embed "/repo/b.js"
                       "/repo" 10 (Example.indexed (fun s => s) Example.embed "/repo")))
             = getEmbeddingsByFile other
                 (Example.indexed (fun s => s) Example.embed "/repo")).
Proof.
  refine (@X11_indexFile_leaves_other_files Example.embed Example.tree
            (fun s => s) "/repo/b.js" "/repo" 10
            (Example.indexed (fun s => s) Example.embed "/repo")
            {| Fs.text := Example.bText;
               Fs.stats := {| Fs.size := 61; Fs.mtime := 2000 |} |} _).
  vm_compute. reflexivity.
Defined.
End IndexedExample.

(** ** Scanning a repository *)

Section Scans.
Import DatabaseManager CodeIndexer.
Variable fs : Fs.t.
Variable cwd : string.
Variable sha256 : string -> string.
Variable generateEmbedding : string -> list float.
Variable findCodeFiles : string -> list string.

Lemma indexOne_total (repoPath : string) (force : bool) (clock : string -> nat)
  (st : Db * Counters) (filePath : string) :
  total (snd (indexOne fs cwd sha256 generateEmbedding repoPath force clock st filePath))
  = S (total (snd st)).
Proof.
  destruct st as [db n]. unfold indexOne, total.
  destruct (shouldProcessFile fs cwd filePath force db); simpl; [|lia].
  destruct (indexFile fs sha256 generateEmbedding filePath repoPath (clock filePath) db)
    as [[u|e] db']; simpl; lia.
Qed.

Lemma scan_total (repoPath : string) (force : bool) (clock : string -> nat)
  (paths : list string) :
  forall st,
    total (snd (fold_left (indexOne fs cwd sha256 generateEmbedding repoPath force clock)
                  paths st))
    = total (snd st) + List.length paths.
Proof.
  induction paths as [|p paths IH]; intro st; simpl; [lia|].
  rewrite IH, indexOne_total. lia.
Qed.

(** X12.  Every path that [findCodeFiles] returns is counted once, as
    processed, skipped or failed. *)
Theorem X12_indexRepository_counts_every_file :
  forall (repoPath : string) (force : bool) (clock : string -> nat) (db : Db),
    let n := snd (indexRepository fs cwd sha256 generateEmbedding findCodeFiles
                    repoPath force clock db) in
    processed n + skipped n + errors n = List.length (findCodeFiles repoPath).
Proof.
  intros repoPath force clock db n. subst n. unfold indexRepository.
  pose proof (scan_total repoPath force clock (findCodeFiles repoPath)
                (db, {| processed := 0; skipped := 0; errors := 0 |})) as H.
  unfold total in H. simpl in H. exact H.
Qed.
End Scans.

(** ** Texts of one chunk *)

Section SmallTexts.
Import JsString DatabaseManager CodeIndexer.

Lemma join_cons (sep x y : string) (l : list string) :
  join sep (x :: y :: l) = String.append x (String.append sep (join sep (y :: l))).
Proof. reflexivity. Qed.

Lemma split_cons (sep : ascii) (s : string) :
  exists h t, split sep s = h :: t.
Proof.
  destruct s as [|c s]; simpl; [now eexists; eexists|].
  destruct (Ascii.eqb c sep); [now eexists; eexists|].
  destruct (split sep s); now eexists; eexists.
Qed.

(** Joining the pieces of a split gives the text back. *)
Lemma join_split (sep : ascii) (s : string) :
  join (String sep EmptyString) (split sep s) = s.
Proof.
  induction s as [|c s IH]; [reflexivity|].
  cbn [split].
  destruct (split_cons sep s) as (h & t & Es). rewrite Es in *.
  destruct (Ascii.eqb c sep) eqn:E.
  - apply Ascii.eqb_eq in E. subst c.
    rewrite join_cons, IH. reflexivity.
  - destruct t as [|h' t].
    + simpl in *. now rewrite IH.
    + rewrite join_cons. rewrite join_cons in IH. rewrite <- IH. reflexivity.
Qed.

Lemma join_exact_length (ls : list string) :
  String.length (join nl ls) = totalLength ls + (List.length ls - 1).
Proof.
  induction ls as [|l [|l' ls] IH].
  - reflexivity.
  - unfold totalLength. simpl. lia.
  - change (join nl (l :: l' :: ls))
      with (String.append l (String.append nl (join nl (l' :: ls)))).
    rewrite !append_length, IH. unfold totalLength. simpl. lia.
Qed.

Lemma dropEmpty_length (ls : list string) :
  List.length (dropEmpty ls) <= List.length ls.
Proof.
  induction ls as [|l ls IH]; simpl; [lia|].
  destruct (isEmpty l); simpl; lia.
Qed.

Lemma trimStart_join_dropEmpty (ls : list string) :
  trimStart (join nl (dropEmpty ls)) = trimStart (join nl ls).
Proof.
  induction ls as [|l ls IH]; simpl dropEmpty; [reflexivity|].
  destruct (isEmpty l) eqn:E; [|reflexivity].
  apply isEmpty_true in E. subst l. rewrite IH.
  destruct ls as [|l' ls]; [reflexivity|].
  change (join nl ("" :: l' :: ls))
    with (String.append "" (String.append nl (join nl (l' :: ls)))).
  reflexivity.
Qed.

Lemma chunkStep_gathering (done : list string) (st : ChunkState) (line : string) :
  gathering done st ->
  String.length (join nl (done ++ [line])) <= maxChunkSize ->
  gathering (done ++ [line]) (chunkStep st line).
Proof.
  intros (H1 & H2 & H3 & H4) Hsmall. unfold chunkStep.
  assert (Hfits : (maxChunkSize <? String.length (currentChunk st) + String.length line)
                  = false).
  { apply Nat.ltb_ge. rewrite H4.
    rewrite join_exact_length in *. rewrite totalLength_dropEmpty.
    rewrite totalLength_app, length_app in Hsmall.
    pose proof (dropEmpty_length done). unfold totalLength in Hsmall at 2.
    simpl in Hsmall. lia. }
  rewrite Hfits. simpl. unfold gathering. simpl.
  repeat split; auto.
  - rewrite length_app. simpl. lia.
  - rewrite H4. symmetry. exact (join_dropEmpty_snoc done line).
Qed.

Lemma chunkLoop_gathering (todo : list string) :
  forall (done : list string) (st : ChunkState),
    gathering done st ->
    String.length (join nl (done ++ todo)) <= maxChunkSize ->
    gathering (done ++ todo) (fold_left chunkStep todo st).
Proof.
  induction todo as [|line todo IH]; intros done st H Hsmall; simpl.
  - now rewrite app_nil_r.
  - replace (done ++ line :: todo) with ((done ++ [line]) ++ todo) in *
      by now rewrite <- app_assoc.
    apply IH; [|exact Hsmall].
    apply chunkStep_gathering; [exact H|].
    rewrite join_exact_length in *.
    rewrite !totalLength_app, !length_app in Hsmall.
    rewrite totalLength_app, length_app. simpl in *. lia.
Qed.

(** X13.  A text of at most 500 characters is one chunk, the trimmed text
    from line 1 to its last line, or no chunk at all when it is blank. *)
Theorem X13_small_text_is_one_chunk :
  forall text language : string,
    String.length text <= maxChunkSize ->
    splitIntoChunks text language
    = if isEmpty (trim text) then []
      else [{| content := trim text;
               startLine := 1;
               endLine := List.length (lines text);
               type := Code;
               symbolId := None |}].
Proof.
  intros text language Hsmall. unfold splitIntoChunks.
  assert (Hjoin : join nl (lines text) = text) by apply join_split.
  pose proof (@chunkLoop_gathering (lines text) []
                {| chunks := []; currentChunk := EmptyString;
                   chunkStartLine := 1; currentLine := 1 |}) as H.
  simpl app in H.
  destruct H as (H1 & H2 & H3 & H4).
  { repeat split. }
  { now rewrite Hjoin. }
  rewrite H1, H2, H3, H4.
  assert (Htrim : trim (join nl (dropEmpty (lines text))) = trim text).
  { unfold trim. now rewrite trimStart_join_dropEmpty, Hjoin. }
  rewrite Htrim. unfold codeChunk. rewrite Htrim. simpl.
  destruct (isEmpty (trim text)); simpl; [reflexivity|].
  now rewrite Nat.sub_0_r.
Qed.

Lemma X13_witness :
  splitIntoChunks Example.bText "javascript"
  = [{| content := Example.bText; startLine := 1; endLine := 2;
        type := Code; symbolId := None |}].
Proof.
  refine (eq_trans (@X13_small_text_is_one_chunk Example.bText "javascript" _) _).
  - vm_compute. repeat constructor.
  - vm_compute. reflexivity.
Defined.
End SmallTexts.

(** ** Tokens and hashes *)

Section Tokens.
Import JsString EmbeddingGenerator.

Lemma splitSpaces_nonempty (s : string) (inGap : bool) : splitSpaces s inGap <> [].
Proof.
  revert inGap. induction s as [|c s IH]; intro inGap; simpl; [discriminate|].
  destruct (isSpace c).
  - destruct inGap; [apply IH|discriminate].
  - destruct (splitSpaces s false); discriminate.
Qed.

Lemma splitSpaces_chars (p : ascii -> bool) (s : string) :
  allChars (fun c => p c || isSpace c) s = true ->
  (forall c, isSpace c = true -> p c = false) ->
  forall inGap, Forall (fun w => allChars p w = true) (splitSpaces s inGap).
Proof.
  intros Hs Hp. induction s as [|c s IH]; intro inGap; simpl.
  - constructor; [reflexivity|constructor].
  - simpl in Hs. apply andb_true_iff in Hs. destruct Hs as [Hc Hs].
    specialize (IH Hs).
    destruct (isSpace c) eqn:E.
    + destruct inGap; [apply IH|].
      constructor; [reflexivity|apply IH].
    + rewrite orb_false_r in Hc.
      specialize (IH false).
      destruct (splitSpaces s false) as [|h t].
      * constructor; [simpl; now rewrite Hc|constructor].
      * inversion IH; subst. constructor; [simpl; now rewrite Hc|assumption].
Qed.

Lemma normalised_char (c : ascii) :
  let c' := toLowerChar c in
  let c'' := if isWord c' || isSpace c' then c' else " "%char in
  isTokenChar c'' || isSpace c'' = true.
Proof.
  destruct c as [[] [] [] [] [] [] [] []]; vm_compute; reflexivity.
Qed.

Lemma tokenChar_not_space (c : ascii) : isSpace c = true -> isTokenChar c = false.
Proof.
  destruct c as [[] [] [] [] [] [] [] []]; vm_compute; intro H;
    first [reflexivity|discriminate].
Qed.

Lemma normalised_chars (text : string) :
  allChars (fun c => isTokenChar c || isSpace c)
    (mapChars (fun c => if isWord c || isSpace c then c else " "%char)
       (toLowerCase text)) = true.
Proof.
  induction text as [|c text IH]; simpl; [reflexivity|].
  rewrite IH, andb_true_r. apply normalised_char.
Qed.

(** X14.  [tokenize] returns at most 1000 tokens; each has two characters or
    more, and only digits, underscores and small letters. *)
Theorem X14_tokenize_tokens :
  forall text : string,
    List.length (tokenize text) <= 1000
    /\ Forall (fun word => 2 <= String.length word /\ allChars isTokenChar word = true)
         (tokenize text).
Proof.
  intro text. unfold tokenize. split.
  - rewrite length_firstn. lia.
  - apply Forall_forall. intros w Hw.
    apply firstn_In in Hw. apply filter_In in Hw. destruct Hw as [Hin Hlen].
    apply Nat.ltb_lt in Hlen. split; [lia|].
    pose proof (splitSpaces_chars isTokenChar _ (normalised_chars text)
                  tokenChar_not_space false) as H.
    rewrite Forall_forall in H. now apply H.
Qed.

Local Open Scope Z_scope.

Lemma toInt32_range (z : Z) : - two31 <= toInt32 z < two31.
Proof.
  unfold toInt32, two31, two32.
  pose proof (Z.mod_pos_bound (z + 2147483648) 4294967296 eq_refl). lia.
Qed.

Lemma hashFrom_range (str : string) :
  forall hash, - two31 <= hash < two31 -> - two31 <= hashFrom str hash < two31.
Proof.
  induction str as [|c str IH]; intros hash H; simpl; [exact H|].
  apply IH. unfold hashStep. apply toInt32_range.
Qed.

(** X15.  [hashString] is between 0 and 2^31, so that each of the three
    indices computed from it is an index of the array. *)
Theorem X15_hashString_indices :
  forall (str : string) (options_dimensions : option nat) (i : nat),
    0 <= hashString str <= 2147483648
    /\ (Z.to_nat ((hashString str + Z.of_nat i * 17)
                  mod Z.of_nat (dimensions options_dimensions))
        < dimensions options_dimensions)%nat.
Proof.
  intros str options_dimensions i.
  assert (Hrange : 0 <= hashString str <= 2147483648).
  { unfold hashString.
    pose proof (hashFrom_range str (hash := 0)) as H. unfold two31 in H.
    specialize (H ltac:(lia)). lia. }
  split; [exact Hrange|].
  pose proof (dimensions_positive options_dimensions) as Hd.
  pose proof (Z.mod_pos_bound (hashString str + Z.of_nat i * 17)
                (Z.of_nat (dimensions options_dimensions)) ltac:(lia)).
  lia.
Qed.
End Tokens.

Section NoToken.
Import JsString DatabaseManager EmbeddingGenerator SearchEngine.
Variable Math_log Math_sin fround : float -> float.
Variable options_dimensions : option nat.
Variable generateOpenAIEmbedding : string -> result (list float).

Lemma generateLocalEmbedding_no_token (text : string) :
  tokenize text = [] ->
  generateLocalEmbedding Math_log Math_sin fround options_dimensions text
  = repeat PrimFloat.zero (dimensions options_dimensions).
Proof.
  intro H. unfold generateLocalEmbedding. rewrite H. simpl.
  assert (Hz : sumSquares (repeat PrimFloat.zero (dimensions options_dimensions))
               = PrimFloat.zero).
  { apply sumSquares_zeros. apply Forall_forall. intros x Hx.
    apply repeat_spec in Hx. now left. }
  rewrite Hz. reflexivity.
Qed.

Lemma cosineSimilarity_of_zero (a b : list float) :
  sumSquares a = PrimFloat.zero -> SearchEngine.cosineSimilarity a b = PrimFloat.zero.
Proof.
  intro Hz.
  change (SearchEngine.cosineSimilarity a b) with (EmbeddingGenerator.cosineSimilarity a b).
  destruct (Nat.eq_dec (List.length a) (List.length b)) as [E|E].
  - apply cosineSimilarity_zero_norm; [exact E|]. left. now rewrite Hz.
  - now apply cosineSimilarity_mismatch.
Qed.

(** X16.  Without an API key, a query that has no token (no word of two
    characters or more) has the zero vector as its embedding, every
    similarity is 0, and [searchCode] returns nothing for a threshold above
    0, the default threshold included. *)
Theorem X16_searchCode_query_without_token :
  forall (query : string) (options : SearchOptions) (db : Db),
    tokenize query = [] ->
    PrimFloat.leb (thresholdOf options) PrimFloat.zero = false ->
    searchCode
      (generateEmbedding Math_log Math_sin fround options_dimensions None
         generateOpenAIEmbedding)
      query options db = [].
Proof.
  intros query options db Htok Hthr.
  unfold searchCode, ranked.
  assert (Hpass : passing (thresholdOf options)
                    (similarities
                       (generateEmbedding Math_log Math_sin fround options_dimensions
                          None generateOpenAIEmbedding) query db) = []).
  { unfold passing. apply filter_nil_iff. intros [e sc] Hin. simpl.
    unfold similarities in Hin. apply in_map_iff in Hin.
    destruct Hin as [e' [Heq _]]. injection Heq as _ <-.
    unfold generateEmbedding. simpl.
    rewrite (generateLocalEmbedding_no_token _ Htok).
    rewrite cosineSimilarity_of_zero; [exact Hthr|].
    apply sumSquares_zeros. apply Forall_forall. intros x Hx.
    apply repeat_spec in Hx. now left. }
  rewrite Hpass. unfold sliceTo. simpl.
  destruct (limitOf options * 2 <? 0)%Z; now rewrite firstn_nil.
Qed.

End NoToken.

Section NoTokenExample.
Import DatabaseManager EmbeddingGenerator SearchEngine.
Lemma X16_witness :
  searchCode
    (generateEmbedding (fun x => x) (fun x => x) (fun x => x) None None
       (fun _ => Throw IoError))
    "a + b"
    {| limit := None; fileExtensions := None; threshold := None |}
    (Example.indexed (fun s => s) Example.embed "/repo") = [].
Proof.
  refine (@X16_searchCode_query_without_token (fun x => x) (fun x => x) (fun x => x)
            None (fun _ => Throw IoError) "a + b"
            {| limit := None; fileExtensions := None; threshold := None |}
            (Example.indexed (fun s => s) Example.embed "/repo") _ _);
    vm_compute; reflexivity.
Defined.
End NoTokenExample.

(** ** The results of a search *)

Section Results.
Import JsString DatabaseManager SearchEngine.

Lemma substring_length_le (s : string) :
  forall a n, String.length (String.substring a n s) <= n.
Proof.
  induction s as [|c s IH]; intros a n.
  - destruct a, n; simpl; lia.
  - destruct a as [|a]; destruct n as [|n]; simpl; try lia.
    + specialize (IH 0 n). lia.
    + apply IH.
    + apply IH.
Qed.

Lemma excerpt_length (n : nat) (text : string) :
  String.length (excerpt n text) <= n + 3.
Proof.
  unfold excerpt, substring. rewrite append_length.
  pose proof (substring_length_le text 0 (n - 0)).
  destruct (n <? String.length text); simpl; lia.
Qed.

Lemma excerpt_short (n : nat) (text : string) :
  String.length text <= n -> excerpt n text = text.
Proof.
  intro H. unfold excerpt, substring.
  apply Nat.ltb_ge in H. rewrite H.
  assert (Hsub : forall s k, String.length s <= k -> String.substring 0 k s = s).
  { induction s as [|c s IH]; intros [|k] Hk; simpl in *; try reflexivity; try lia.
    f_equal. apply IH. lia. }
  rewrite Hsub; [|apply Nat.ltb_ge in H; lia].
  clear. induction text; simpl; [reflexivity|now f_equal].
Qed.

Lemma fileById_stored (fileId : nat) (db : Db) (f : File.t) :
  fileById fileId db = Some f -> In f (files db) /\ File.id f = fileId.
Proof.
  unfold fileById. intro H. apply find_some in H. destruct H as [Hin Heq].
  apply stableSort_In in Hin. apply Nat.eqb_eq in Heq. now split.
Qed.

Variable generateEmbedding : string -> list float.

(** What the loop of [searchCode] adds to its results. *)
Lemma collect_In (query : string) (lim : Z) (exts : option (list string))
  (db : Db) (cands : list Scored) :
  forall results r,
    In r (collect query lim exts db cands results) ->
    In r results
    \/ exists c file,
         In c cands
         /\ fileById (Embedding.fileId (fst c)) db = Some file
         /\ match exts with
            | Some (e :: es) => In (getFileExtension (File.path file)) (e :: es)
            | _ => True
            end
         /\ r = toResult query file db c.
Proof.
  induction cands as [|c cands IH]; intros results r H; cbn [collect] in H;
    [now left|].
  assert (Hskip : In r (collect query lim exts db cands results) ->
                  In r results
                  \/ exists c0 file,
                       In c0 (c :: cands)
                       /\ fileById (Embedding.fileId (fst c0)) db = Some file
                       /\ match exts with
                          | Some (e :: es) =>
                              In (getFileExtension (File.path file)) (e :: es)
                          | _ => True
                          end
                       /\ r = toResult query file db c0).
  { intro H'. apply IH in H'. destruct H' as [H'|(c0 & file & Hc0 & H')];
      [now left|right]. exists c0, file. split; [now right|exact H']. }
  destruct (fileById (Embedding.fileId (fst c)) db) as [file|] eqn:Ef; [|auto].
  match type of H with
  | context [negb ?w] => destruct w eqn:Ew
  end; cbn [negb] in H; [|auto].
  assert (Hhere : In r (results ++ [toResult query file db c]) ->
                  In r results
                  \/ exists c0 file0,
                       In c0 (c :: cands)
                       /\ fileById (Embedding.fileId (fst c0)) db = Some file0
                       /\ match exts with
                          | Some (e :: es) =>
                              In (getFileExtension (File.path file0)) (e :: es)
                          | _ => True
                          end
                       /\ r = toResult query file0 db c0).
  { intro H'. apply in_app_or in H'. destruct H' as [H'|[<-|[]]]; [now left|right].
    exists c, file. split; [now left|]. split; [exact Ef|]. split; [|reflexivity].
    destruct exts as [[|e es]|]; auto.
    apply existsb_exists in Ew. destruct Ew as [x [Hx Heq]].
    apply String.eqb_eq in Heq. now rewrite Heq. }
  destruct (lim <=? Z.of_nat (List.length (results ++ [toResult query file db c])))%Z;
    [auto|].
  apply IH in H. destruct H as [H|(c0 & file0 & Hc0 & H)]; [auto|right].
  exists c0, file0. split; [now right|exact H].
Qed.

(** X17.  Every result of [searchCode] is made from a stored embedding and
    the stored file that owns it: the score is the similarity of the query
    and that embedding, the snippet is the first 200 characters of its
    text (with three dots when there are more), the line is at least 1; and
    when extensions are asked for, the extension of the file is one of
    them. *)
Theorem X17_searchCode_results_are_stored :
  forall (query : string) (options : SearchOptions) (db : Db),
    Forall
      (fun r =>
         exists embedding,
           In embedding (embeddings db)
           /\ In (file r) (files db)
           /\ File.id (file r) = Embedding.fileId embedding
           /\ score r
              = SearchEngine.cosineSimilarity (generateEmbedding query)
                  (Embedding.embedding embedding)
           /\ snippet r = excerpt 200 (Embedding.content embedding)
           /\ String.length (snippet r) <= 203
           /\ 1 <= line r
           /\ match fileExtensions options with
              | Some (e :: es) => In (getFileExtension (File.path (file r))) (e :: es)
              | _ => True
              end)
      (searchCode generateEmbedding query options db).
Proof.
  intros query options db. apply Forall_forall. intros r Hr.
  unfold searchCode in Hr. apply collect_In in Hr.
  destruct Hr as [[]|(c & f & Hc & Hf & Hext & ->)].
  apply ranked_passing in Hc. unfold passing in Hc. apply filter_In in Hc.
  destruct Hc as [Hc _]. unfold similarities in Hc. apply in_map_iff in Hc.
  destruct Hc as [e [<- He]]. simpl in *.
  apply fileById_stored in Hf. destruct Hf as [Hin Hid].
  exists e. repeat split; auto.
  - apply (excerpt_length 200).
  - unfold LanguageParser.orElse. destruct (metaStartLine _ =? 0) eqn:E; [lia|].
    apply Nat.eqb_neq in E. lia.
Qed.
End Results.

(** ** Matches and symbols *)

Section Matches.
Import JsString DatabaseManager SearchEngine.

Lemma startsWith_substring (p s : string) :
  startsWith p s = true ->
  String.substring 0 (String.length p) s = p /\ String.length p <= String.length s.
Proof.
  revert s. induction p as [|a p IH]; intros s H.
  - simpl. split; [|lia]. now destruct s.
  - destruct s as [|b s]; simpl in H; [discriminate|].
    apply andb_true_iff in H. destruct H as [Hab H].
    apply Ascii.eqb_eq in Hab. subst b.
    destruct (IH s H) as [Hs Hl]. simpl. rewrite Hs. split; [reflexivity|lia].
Qed.

Lemma occurrences_spec (word s : string) :
  forall i n,
    In n (occurrences word s i) ->
    i <= n
    /\ String.substring (n - i) (String.length word) s = word
    /\ (n - i) + String.length word <= String.length s.
Proof.
  induction s as [|c s IH]; intros i n H.
  - cbn [occurrences] in H.
    destruct (startsWith word EmptyString) eqn:E; [|contradiction].
    destruct H as [<-|[]]. rewrite Nat.sub_diag.
    apply startsWith_substring in E. split; [lia|]. split; [tauto|]. lia.
  - cbn [occurrences] in H.
    assert (Hlater : In n (occurrences word s (S i)) ->
                     i <= n
                     /\ String.substring (n - i) (String.length word) (String c s) = word
                     /\ n - i + String.length word <= String.length (String c s)).
    { intro H'. apply IH in H'. destruct H' as (Hle & Hsub & Hlen).
      replace (n - i) with (S (n - S i)) by lia. simpl.
      split; [lia|]. split; [exact Hsub|lia]. }
    destruct (startsWith word (String c s)) eqn:E; [|auto].
    destruct H as [<-|H]; [|auto].
    rewrite Nat.sub_diag. apply startsWith_substring in E.
    split; [lia|]. split; [tauto|]. lia.
Qed.

Lemma toLowerCase_length (s : string) :
  String.length (toLowerCase s) = String.length s.
Proof. induction s; simpl; [reflexivity|now f_equal]. Qed.

Lemma toLowerCase_substring (s : string) :
  forall a n,
    toLowerCase (String.substring a n s) = String.substring a n (toLowerCase s).
Proof.
  induction s as [|c s IH]; intros a n.
  - destruct a, n; reflexivity.
  - destruct a as [|a]; destruct n as [|n]; simpl; try reflexivity.
    + now rewrite IH.
    + apply IH.
    + apply IH.
Qed.

(** X18.  On a query and a content of ASCII characters, every match that
    [findMatches] reports is an occurrence in the content, whatever the
    case of its letters, of a word of the query of two characters or more:
    its text is the content from [start] to [end], inside the content, and
    in small letters it is that word.  The matches are ordered by their
    start.  (On other text [toLowerCase] can change the length, and the
    indices found in the lowered content need not fit the content.) *)
Theorem X18_findMatches_are_occurrences :
  forall query content : string,
    allChars isAscii query = true ->
    allChars isAscii content = true ->
    StronglySorted (fun a b => start a <= start b) (findMatches query content)
    /\ Forall
         (fun m =>
            start m + 2 <= end_ m
            /\ end_ m <= String.length content
            /\ text m = substring (start m) (end_ m) content
            /\ String.length (text m) = end_ m - start m
            /\ In (toLowerCase (text m))
                 (EmbeddingGenerator.splitSpaces (toLowerCase query) false))
         (findMatches query content).
Proof.
  intros query content _ _. unfold findMatches. split.
  - apply stableSort_sorted with (dom := fun _ => True).
    + intros; lia.
    + intros x y _ _ H. apply Nat.ltb_lt in H. lia.
    + intros x y _ _ H. apply Nat.ltb_ge in H. lia.
    + apply Forall_forall. auto.
  - apply Forall_forall. intros m Hm.
    apply stableSort_In in Hm. apply in_flat_map in Hm.
    destruct Hm as [word [Hword Hm]].
    destruct (String.length word <? 2) eqn:Elen; [contradiction|].
    apply Nat.ltb_ge in Elen.
    apply in_map_iff in Hm. destruct Hm as [index [<- Hindex]]. simpl.
    apply occurrences_spec in Hindex. destruct Hindex as (_ & Hsub & Hlen).
    rewrite Nat.sub_0_r in Hsub, Hlen. rewrite toLowerCase_length in Hlen.
    assert (Hlow : toLowerCase (substring index (index + String.length word) content)
                   = word).
    { unfold substring.
      replace (index + String.length word - index) with (String.length word) by lia.
      now rewrite toLowerCase_substring. }
    repeat split; try lia.
    + rewrite <- (toLowerCase_length (substring _ _ content)), Hlow. lia.
    + now rewrite Hlow.
Qed.

Lemma X18_witness :
  StronglySorted (fun a b => start a <= start b)
    (findMatches "ADD three" "export const three = add(1, Add);")
  /\ map (fun m => (start m, end_ m, text m))
       (findMatches "ADD three" "export const three = add(1, Add);")
     = [(13, 18, "three"); (21, 24, "add"); (28, 31, "Add")].
Proof.
  split; [|vm_compute; reflexivity].
  refine (proj1 (@X18_findMatches_are_occurrences "ADD three"
                   "export const three = add(1, Add);" _ _));
    vm_compute; reflexivity.
Defined.
End Matches.

Section Symbols.
Import JsString DatabaseManager SearchEngine.

Lemma symbolTypeEqb_eq (a b : LanguageParser.SymbolType) :
  symbolTypeEqb a b = true -> a = b.
Proof. destruct a, b; simpl; intro H; try reflexivity; discriminate. Qed.

Lemma findSymbolsByName_In (name : string) (type : option LanguageParser.SymbolType)
  (db : Db) (s : Symbol.t) :
  In s (findSymbolsByName name type db) ->
  In s (symbols db) /\ Symbol.name s = name
  /\ match type with Some t => Symbol.type s = t | None => True end.
Proof.
  unfold findSymbolsByName. intro H. apply stableSort_In in H.
  apply filter_In in H. destruct H as [Hin H].
  apply andb_true_iff in H. destruct H as [Hn Ht].
  apply String.eqb_eq in Hn. repeat split; auto.
  destruct type; [now apply symbolTypeEqb_eq|exact I].
Qed.

Lemma typeOfName_name (t : string) (ty : LanguageParser.SymbolType) :
  typeOfName t = Some ty -> typeName ty = t.
Proof.
  unfold typeOfName. intro H. apply find_some in H.
  destruct H as [_ H]. now apply String.eqb_eq in H.
Qed.

Lemma symbolScore_constant (symbolName : string) (symbolType : option string)
  (db : Db) (s : Symbol.t) :
  In s (symbolsNamed symbolName symbolType db) ->
  Symbol.name s = symbolName
  /\ symbolScore symbolName symbolType s = scoreFor symbolType.
Proof.
  unfold symbolsNamed, symbolScore, scoreFor.
  destruct symbolType as [t|].
  - destruct (isEmpty t) eqn:Et; simpl.
    + intro H. apply findSymbolsByName_In in H. destruct H as (_ & Hn & _).
      split; [exact Hn|]. now rewrite Hn, String.eqb_refl.
    + destruct (typeOfName t) as [ty|] eqn:Ety; [|intros []].
      intro H. apply findSymbolsByName_In in H. destruct H as (_ & Hn & Ht).
      split; [exact Hn|]. rewrite Hn, String.eqb_refl, Ht.
      rewrite (typeOfName_name _ Ety), String.eqb_refl. reflexivity.
  - intro H. apply findSymbolsByName_In in H. destruct H as (_ & Hn & _).
    split; [exact Hn|]. now rewrite Hn, String.eqb_refl.
Qed.

(** X19.  [findSymbol] returns one result for each stored symbol of exactly
    that name (and of that type, when one is asked for) whose file is
    stored, in the order of the query of the database: every result has
    the same score, 1 without a type and 1.2 with one, and the sort by
    score moves nothing. *)
Theorem X19_findSymbol_results :
  forall (symbolName : string) (symbolType : option string) (db : Db),
    map symSymbol (findSymbol symbolName symbolType db)
    = filter (fun s => match fileById (Symbol.fileId s) db with
                       | Some _ => true
                       | None => false
                       end)
        (symbolsNamed symbolName symbolType db)
    /\ Forall
         (fun r =>
            Symbol.name (symSymbol r) = symbolName
            /\ fileById (Symbol.fileId (symSymbol r)) db = Some (symFile r)
            /\ symScore r = scoreFor symbolType)
         (findSymbol symbolName symbolType db).
Proof.
  intros symbolName symbolType db. unfold findSymbol.
  set (found := flat_map _ (symbolsNamed symbolName symbolType db)).
  assert (Hall : Forall
                   (fun r =>
                      Symbol.name (symSymbol r) = symbolName
                      /\ fileById (Symbol.fileId (symSymbol r)) db = Some (symFile r)
                      /\ symScore r = scoreFor symbolType) found).
  { apply Forall_forall. intros r Hr. unfold found in Hr.
    apply in_flat_map in Hr. destruct Hr as [s [Hs Hr]].
    destruct (fileById (Symbol.fileId s) db) as [f|] eqn:Ef; [|contradiction].
    destruct Hr as [<-|[]]. simpl.
    destruct (symbolScore_constant _ _ _ _ Hs) as [Hn Hsc]. auto. }
  assert (Hsort : stableSort symbolBefore found = found).
  { apply stableSort_ordered.
    assert (Hpairs : forall l, Forall (fun r => symScore r = scoreFor symbolType) l ->
                               ForallOrdPairs (fun a b => symbolBefore b a = false) l).
    { induction 1 as [|a l Ha Hl IH]; constructor; [|exact IH].
      eapply Forall_impl; [|exact Hl]. intros b Hb. simpl in Hb.
      unfold symbolBefore. rewrite Ha, Hb. unfold scoreFor.
      destruct symbolType as [t|]; [destruct (isEmpty t)|]; reflexivity. }
    apply Hpairs. eapply Forall_impl; [|exact Hall]. simpl. tauto. }
  rewrite Hsort. split; [|exact Hall].
  unfold found. clear.
  induction (symbolsNamed symbolName symbolType db) as [|s l IH]; simpl;
    [reflexivity|].
  destruct (fileById (Symbol.fileId s) db); simpl; now rewrite IH.
Qed.
End Symbols.

(** ** Dependency graphs and contexts *)

Section Graph.
Import JsString DatabaseManager SearchEngine.

Lemma getAllFiles_In (db : Db) (f : File.t) : In f (getAllFiles db) <-> In f (files db).
Proof. unfold getAllFiles. apply stableSort_In. Qed.

Lemma getDependenciesByFile_In (fileId : nat) (db : Db) (d : Dependency.t) :
  In d (getDependenciesByFile fileId db)
  <-> In d (dependencies db) /\ Dependency.sourceFileId d = fileId.
Proof.
  unfold getDependenciesByFile. rewrite filter_In.
  now rewrite Nat.eqb_eq.
Qed.

(** X20.  [analyzeDependencies] answers [null] exactly for a path that is
    not stored.  Otherwise it lists the dependencies of the file in the
    order of the database, each with the stored file of its target id, and
    as dependents exactly the pairs of another stored file and one of its
    dependencies whose target id is the id of this file. *)
Theorem X20_analyzeDependencies_graph :
  forall (filePath : string) (depth : Z) (db : Db),
    match getFile filePath db with
    | None => analyzeDependencies filePath depth db = None
    | Some file =>
        exists graph,
          analyzeDependencies filePath depth db = Some graph
          /\ graphFile graph = file
          /\ map depImportPath (graphDependencies graph)
             = map Dependency.importPath (getDependenciesByFile (File.id file) db)
          /\ Forall
               (fun entry =>
                  forall target, depFile entry = Some target -> In target (files db))
               (graphDependencies graph)
          /\ forall entry,
               In entry (graphDependents graph)
               <-> exists other dep,
                     In other (files db)
                     /\ File.id other <> File.id file
                     /\ In dep (dependencies db)
                     /\ Dependency.sourceFileId dep = File.id other
                     /\ Dependency.targetFileId dep = Some (File.id file)
                     /\ entry = {| dependentFile := other;
                                   dependentImportPath := Dependency.importPath dep;
                                   dependentType := Dependency.importType dep;
                                   dependentSymbols := Dependency.symbols dep |}
    end.
Proof.
  intros filePath depth db. unfold analyzeDependencies.
  destruct (getFile filePath db) as [file|]; [|reflexivity].
  eexists. split; [reflexivity|]. simpl. split; [reflexivity|].
  split; [now rewrite map_map|]. split.
  - apply Forall_forall. intros entry Hentry target Htarget.
    apply in_map_iff in Hentry. destruct Hentry as [dep [<- _]]. simpl in Htarget.
    unfold targetOf in Htarget.
    destruct (Dependency.targetFileId dep) as [[|t]|]; try discriminate.
    now apply fileById_stored in Htarget.
  - intro entry. unfold dependentsOf. rewrite in_flat_map. split.
    + intros [other [Hother Hin]].
      destruct (File.id other =? File.id file) eqn:E; [contradiction|].
      apply in_flat_map in Hin. destruct Hin as [dep [Hdep Hin]].
      unfold targets in Hin.
      destruct (Dependency.targetFileId dep) as [t|] eqn:Et; [|contradiction].
      destruct (t =? File.id file) eqn:E'; [|contradiction].
      destruct Hin as [<-|[]].
      apply Nat.eqb_eq in E'. subst t. apply Nat.eqb_neq in E.
      apply getAllFiles_In in Hother.
      apply getDependenciesByFile_In in Hdep. destruct Hdep as [Hdep Hsrc].
      exists other, dep. repeat split; auto.
    + intros (other & dep & Hother & Hne & Hdep & Hsrc & Htgt & ->).
      exists other. split; [now apply getAllFiles_In|].
      apply Nat.eqb_neq in Hne. rewrite Hne.
      apply in_flat_map. exists dep. split.
      * apply getDependenciesByFile_In. now split.
      * unfold targets. rewrite Htgt, Nat.eqb_refl. now left.
Qed.
End Graph.

Section ContextOfAFile.
Import JsString DatabaseManager SearchEngine.
Variable generateEmbedding : string -> list float.

Lemma sliceTo_length (A : Type) (stop : Z) (l : list A) :
  (0 <= stop)%Z -> (Z.of_nat (List.length (sliceTo stop l)) <= stop)%Z.
Proof.
  intro H. unfold sliceTo.
  destruct (stop <? 0)%Z eqn:E; [apply Z.ltb_lt in E; lia|].
  rewrite length_firstn. lia.
Qed.

Lemma searchCode_length (query : string) (options : SearchOptions) (db : Db) :
  (0 <= limitOf options)%Z ->
  (Z.of_nat (List.length (searchCode generateEmbedding query options db))
   <= limitOf options)%Z.
Proof.
  intro Hlim. unfold searchCode.
  pose proof (@collect_length query db (limitOf options) (fileExtensions options)
                (ranked generateEmbedding query (limitOf options)
                   (thresholdOf options) db) []) as H.
  simpl in H. rewrite Z.max_l in H by lia. apply H.
  destruct (Z.eq_dec (limitOf options) 0) as [E|E]; [right|left; lia].
  unfold ranked, sliceTo. rewrite E. reflexivity.
Qed.

Lemma filter_length_le (A : Type) (p : A -> bool) (l : list A) :
  List.length (filter p l) <= List.length l.
Proof.
  induction l as [|a l IH]; simpl; [lia|]. destruct (p a); simpl; lia.
Qed.

(** X21.  [getContext] answers [null] exactly for a path that is not stored.
    Otherwise the symbols it returns are symbols stored for the file, all
    with the asked name inside their name when one is asked for; the
    related files are the stored files that a dependency of the file
    targets; and for a context size that is not negative there are at
    most that many pieces of code. *)
Theorem X21_getContext_result :
  forall (filePath : string) (symbolName : option string) (contextSize : option Z)
         (db : Db),
    match getFile filePath db with
    | None => getContext generateEmbedding filePath symbolName contextSize db = None
    | Some file =>
        exists context,
          getContext generateEmbedding filePath symbolName contextSize db
          = Some context
          /\ ctxFile context = file
          /\ ctxDependencies context = getDependenciesByFile (File.id file) db
          /\ Forall
               (fun s =>
                  In s (symbols db) /\ Symbol.fileId s = File.id file
                  /\ match given symbolName with
                     | Some name => includes name (Symbol.name s) = true
                     | None => True
                     end)
               (ctxSymbols context)
          /\ (forall f,
                In f (ctxRelatedFiles context)
                <-> In f (files db)
                    /\ exists dep,
                         In dep (getDependenciesByFile (File.id file) db)
                         /\ Dependency.targetFileId dep = Some (File.id f)
                         /\ File.id f <> 0)
          /\ ((0 <= contextSizeOf contextSize)%Z ->
              (Z.of_nat (List.length (ctxRelevantCode context))
               <= contextSizeOf contextSize)%Z)
    end.
Proof.
  intros filePath symbolName contextSize db. unfold getContext.
  destruct (getFile filePath db) as [file|]; [|reflexivity].
  eexists. split; [reflexivity|]. simpl.
  split; [reflexivity|]. split; [reflexivity|]. split; [|split].
  - apply Forall_forall. intros s Hs.
    assert (Hfile : forall s, In s (getSymbolsByFile (File.id file) db) ->
                              In s (symbols db) /\ Symbol.fileId s = File.id file).
    { intros s0 H0. unfold getSymbolsByFile in H0. apply stableSort_In in H0.
      apply filter_In in H0. now rewrite Nat.eqb_eq in H0. }
    destruct (given symbolName) as [name|].
    + apply filter_In in Hs. destruct Hs as [Hs Hinc].
      destruct (Hfile s Hs). auto.
    + destruct (Hfile s Hs). auto.
  - intro f. rewrite filter_In, getAllFiles_In. unfold relatedFileIds.
    split.
    + intros [Hf Hmem]. split; [exact Hf|].
      apply memNat_In in Hmem. apply in_flat_map in Hmem.
      destruct Hmem as [dep [Hdep Hin]]. exists dep. split; [exact Hdep|].
      destruct (Dependency.targetFileId dep) as [[|t]|]; try contradiction.
      destruct Hin as [Hin|[]]. rewrite <- Hin. split; [reflexivity|discriminate].
    + intros [Hf (dep & Hdep & Htgt & Hnz)]. split; [exact Hf|].
      apply memNat_In. apply in_flat_map. exists dep. split; [exact Hdep|].
      rewrite Htgt. destruct (File.id f); [contradiction|now left].
  - intro Hsize. destruct (given symbolName) as [name|].
    + rewrite length_map.
      pose proof (@searchCode_length name
                    {| limit := Some (contextSizeOf contextSize);
                       fileExtensions := None; threshold := None |} db Hsize) as H.
      unfold limitOf in H. cbn [limit] in H.
      match goal with
      | |- context [List.length (filter ?p ?l)] =>
          pose proof (filter_length_le p l)
      end. lia.
    + rewrite length_map. now apply sliceTo_length.
Qed.
End ContextOfAFile.

(** ** The references of a name *)

Section ReferenceLists.
Import JsString DatabaseManager SearchEngine.
Variable newRegExp : string -> result RegExp.

Lemma usagesInLine_added (symbolRegex : RegExp) (symbols : list Symbol.t)
  (file : File.t) (lineIndex : nat) (line : string) :
  forall fuel lastIndex results out,
    usagesInLine fuel symbolRegex symbols file lineIndex line lastIndex results
    = Some out ->
    exists added,
      out = results ++ added /\ Forall (usageOn file lineIndex line) added.
Proof.
  induction fuel as [|fuel IH]; intros lastIndex results out H; simpl in H;
    [discriminate|].
  destruct (symbolRegex line lastIndex) as [[matchIndex lastIndex']|].
  - apply IH in H. destruct H as (added & -> & Hadded).
    destruct (negb (isDefinition symbols file lineIndex)).
    + eexists (_ :: added). rewrite <- app_assoc. split; [reflexivity|].
      constructor; [|exact Hadded].
      unfold usageOn. simpl. repeat split. lia.
    + now exists added.
  - injection H as <-. exists []. rewrite app_nil_r. split; [reflexivity|constructor].
Qed.

Lemma usagesInLines_added (fuel : nat) (symbolRegex : RegExp)
  (symbols : list Symbol.t) (file : File.t) (numbered : list (nat * string)) :
  forall results out,
    usagesInLines fuel symbolRegex symbols file numbered results = Some out ->
    exists added,
      out = results ++ added
      /\ Forall (fun r => exists il, In il numbered
                                     /\ usageOn file (fst il) (snd il) r) added.
Proof.
  induction numbered as [|[lineIndex line] numbered IH]; intros results out H;
    simpl in H.
  - injection H as <-. exists []. rewrite app_nil_r. split; [reflexivity|constructor].
  - destruct (usagesInLine fuel symbolRegex symbols file lineIndex line 0 results)
      as [results'|] eqn:E; [|discriminate].
    apply usagesInLine_added in E. destruct E as (added1 & -> & H1).
    apply IH in H. destruct H as (added2 & -> & H2).
    exists (added1 ++ added2). rewrite app_assoc. split; [reflexivity|].
    apply Forall_app. split.
    + eapply Forall_impl; [|exact H1]. intros r Hr.
      exists (lineIndex, line). split; [now left|exact Hr].
    + eapply Forall_impl; [|exact H2]. intros r (il & Hil & Hr).
      exists il. split; [now right|exact Hr].
Qed.

Lemma usagesInFiles_added (fuel : nat) (symbolRegex : RegExp)
  (symbols : list Symbol.t) (db : Db) (allFiles : list File.t) :
  (forall f, In f allFiles -> In f (files db)) ->
  forall results out,
    usagesInFiles fuel symbolRegex symbols allFiles results = Some out ->
    exists added, out = results ++ added /\ Forall (usageIn db) added.
Proof.
  induction allFiles as [|file allFiles IH]; intros Hfiles results out H; simpl in H.
  - injection H as <-. exists []. rewrite app_nil_r. split; [reflexivity|constructor].
  - destruct (usagesInLines fuel symbolRegex symbols file
                (indexed (lines (File.content file))) results)
      as [results'|] eqn:E; [|discriminate].
    apply usagesInLines_added in E. destruct E as (added1 & -> & H1).
    apply IH in H; [|intros; apply Hfiles; now right].
    destruct H as (added2 & -> & H2).
    exists (added1 ++ added2). rewrite app_assoc. split; [reflexivity|].
    apply Forall_app. split; [|exact H2].
    eapply Forall_impl; [|exact H1].
    intros r ([i line] & Hil & Htype & Hfile & Hline & Hctx & Hcol). simpl in *.
    apply indexed_nth in Hil.
    unfold usageIn. rewrite Hfile, Hline.
    split; [exact Htype|]. split; [apply Hfiles; now left|]. split; [exact Hcol|].
    exists line. replace (i + 1 - 1) with i by lia.
    split; [exact Hil|]. split; [lia|exact Hctx].
Qed.

Lemma definitions_stored (symbolName : string) (filePath : option string) (db : Db) :
  Forall (definitionIn db symbolName filePath)
    (definitions (findSymbolsByName symbolName None db) filePath db).
Proof.
  apply Forall_forall. intros r Hr. unfold definitions in Hr.
  apply in_flat_map in Hr. destruct Hr as [s [Hs Hr]].
  apply findSymbolsByName_In in Hs. destruct Hs as (Hin & Hname & _).
  destruct (fileById (Symbol.fileId s) db) as [file|] eqn:Ef; [|contradiction].
  apply fileById_stored in Ef. destruct Ef as [Hfile Hid].
  assert (Hdef : forall wanted',
             given filePath = wanted' ->
             match wanted' with
             | Some wanted => File.path file = wanted
             | None => True
             end ->
             definitionIn db symbolName filePath (definitionOf file s)).
  { intros wanted' Hg Hw. unfold definitionIn. simpl. rewrite Hg.
    repeat split; auto. exists s. repeat split; auto. }
  unfold given in Hdef.
  destruct filePath as [wanted|].
  - destruct (isEmpty wanted) eqn:Ee; simpl in Hr.
    + destruct Hr as [<-|[]]. now apply (Hdef None).
    + destruct (String.eqb (File.path file) wanted) eqn:Ep; simpl in Hr;
        [|contradiction].
      destruct Hr as [<-|[]]. apply (Hdef (Some wanted)); [reflexivity|].
      now apply String.eqb_eq.
  - destruct Hr as [<-|[]]. now apply (Hdef None).
Qed.

(** X22.  What [getReferences] returns is the list of the definitions
    followed by the list of the usages.  A definition is the start of a
    stored symbol of exactly that name in a stored file, of the asked path
    when one is asked for; a usage cites a line of a stored file, with the
    trimmed text of that line as its context.  When the name is not a valid
    expression, the result is the empty list. *)
Theorem X22_getReferences_definitions_then_usages :
  forall (fuel : nat) (symbolName : string) (filePath : option string) (db : Db)
         (results : list ReferenceResult),
    getReferences newRegExp fuel symbolName filePath db = Some results ->
    match newRegExp symbolName with
    | Throw _ => results = []
    | Ok _ =>
        exists found usages,
          results = found ++ usages
          /\ Forall (definitionIn db symbolName filePath) found
          /\ Forall (usageIn db) usages
    end.
Proof.
  intros fuel symbolName filePath db results H. unfold getReferences in H.
  destruct (newRegExp symbolName) as [symbolRegex|e]; [|now injection H].
  apply usagesInFiles_added with (db := db) in H.
  - destruct H as (usages & -> & Husages).
    eexists. exists usages. split; [reflexivity|]. split; [|exact Husages].
    apply definitions_stored.
  - intros f. apply getAllFiles_In.
Qed.
End ReferenceLists.

Section ReferencesExample.
Import DatabaseManager SearchEngine.

Lemma X22_witness :
  exists results found usages,
    getReferences Example.wordRegExp 100 "add" None
      (Example.indexed (fun s => s) Example.embed "/repo") = Some results
    /\ results = found ++ usages
    /\ Forall (definitionIn (Example.indexed (fun s => s) Example.embed "/repo")
                 "add" None) found
    /\ Forall (usageIn (Example.indexed (fun s => s) Example.embed "/repo")) usages.
Proof.
  assert (E : {results | getReferences Example.wordRegExp 100 "add" None
                            (Example.indexed (fun s => s) Example.embed "/repo")
                          = Some results})
    by (eexists; vm_compute; reflexivity).
  destruct E as [results E]. exists results.
  destruct (@X22_getReferences_definitions_then_usages Example.wordRegExp 100
              "add" None (Example.indexed (fun s => s) Example.embed "/repo")
              results E) as (found & usages & H).
  exists found, usages. split; [exact E|exact H].
Defined.
End ReferencesExample.

(** ** Globs *)

Section Globs.
Import JsString FileWatcher.

Lemma replaceChar_append (c : ascii) (replacement a b : string) :
  replaceChar c replacement (String.append a b)
  = String.append (replaceChar c replacement a) (replaceChar c replacement b).
Proof.
  induction a as [|d a IH]; simpl; [reflexivity|].
  destruct (Ascii.eqb d c); rewrite IH; [|reflexivity].
  now rewrite append_assoc.
Qed.

Lemma afterStars_append (a b : string) :
  afterStars (String.append a b) = String.append (afterStars a) (afterStars b).
Proof. unfold afterStars. now rewrite !replaceChar_append. Qed.

Lemma afterStars_char (c : ascii) :
  afterStars (String c EmptyString) = translateChar c.
Proof. destruct c as [[] [] [] [] [] [] [] []]; reflexivity. Qed.

Lemma afterStars_cons (c : ascii) (s : string) :
  afterStars (String c s) = String.append (translateChar c) (afterStars s).
Proof.
  change (String c s) with (String.append (String c EmptyString) s).
  now rewrite afterStars_append, afterStars_char.
Qed.

Lemma afterStars_translate (s : string) :
  afterStars (replaceStarStar s) = translate s
  /\ forall c, afterStars (replaceStarStar (String c s)) = translate (String c s).
Proof.
  induction s as [|d rest [IH1 IH2]].
  - split; [reflexivity|]. intro c. apply afterStars_char.
  - split; [apply IH2|]. intro c.
    cbn [replaceStarStar translate].
    destruct (Ascii.eqb c "*" && Ascii.eqb d "*").
    + change (String "." (String "*" (replaceStarStar rest)))
        with (String.append ".*" (replaceStarStar rest)).
      rewrite afterStars_append, IH1. reflexivity.
    + rewrite afterStars_cons. f_equal. apply IH2.
Qed.

(** X23.  The four replacements of [globToRegex], one after the other, are
    one pass over the glob from the left in which a pair of stars becomes
    an escaped dot followed by [[^/]*], a single star becomes [[^/]*], and
    a question mark and a dot both become an escaped dot: the dots that the
    first and the third replacement write are escaped by the fourth. *)
Theorem X23_globToRegex_in_one_pass :
  forall glob : string,
    globToRegex glob = String.append "^" (String.append (translate glob) "$").
Proof.
  intro glob. unfold globToRegex. f_equal. f_equal.
  exact (proj1 (afterStars_translate glob)).
Qed.
End Globs.

(** ** A file that cannot be read, and a file removed again *)

Section Unreadable.
Import DatabaseManager CodeIndexer.
Variable fs : Fs.t.
Variable cwd : string.
Variable sha256 : string -> string.
Variable generateEmbedding : string -> list float.



(** X25.  [removeFile] after [indexFile] of the same readable file, with
    the same root, takes the file out again: its path is not found, and
    every other path is found as it was before the two calls. *)
Theorem X25_indexFile_then_removeFile :
  forall (filePath repoPath : string) (now : nat) (db : Db) (entry : Fs.Entry),
    Fs.lookup fs filePath = Some entry ->
    let indexed := snd (indexFile fs sha256 generateEmbedding filePath repoPath now db) in
    getFile (Path.relative repoPath filePath) (removeFile filePath repoPath indexed)
    = None
    /\ forall p, p <> Path.relative repoPath filePath ->
         getFile p (removeFile filePath repoPath indexed) = getFile p db.
Proof.
  intros filePath repoPath now db entry Hentry indexed.
  destruct (@indexFile_file generateEmbedding fs sha256 filePath repoPath now db
              entry Hentry) as (db' & Hrun & _ & Hother).
  subst indexed. rewrite Hrun. simpl snd. unfold removeFile, getFile.
  rewrite !deleteFile_files. split.
  - apply find_filter_same.
  - intros p Hp. rewrite (find_filter_other _ Hp). now apply Hother.
Qed.
End Unreadable.

Section UnreadableExample.
Import DatabaseManager CodeIndexer.


Lemma X25_witness :
  getFile "b.js"
    (removeFile "/repo/b.js" "/repo"
       (snd (indexFile Example.tree (fun s => s) Example.embed "/repo/b.js" "/repo" 10
               (Example.indexed (fun s => s) Example.embed "/repo"))))
  = None.
Proof.
  refine (proj1 (@X25_indexFile_then_removeFile Example.tree (fun s => s)
                   Example.embed "/repo/b.js" "/repo" 10
                   (Example.indexed (fun s => s) Example.embed "/repo")
                   {| Fs.text := Example.bText;
                      Fs.stats := {| Fs.size := 61; Fs.mtime := 2000 |} |} _)).
  vm_compute. reflexivity.
Defined.
End UnreadableExample.
